(** * zynaudioplayer: a shallow embedding of the audio-file player library

    The development follows [player.c] of the Zynthian audio player
    (instance registry, control surface, JACK process callback, file
    reader thread) and proves properties of that code.

    Modelling conventions.
    - C integers are [Z]; where the source relies on a fixed width
      ([jack_nframes_t] is 32 bits, [size_t] is 64 bits) the wrap-around is
      written out.
    - [float] and [double] values are exact rationals ([Q]): rounding is
      outside the model.  The gain, which the caller hands in and the
      process callback multiplies into the ports, is a [float] that may be
      infinite or NaN, and so are the samples of the ports and the value
      passed to the notification callback.  Every division of the modelled
      code has a divisor that the source guards against zero.
    - The global array [g_players] is a list of slots; a player pointer is
      the index of the slot that holds the player, [None] is [NULL].
    - What C leaves undefined (reading past [g_players], writing past a
      [char] array, [x % 0], a [double] that does not fit the integer it is
      stored in) is the result [Fault].
    - A JACK ring buffer is the queue of the floats it holds.  A write that
      stores only part of a float leaves the bytes of the ring out of step
      with the floats; a run that does so ends in the result [Torn], which
      records the write.
    - The library is built without [ENABLE_OSC] and [ENABLE_MIDI]; the code
      under these switches is not part of the model.
    - The notification callback [cb_fn] is an output: each call is appended
      to [cb_log].
    - Of [file_thread_fn] the model has the end of the loading step, from the
      converted block [pBufferOut] to the ring buffers; opening, seeking,
      reading and converting the file are the work of libsndfile and
      libsamplerate.  Each function is modelled as one atomic step; where the
      file thread sleeps, the steps of the other threads are a parameter. *)

From Stdlib Require Import ZArith QArith Qabs Lia Ascii String.
From stdpp Require Import base list.
From coqutil Require Import Datatypes.RecordSetters.
Import TriangleBracketNotations.

Open Scope Z_scope.

#[global] Arguments constant {E} newValue _ /.
#[global] Arguments apply_update {R E} !u !_ /.

(** ** Constants and enumerations *)

(** [#define MAX_PLAYERS 16] *)
Definition MAX_PLAYERS : Z := 16.

(** [SRC_LINEAR] of libsamplerate's converter enumeration. *)
Definition SRC_LINEAR : Z := 4.

Inductive playState := STOPPED | STARTING | PLAYING | STOPPING.

Inductive seekState := IDLE | SEEKING | LOADING | LOOPING.

Definition playState_code (s : playState) : Z :=
  match s with STOPPED => 0 | STARTING => 1 | PLAYING => 2 | STOPPING => 3 end.

#[global] Instance playState_eq_dec : EqDecision playState.
Proof. solve_decision. Defined.

#[global] Instance seekState_eq_dec : EqDecision seekState.
Proof. solve_decision. Defined.

(** Modelled from the spec: the notification kinds of [player.h], which is
    not among the sources.  The spec lists the event kinds Transport,
    Position, Gain, Loop, TrackA, TrackB, Quality and Debug; [NOTIFY_ALL] is
    the selector the source passes to notify every kind. *)
Inductive notify :=
  | NOTIFY_ALL | NOTIFY_TRANSPORT | NOTIFY_POSITION | NOTIFY_GAIN
  | NOTIFY_LOOP | NOTIFY_TRACK_A | NOTIFY_TRACK_B | NOTIFY_QUALITY
  | NOTIFY_DEBUG.

#[global] Instance notify_eq_dec : EqDecision notify.
Proof. solve_decision. Defined.

(** ** Floating point helpers *)

Definition Qltb (x y : Q) : bool := negb (Qle_bool y x).

(** A [float] that need not be a number: an exact rational, plus or minus
    infinity, or NaN.  Arithmetic with NaN gives NaN, and so do
    [0 * infinity] and [infinity - infinity]; every comparison with NaN is
    false. *)
Inductive float :=
  | Num (q : Q)
  | Inf (negative : bool)
  | NaN.

#[global] Coercion Num : Q >-> float.

Definition fmul (x y : float) : float :=
  match x, y with
  | Num a, Num b => Num (a * b)
  | Inf s, Inf t => Inf (xorb s t)
  | Inf s, Num b | Num b, Inf s =>
      if Qeq_bool b 0 then NaN else Inf (xorb s (Qltb b 0))
  | _, _ => NaN
  end.

Definition fsub (x y : float) : float :=
  match x, y with
  | Num a, Num b => Num (a - b)
  | Inf s, Num _ => Inf s
  | Num _, Inf t => Inf (negb t)
  | Inf s, Inf t => if Bool.eqb s t then NaN else Inf s
  | _, _ => NaN
  end.

Definition fabs (x : float) : float :=
  match x with
  | Num a => Num (Qabs a)
  | Inf _ => Inf false
  | NaN => NaN
  end.

(** [x < y] and [x >= y] *)
Definition flt (x y : float) : bool :=
  match x, y with
  | Num a, Num b => Qltb a b
  | Inf s, Num _ => s
  | Num _, Inf t => negb t
  | Inf s, Inf t => s && negb t
  | _, _ => false
  end.

Definition fge (x y : float) : bool :=
  match x, y with
  | Num a, Num b => Qle_bool b a
  | NaN, _ | _, NaN => false
  | _, _ => negb (flt x y)
  end.

(** Truncation toward zero, the value of a conversion from [double] to an
    integer type. *)
Definition Qtruncate (x : Q) : Z := Z.quot (Qnum x) (Zpos (Qden x)).

(** ** The JACK ring buffer

    [jack_ringbuffer_t] belongs to the JACK library.  The model keeps the
    queue of floats and the usable size in bytes; all counts of the
    interface are bytes, as in the library.  The library rounds the size
    asked for up to a power of two and keeps one byte free, so that a ring
    buffer created with [sz] bytes takes [2 ^ k - 1] bytes.  The source
    reads whole floats and writes one float at a time; a write that finds
    room for part of the float only stores that part, which the model
    reports without a buffer to go on with. *)

Definition sizeof_float : Z := 4.

Record jack_ringbuffer := {
  rb_buf : list Q;
  rb_size : Z
}.

#[global] Instance upd_rb_buf : Setter rb_buf := ltac:(setter jack_ringbuffer (list Q) rb_buf).
#[global] Arguments upd_rb_buf _ !_ /.

Definition jack_ringbuffer_read_space (rb : jack_ringbuffer) : Z :=
  sizeof_float * Z.of_nat (length (rb_buf rb)).

Definition jack_ringbuffer_write_space (rb : jack_ringbuffer) : Z :=
  Z.max 0 (rb_size rb - jack_ringbuffer_read_space rb).

Definition jack_ringbuffer_reset (rb : jack_ringbuffer) : jack_ringbuffer :=
  rb <| rb_buf := [] |>.

(** [for (power_of_two = 1; 1 << power_of_two < sz; power_of_two++);] *)
Fixpoint for_power_of_two (fuel : nat) (power_of_two sz : Z) : Z :=
  match fuel with
  | O => power_of_two
  | S fuel' => if 2 ^ power_of_two <? sz
               then for_power_of_two fuel' (power_of_two + 1) sz
               else power_of_two
  end.

(** [jack_ringbuffer_create sz]: an empty buffer of [1 << power_of_two]
    bytes, of which all but one can be filled. *)
Definition jack_ringbuffer_create (sz : Z) : jack_ringbuffer :=
  let power_of_two := for_power_of_two 64 1 sz in
  {| rb_buf := []; rb_size := 2 ^ power_of_two - 1 |}.

(** [jack_ringbuffer_read rb dest cnt]: the bytes read, the floats handed
    to [dest], and the buffer afterwards. *)
Definition jack_ringbuffer_read (rb : jack_ringbuffer) (cnt : Z)
  : Z * list Q * jack_ringbuffer :=
  let n := Z.min cnt (jack_ringbuffer_read_space rb) in
  let k := Z.to_nat (n / sizeof_float) in
  (n, take k (rb_buf rb), rb <| rb_buf := drop k (rb_buf rb) |>).

(** [jack_ringbuffer_write rb src cnt] with [src] the address of one float:
    the bytes written and the buffer afterwards.  With all bytes of the
    float written the float is queued; with no byte written the buffer is
    as it was; with some bytes of the float written there is no queue of
    floats to describe the buffer. *)
Definition jack_ringbuffer_write (rb : jack_ringbuffer) (src : Q) (cnt : Z)
  : Z * option jack_ringbuffer :=
  let n := Z.min cnt (jack_ringbuffer_write_space rb) in
  if n =? sizeof_float then (n, Some (rb <| rb_buf := rb_buf rb ++ [src] |>))
  else if n =? 0 then (n, Some rb)
  else (n, None).

(** ** Player instances *)

Module sf.
(** [SF_INFO] of libsndfile. *)
Record info := {
  frames : Z;
  samplerate : Z;
  channels : Z;
  format : Z
}.
End sf.

(** [struct AUDIO_PLAYER].  The JACK port handles are the arguments of the
    process callback and the thread id plays no role in the model; pointers
    that the code only tests against [NULL] are integers, 0 being [NULL]. *)
Record AUDIO_PLAYER := {
  handle : Z;
  jack_client : Z;
  file_open : Z;
  file_read_status : seekState;
  play_state : playState;
  loop : Z;
  gain : float;
  track_a : Z;
  track_b : Z;
  buffer_size : Z;
  buffer_count : Z;
  src_quality : Z;
  last_play_state : Z;
  last_loop : Z;
  last_position : Q;
  last_gain : float;
  last_track_a : Z;
  last_track_b : Z;
  last_buffer_size : Z;
  last_buffer_count : Z;
  last_src_quality : Z;
  sf_info : sf.info;
  ringbuffer_a : jack_ringbuffer;
  ringbuffer_b : jack_ringbuffer;
  play_pos_frames : Z;
  frames : Z;
  filename : string;
  last_note_played : Z;
  src_ratio : Q;
  src_ratio_inv : Q;
  pitch_shift : Z;
  pitch_bend : Z;
  cb_object : Z;
  cb_fn : Z
}.

(** The assignments [pPlayer->field = value] of the source, one updater per
    assigned field, for the notation [p <| field := value |>]. *)
#[global] Instance upd_play_state : Setter play_state := ltac:(setter AUDIO_PLAYER playState play_state).
#[global] Instance upd_file_read_status : Setter file_read_status := ltac:(setter AUDIO_PLAYER seekState file_read_status).
#[global] Instance upd_loop : Setter loop := ltac:(setter AUDIO_PLAYER Z loop).
#[global] Instance upd_gain : Setter gain := ltac:(setter AUDIO_PLAYER float gain).
#[global] Instance upd_track_a : Setter track_a := ltac:(setter AUDIO_PLAYER Z track_a).
#[global] Instance upd_track_b : Setter track_b := ltac:(setter AUDIO_PLAYER Z track_b).
#[global] Instance upd_buffer_size : Setter buffer_size := ltac:(setter AUDIO_PLAYER Z buffer_size).
#[global] Instance upd_buffer_count : Setter buffer_count := ltac:(setter AUDIO_PLAYER Z buffer_count).
#[global] Instance upd_src_quality : Setter src_quality := ltac:(setter AUDIO_PLAYER Z src_quality).
#[global] Instance upd_last_play_state : Setter last_play_state := ltac:(setter AUDIO_PLAYER Z last_play_state).
#[global] Instance upd_last_loop : Setter last_loop := ltac:(setter AUDIO_PLAYER Z last_loop).
#[global] Instance upd_last_position : Setter last_position := ltac:(setter AUDIO_PLAYER Q last_position).
#[global] Instance upd_last_gain : Setter last_gain := ltac:(setter AUDIO_PLAYER float last_gain).
#[global] Instance upd_last_track_a : Setter last_track_a := ltac:(setter AUDIO_PLAYER Z last_track_a).
#[global] Instance upd_last_track_b : Setter last_track_b := ltac:(setter AUDIO_PLAYER Z last_track_b).
#[global] Instance upd_last_src_quality : Setter last_src_quality := ltac:(setter AUDIO_PLAYER Z last_src_quality).
#[global] Instance upd_ringbuffer_a : Setter ringbuffer_a := ltac:(setter AUDIO_PLAYER jack_ringbuffer ringbuffer_a).
#[global] Instance upd_ringbuffer_b : Setter ringbuffer_b := ltac:(setter AUDIO_PLAYER jack_ringbuffer ringbuffer_b).
#[global] Instance upd_play_pos_frames : Setter play_pos_frames := ltac:(setter AUDIO_PLAYER Z play_pos_frames).
#[global] Instance upd_last_note_played : Setter last_note_played := ltac:(setter AUDIO_PLAYER Z last_note_played).
#[global] Instance upd_pitch_shift : Setter pitch_shift := ltac:(setter AUDIO_PLAYER Z pitch_shift).
#[global] Instance upd_pitch_bend : Setter pitch_bend := ltac:(setter AUDIO_PLAYER Z pitch_bend).
#[global] Arguments upd_play_state _ !_ /.
#[global] Arguments upd_file_read_status _ !_ /.
#[global] Arguments upd_loop _ !_ /.
#[global] Arguments upd_gain _ !_ /.
#[global] Arguments upd_track_a _ !_ /.
#[global] Arguments upd_track_b _ !_ /.
#[global] Arguments upd_buffer_size _ !_ /.
#[global] Arguments upd_buffer_count _ !_ /.
#[global] Arguments upd_src_quality _ !_ /.
#[global] Arguments upd_last_play_state _ !_ /.
#[global] Arguments upd_last_loop _ !_ /.
#[global] Arguments upd_last_position _ !_ /.
#[global] Arguments upd_last_gain _ !_ /.
#[global] Arguments upd_last_track_a _ !_ /.
#[global] Arguments upd_last_track_b _ !_ /.
#[global] Arguments upd_last_src_quality _ !_ /.
#[global] Arguments upd_ringbuffer_a _ !_ /.
#[global] Arguments upd_ringbuffer_b _ !_ /.
#[global] Arguments upd_play_pos_frames _ !_ /.
#[global] Arguments upd_last_note_played _ !_ /.
#[global] Arguments upd_pitch_shift _ !_ /.
#[global] Arguments upd_pitch_bend _ !_ /.

(** The global variables, and the calls made to notification callbacks. *)
Record world := {
  g_players : list (option AUDIO_PLAYER);
  g_samplerate : Z;
  g_debug : Z;
  g_last_debug : Z;
  cb_log : list (Z * notify * float)
}.

#[global] Instance upd_g_players : Setter g_players :=
  ltac:(setter world (list (option AUDIO_PLAYER)) g_players).
#[global] Instance upd_g_last_debug : Setter g_last_debug := ltac:(setter world Z g_last_debug).
#[global] Instance upd_cb_log : Setter cb_log :=
  ltac:(setter world (list (Z * notify * float)) cb_log).
#[global] Arguments upd_g_players _ !_ /.
#[global] Arguments upd_g_last_debug _ !_ /.
#[global] Arguments upd_cb_log _ !_ /.

(** A pointer to a player: the slot that holds it, or [NULL]. *)
Definition player_ptr := option nat.

(** ** State, undefined behaviour and torn writes *)

(** A frame of which a ring buffer took part of a float: the state in
    which the writing loop reached the frame, the number of the frame, and
    the bytes of the float that ring channel B and ring channel A took. *)
Record torn_write := {
  torn_world : world;
  torn_frame : Z;
  torn_b : Z;
  torn_a : Z
}.

(** What a run ends with: a value and the state reached; [Fault], where C
    leaves the behaviour undefined; or [Torn], where a ring buffer is left
    with part of a float, which is as far as the model follows the run. *)
Inductive result (A : Type) :=
  | Done (a : A)
  | Fault
  | Torn (t : torn_write).
Arguments Done {A} a.
Arguments Fault {A}.
Arguments Torn {A} t.

Definition M (A : Type) : Type := world -> result (A * world).

Definition ret {A} (a : A) : M A := fun w => Done (a, w).

Definition bind {A B} (m : M A) (k : A -> M B) : M B :=
  fun w => match m w with
           | Done (a, w') => k a w'
           | Fault => Fault
           | Torn t => Torn t
           end.

Definition fault {A} : M A := fun _ => Fault.

Definition torn {A} (t : torn_write) : M A := fun _ => Torn t.

Notation "'do' x <- m ; k" := (bind m (fun x => k))
  (at level 10, x name, m at level 100, k at level 200,
   format "'[v' 'do'  x  <-  m ; '/' k ']'").
Notation "'run' m ; k" := (bind m (fun _ => k))
  (at level 10, m at level 100, k at level 200,
   format "'[v' 'run'  m ; '/' k ']'").

Definition get_world : M world := fun w => Done (w, w).

Definition when (b : bool) (m : M unit) : M unit := if b then m else ret tt.

(** [*pPlayer]: the player a non-null pointer refers to. *)
Definition deref (i : nat) : M AUDIO_PLAYER :=
  fun w => match g_players w !! i with
           | Some (Some p) => Done (p, w)
           | _ => Fault
           end.

(** An assignment through the pointer. *)
Definition store (i : nat) (f : AUDIO_PLAYER -> AUDIO_PLAYER) : M unit :=
  fun w => match g_players w !! i with
           | Some (Some p) =>
               Done (tt, w <| g_players := <[i := Some (f p)]> (g_players w) |>)
           | _ => Fault
           end.

(** One call of [cb_fn], when it is set. *)
Definition notify_cb (p : AUDIO_PLAYER) (kind : notify) (value : float) : M unit :=
  fun w => if cb_fn p =? 0 then Done (tt, w)
           else Done (tt, w <| cb_log := cb_log w ++ [(cb_object p, kind, value)] |>).

(** ** The registry *)

(** [get_player].  The array has [MAX_PLAYERS] elements; the index
    [MAX_PLAYERS] passes the range test and reads past the array. *)
Definition get_player (player_handle : Z) : M player_ptr :=
  fun w =>
    if (player_handle >? MAX_PLAYERS) || (player_handle <? 0) then Done (None, w)
    else if player_handle <? MAX_PLAYERS then
      match g_players w !! Z.to_nat player_handle with
      | Some (Some _) => Done (Some (Z.to_nat player_handle), w)
      | _ => Done (None, w)
      end
    else Fault.

(** [get_player_count].  The test of the loop is on the array [g_players]
    itself, whose address is never null. *)
Definition g_players_nonnull (w : world) : bool := true.

Definition get_player_count (w : world) : Z :=
  fold_left (fun count (i : Z) => if g_players_nonnull w then count + 1 else count)
            (seqZ 0 MAX_PLAYERS) 0.

(** The number of slots that hold a player. *)
Definition live_players (w : world) : Z :=
  Z.of_nat (length (filter (fun slot => is_Some slot) (g_players w))).

(** ** Control surface: queries used by the notifications *)

Definition get_duration (player_handle : Z) : M Q :=
  do pPlayer <- get_player player_handle;
  match pPlayer with
  | Some i =>
      do p <- deref i;
      if (file_open p =? 2) && negb (sf.samplerate (sf_info p) =? 0)
      then ret (inject_Z (sf.frames (sf_info p)) / inject_Z (sf.samplerate (sf_info p)))%Q
      else ret 0%Q
  | None => ret 0%Q
  end.

Definition get_position (player_handle : Z) : M Q :=
  do pPlayer <- get_player player_handle;
  match pPlayer with
  | Some i =>
      do p <- deref i;
      if (file_open p =? 2) && negb (sf.samplerate (sf_info p) =? 0)
      then ret (src_ratio_inv p * inject_Z (play_pos_frames p)
                / inject_Z (sf.samplerate (sf_info p)))%Q
      else ret 0%Q
  | None => ret 0%Q
  end.

(** ** Notifications *)

(** [param == NOTIFY_ALL || param == kind] *)
Definition selects (param kind : notify) : bool :=
  bool_decide (param = NOTIFY_ALL) || bool_decide (param = kind).

Definition send_notifications (pPlayer : player_ptr) (param : notify) : M unit :=
  match pPlayer with
  | None => ret tt
  | Some i =>
    do p <- deref i;
    if negb (file_open p =? 2) then ret tt else
    run (do p <- deref i;
         when (selects param NOTIFY_TRANSPORT
               && negb (last_play_state p =? playState_code (play_state p)))
           (run store i (fun p => p <| last_play_state := playState_code (play_state p) |>);
            do p <- deref i;
            notify_cb p NOTIFY_TRANSPORT (inject_Z (playState_code (play_state p)))));
    run (when (selects param NOTIFY_POSITION)
           (do p <- deref i;
            do pos <- get_position (handle p);
            when (Qle_bool (1 # 10) (Qabs (pos - last_position p)))
              (do p <- deref i;
               do pos <- get_position (handle p);
               run store i (fun p => p <| last_position := pos |>);
               do p <- deref i;
               notify_cb p NOTIFY_POSITION (last_position p))));
    run (do p <- deref i;
         when (selects param NOTIFY_GAIN
               && fge (fabs (fsub (gain p) (last_gain p))) (1 # 100)%Q)
           (run store i (fun p => p <| last_gain := gain p |>);
            do p <- deref i;
            notify_cb p NOTIFY_GAIN (gain p)));
    run (do p <- deref i;
         when (selects param NOTIFY_LOOP && negb (loop p =? last_loop p))
           (run store i (fun p => p <| last_loop := loop p |>);
            do p <- deref i;
            notify_cb p NOTIFY_LOOP (inject_Z (loop p))));
    run (do p <- deref i;
         when (selects param NOTIFY_TRACK_A && negb (track_a p =? last_track_a p))
           (run store i (fun p => p <| last_track_a := track_a p |>);
            do p <- deref i;
            notify_cb p NOTIFY_TRACK_A (inject_Z (track_a p))));
    run (do p <- deref i;
         when (selects param NOTIFY_TRACK_B && negb (track_b p =? last_track_b p))
           (run store i (fun p => p <| last_track_b := track_b p |>);
            do p <- deref i;
            notify_cb p NOTIFY_TRACK_B (inject_Z (track_b p))));
    run (do p <- deref i;
         when (selects param NOTIFY_QUALITY
               && negb (src_quality p =? last_src_quality p))
           (run store i (fun p => p <| last_src_quality := src_quality p |>);
            do p <- deref i;
            notify_cb p NOTIFY_QUALITY (inject_Z (src_quality p))));
    do w <- get_world;
    when (selects param NOTIFY_DEBUG && negb (g_debug w =? g_last_debug w))
      (run (fun w => Done (tt, w <| g_last_debug := g_debug w |>));
       do p <- deref i;
       do w <- get_world;
       notify_cb p NOTIFY_DEBUG (inject_Z (g_debug w)))
  end.

(** ** Control surface: transport, position, loop *)

(** The conversion of a [double] to [jack_nframes_t]: undefined when the
    truncated value does not fit 32 bits. *)
Definition double_to_u32 (x : Q) : M Z :=
  let z := Qtruncate x in
  if (0 <=? z) && (z <? 2 ^ 32) then ret z else fault.

Definition set_position (player_handle : Z) (time : Q) : M unit :=
  do pPlayer <- get_player player_handle;
  match pPlayer with
  | None => ret tt
  | Some i =>
    do p <- deref i;
    if negb (file_open p =? 2) then ret tt else
    do duration <- get_duration player_handle;
    do time <- (if Qle_bool duration time then get_duration player_handle
                else ret time);
    do p <- deref i;
    let frames0 := (src_ratio p * time * inject_Z (sf.samplerate (sf_info p)))%Q in
    let frames1 := if Qle_bool (inject_Z (frames p)) frames0
                   then inject_Z ((frames p - 1) mod 2 ^ 64)
                   else frames0 in
    do pos <- double_to_u32 frames1;
    run store i (fun p => p <| play_pos_frames := pos |>);
    run store i (fun p => p <| file_read_status := SEEKING |>);
    run store i (fun p => p <| ringbuffer_b := jack_ringbuffer_reset (ringbuffer_b p) |>);
    store i (fun p => p <| ringbuffer_a := jack_ringbuffer_reset (ringbuffer_a p) |>)
  end.

Definition enable_loop (player_handle : Z) (bLoop : Z) : M unit :=
  do pPlayer <- get_player player_handle;
  match pPlayer with
  | None => ret tt
  | Some i =>
    run store i (fun p => p <| loop := bLoop |>);
    do p <- deref i;
    run when (negb (file_open p =? 2) && negb (bLoop =? 0)
              && bool_decide (file_read_status p = IDLE))
          (store i (fun p => p <| file_read_status := LOOPING |>));
    send_notifications pPlayer NOTIFY_LOOP
  end.

Definition is_loop (player_handle : Z) : M Z :=
  do pPlayer <- get_player player_handle;
  match pPlayer with
  | None => ret 0
  | Some i => do p <- deref i;
              if negb (file_open p =? 2) then ret 0 else ret (loop p)
  end.

Definition start_playback (player_handle : Z) : M unit :=
  do pPlayer <- get_player player_handle;
  run match pPlayer with
      | None => ret tt
      | Some i =>
        do p <- deref i;
        when (negb (jack_client p =? 0) && (file_open p =? 2)
              && negb (bool_decide (play_state p = PLAYING)))
          (store i (fun p => p <| play_state := STARTING |>))
      end;
  send_notifications pPlayer NOTIFY_TRANSPORT.

Definition stop_playback (player_handle : Z) : M unit :=
  do pPlayer <- get_player player_handle;
  run match pPlayer with
      | None => ret tt
      | Some i =>
        do p <- deref i;
        when (negb (bool_decide (play_state p = STOPPED)))
          (store i (fun p => p <| play_state := STOPPING |>))
      end;
  send_notifications pPlayer NOTIFY_TRANSPORT.

Definition get_playback_state (player_handle : Z) : M playState :=
  do pPlayer <- get_player player_handle;
  match pPlayer with
  | None => ret STOPPED
  | Some i => do p <- deref i;
              if negb (file_open p =? 2) then ret STOPPED else ret (play_state p)
  end.

(** ** Control surface: quality, gain, tracks, buffers *)

Definition set_src_quality (player_handle : Z) (quality : Z) : M Z :=
  do pPlayer <- get_player player_handle;
  match pPlayer with
  | None => ret 0
  | Some i =>
    do p <- deref i;
    if negb (file_open p =? 2) then ret 0 else
    if quality >? SRC_LINEAR then ret 0 else
    run store i (fun p => p <| src_quality := quality |>);
    run send_notifications pPlayer NOTIFY_QUALITY;
    ret 1
  end.

Definition get_src_quality (player_handle : Z) : M Z :=
  do pPlayer <- get_player player_handle;
  match pPlayer with
  | None => ret 2
  | Some i => do p <- deref i;
              if negb (file_open p =? 2) then ret 2 else ret (src_quality p)
  end.

Definition set_gain (player_handle : Z) (gain' : float) : M unit :=
  do pPlayer <- get_player player_handle;
  match pPlayer with
  | None => ret tt
  | Some i =>
    do p <- deref i;
    if negb (file_open p =? 2) then ret tt else
    if flt gain' 0%Q || flt 2%Q gain' then ret tt else
    run store i (fun p => p <| gain := gain' |>);
    send_notifications pPlayer NOTIFY_GAIN
  end.

Definition get_gain (player_handle : Z) : M float :=
  do pPlayer <- get_player player_handle;
  match pPlayer with
  | None => ret (Num 0)
  | Some i => do p <- deref i;
              if negb (file_open p =? 2) then ret (Num 0) else ret (gain p)
  end.

Definition set_track_a (player_handle : Z) (track : Z) : M unit :=
  do pPlayer <- get_player player_handle;
  match pPlayer with
  | None => ret tt
  | Some i =>
    do p <- deref i;
    if negb (file_open p =? 2) then ret tt else
    run when ((file_open p =? 2) && (track <? sf.channels (sf_info p)))
          (if sf.channels (sf_info p) =? 1
           then store i (fun p => p <| track_a := 0 |>)
           else store i (fun p => p <| track_a := track |>));
    do pos <- get_position player_handle;
    run set_position player_handle pos;
    send_notifications pPlayer NOTIFY_TRACK_A
  end.

Definition set_track_b (player_handle : Z) (track : Z) : M unit :=
  do pPlayer <- get_player player_handle;
  match pPlayer with
  | None => ret tt
  | Some i =>
    do p <- deref i;
    if negb (file_open p =? 2) then ret tt else
    run when ((file_open p =? 2) && (track <? sf.channels (sf_info p)))
          (if sf.channels (sf_info p) =? 1
           then store i (fun p => p <| track_b := 0 |>)
           else store i (fun p => p <| track_b := track |>));
    do pos <- get_position player_handle;
    run set_position player_handle pos;
    send_notifications pPlayer NOTIFY_TRACK_B
  end.

Definition get_track_a (player_handle : Z) : M Z :=
  do pPlayer <- get_player player_handle;
  match pPlayer with
  | None => ret 0
  | Some i => do p <- deref i;
              if negb (file_open p =? 2) then ret 0 else ret (track_a p)
  end.

Definition get_track_b (player_handle : Z) : M Z :=
  do pPlayer <- get_player player_handle;
  match pPlayer with
  | None => ret 0
  | Some i => do p <- deref i;
              if negb (file_open p =? 2) then ret 0 else ret (track_b p)
  end.

Definition set_buffer_size (player_handle : Z) (size : Z) : M unit :=
  do pPlayer <- get_player player_handle;
  match pPlayer with
  | None => ret tt
  | Some i => do p <- deref i;
              when (file_open p =? 0) (store i (fun p => p <| buffer_size := size |>))
  end.

Definition get_buffer_size (player_handle : Z) : M Z :=
  do pPlayer <- get_player player_handle;
  match pPlayer with
  | None => ret 0
  | Some i => do p <- deref i; ret (buffer_size p)
  end.

Definition set_buffer_count (player_handle : Z) (count : Z) : M unit :=
  do pPlayer <- get_player player_handle;
  match pPlayer with
  | None => ret tt
  | Some i => do p <- deref i;
              when ((file_open p =? 0) && (count >? 1))
                (store i (fun p => p <| buffer_count := count |>))
  end.

Definition get_buffer_count (player_handle : Z) : M Z :=
  do pPlayer <- get_player player_handle;
  match pPlayer with
  | None => ret 0
  | Some i => do p <- deref i; ret (buffer_count p)
  end.

(** ** The JACK process callback *)

(** A MIDI event of the input port: the bytes [buffer[0..2]]. *)
Record jack_midi_event := {
  buffer0 : Z;
  buffer1 : Z;
  buffer2 : Z
}.

(** [jack_ringbuffer_read] stores the floats it read at the start of the
    port buffer. *)
Definition copy_in (data : list Q) (dest : list float) : list float :=
  map Num data ++ drop (length data) dest.

(** [for(size_t offset = 0; offset < count; ++offset) pOut[offset] = body] *)
Definition for_offsets (count : Z) (body : Z -> float -> float) (pOut : list float)
  : list float :=
  imap (fun offset x => if Z.of_nat offset <? count
                        then body (Z.of_nat offset) x else x) pOut.

(** [memset(pOut + count, 0, (nFrames - count) * sizeof(float))] *)
Definition memset_tail (count nFrames : Z) (pOut : list float) : list float :=
  imap (fun offset x => if (count <=? Z.of_nat offset) && (Z.of_nat offset <? nFrames)
                        then Num 0 else x) pOut.

(** The audio part of [on_jack_process], from the transition out of
    [STARTING] to the silencing of the remainder of the period.  The result
    is the contents of the two port buffers. *)
Definition on_jack_process_audio (i : nat) (nFrames : Z) (pOutA pOutB : list float)
  : M (list float * list float) :=
  do p <- deref i;
  run when (bool_decide (play_state p = STARTING)
            && negb (bool_decide (file_read_status p = SEEKING)))
        (store i (fun p => p <| play_state := PLAYING |>));
  do p <- deref i;
  do r <- (if bool_decide (play_state p = PLAYING) || bool_decide (play_state p = STOPPING)
           then
             let '(count, dataA, rbA) :=
               jack_ringbuffer_read (ringbuffer_a p) (nFrames * sizeof_float) in
             run store i (fun p => p <| ringbuffer_a := rbA |>);
             do p <- deref i;
             let '(_, dataB, rbB) := jack_ringbuffer_read (ringbuffer_b p) count in
             run store i (fun p => p <| ringbuffer_b := rbB |>);
             do p <- deref i;
             ret (count, copy_in dataA pOutA, copy_in dataB pOutB,
                  bool_decide (file_read_status p = IDLE)
                  && (jack_ringbuffer_read_space (ringbuffer_a p) =? 0))
           else ret (0, pOutA, pOutB, false));
  let '(count, pOutA, pOutB, eof) := r in
  let count := count / sizeof_float in
  do p <- deref i;
  let pOutA := for_offsets count (fun _ x => fmul x (gain p)) pOutA in
  let pOutB := for_offsets count (fun _ x => fmul x (gain p)) pOutB in
  run store i (fun p => p <| play_pos_frames := (play_pos_frames p + count) mod 2 ^ 32 |>);
  do p <- deref i;
  run (if frames p <=? play_pos_frames p
       then if frames p =? 0 then fault
            else store i (fun p => p <| play_pos_frames := play_pos_frames p mod frames p |>)
       else ret tt);
  do p <- deref i;
  do out <- (if bool_decide (play_state p = STOPPING)
                || (bool_decide (play_state p = PLAYING) && eof)
             then
               let fade offset x :=
                 fmul x (1 - inject_Z offset / inject_Z count)%Q in
               run store i (fun p => p <| play_state := STOPPED |>);
               run when eof
                     (run store i (fun p => p <| play_pos_frames := 0 |>);
                      store i (fun p => p <| file_read_status := SEEKING |>));
               ret (for_offsets count fade pOutA, for_offsets count fade pOutB)
             else ret (pOutA, pOutB));
  ret (memset_tail count nFrames (fst out), memset_tail count nFrames (snd out)).

(** The callback up to and including its first read, that of ring channel
    A: the state another thread finds when it runs between the two reads. *)
Definition on_jack_process_read_a (nFrames : Z) (arg : player_ptr) : M unit :=
  match arg with
  | None => ret tt
  | Some i =>
    do p <- deref i;
    if negb (file_open p =? 2) then ret tt else
    run when (bool_decide (play_state p = STARTING)
              && negb (bool_decide (file_read_status p = SEEKING)))
          (store i (fun p => p <| play_state := PLAYING |>));
    do p <- deref i;
    when (bool_decide (play_state p = PLAYING) || bool_decide (play_state p = STOPPING))
      (let '(_, _, rbA) :=
         jack_ringbuffer_read (ringbuffer_a p) (nFrames * sizeof_float) in
       store i (fun p => p <| ringbuffer_a := rbA |>))
  end.

(** The body of the loop over the MIDI events of the period. *)
Definition on_jack_process_midi (i : nat) (midiEvent : jack_midi_event) : M unit :=
  do p <- deref i;
  let cmd := Z.land (buffer0 midiEvent) 0xF0 in
  if ((cmd =? 0x80) || ((cmd =? 0x90) && (buffer2 midiEvent =? 0)))
     && (last_note_played p =? buffer1 midiEvent)
  then
    run stop_playback (handle p);
    run store i (fun p => p <| pitch_shift := 0 |>);
    store i (fun p => p <| last_note_played := 0 |>)
  else if cmd =? 0x90 then
    run stop_playback (handle p);
    run store i (fun p => p <| pitch_shift := 60 - buffer1 midiEvent |>);
    do p <- deref i;
    run set_position (handle p) 0%Q;
    do p <- deref i;
    run start_playback (handle p);
    store i (fun p => p <| last_note_played := buffer1 midiEvent |>)
  else if cmd =? 0xE0 then
    store i (fun p => p <| pitch_bend := buffer1 midiEvent + 128 * buffer2 midiEvent |>)
  else ret tt.

Fixpoint for_midi_events (i : nat) (events : list jack_midi_event) : M unit :=
  match events with
  | [] => ret tt
  | midiEvent :: events' =>
      run on_jack_process_midi i midiEvent;
      for_midi_events i events'
  end.

(** [on_jack_process].  [pOutA] and [pOutB] are the port buffers as JACK
    hands them over, [events] the contents of the MIDI input port. *)
Definition on_jack_process (nFrames : Z) (arg : player_ptr) (pOutA pOutB : list float)
    (events : list jack_midi_event) : M (list float * list float) :=
  match arg with
  | None => ret (pOutA, pOutB)
  | Some i =>
    do p <- deref i;
    if negb (file_open p =? 2) then ret (pOutA, pOutB) else
    do out <- on_jack_process_audio i nFrames pOutA pOutB;
    run for_midi_events i events;
    ret out
  end.

(** ** The file reader thread: from converted block to ring buffers *)

(** [pBufferOut[k]] *)
Definition at_index (pBufferOut : list Q) (k : Z) : Q :=
  default 0%Q (pBufferOut !! Z.to_nat k).

(** [for(int track = 0; cond; track += 2) acc = body] *)
Fixpoint for_tracks (fuel : nat) (cond : Z -> bool) (body : Z -> Q -> Q)
    (track : Z) (acc : Q) : Q :=
  match fuel with
  | O => acc
  | S fuel' => if cond track
               then for_tracks fuel' cond body (track + 2) (body track acc)
               else acc
  end.

(** The values [fA] and [fB] computed for one frame of the block. *)
Definition demux (p : AUDIO_PLAYER) (pBufferOut : list Q) (frame : Z) : Q * Q :=
  let channels := sf.channels (sf_info p) in
  let sample := frame * channels in
  if channels >? 1 then
    ((if track_a p <? 0
      then for_tracks (Z.to_nat channels) (fun track => track <? channels)
             (fun track fA =>
                fA + at_index pBufferOut (sample + track) / inject_Z (channels ÷ 2))%Q
             0 0%Q
      else at_index pBufferOut (sample + track_a p)),
     (if track_b p <? 0
      then for_tracks (Z.to_nat channels) (fun track => track + 1 <? channels)
             (fun track fB =>
                fB + at_index pBufferOut (sample + track + 1) / inject_Z (channels ÷ 2))%Q
             0 0%Q
      else at_index pBufferOut (sample + track_b p)))
  else
    ((at_index pBufferOut sample / 2)%Q, (at_index pBufferOut sample / 2)%Q).

(** The loop that writes the frames of the block to the ring buffers.  A
    frame of which one of the two writes stores part of a float ends the
    run as [Torn]. *)
Fixpoint write_frames (todo : nat) (frame : Z) (i : nat) (pBufferOut : list Q)
  : M unit :=
  match todo with
  | O => ret tt
  | S todo' =>
    do w <- get_world;
    do p <- deref i;
    let '(fA, fB) := demux p pBufferOut frame in
    let '(nWrote, rbB) := jack_ringbuffer_write (ringbuffer_b p) fB sizeof_float in
    let '(nWroteA, rbA) := jack_ringbuffer_write (ringbuffer_a p) fA nWrote in
    match rbB, rbA with
    | Some rbB, Some rbA =>
      run store i (fun p => p <| ringbuffer_b := rbB |>);
      run store i (fun p => p <| ringbuffer_a := rbA |>);
      if sizeof_float <? nWroteA then ret tt
      else write_frames todo' (frame + 1) i pBufferOut
    | _, _ =>
      torn {| torn_world := w; torn_frame := frame;
              torn_b := nWrote; torn_a := nWroteA |}
    end
  end.

(** The wait for space.  [others] lists, sleep by sleep, what the other
    threads do to the state while this thread is in [usleep]; the result is
    the number of sleeps after which the loop was left, or [None] when the
    thread is still waiting at the end of [others]. *)
Fixpoint wait_for_space (others : list (M unit)) (i : nat) (nFramesRead : Z)
    (sleeps : nat) : M (option nat) :=
  do p <- deref i;
  if (jack_ringbuffer_write_space (ringbuffer_a p) <? nFramesRead * sizeof_float)
     && (jack_ringbuffer_write_space (ringbuffer_b p) <? nFramesRead * sizeof_float)
  then
    match others with
    | [] => ret None
    | other :: others' =>
      run send_notifications (Some i) NOTIFY_ALL;
      run other;
      do p <- deref i;
      if file_open p =? 0 then ret (Some (S sleeps))
      else wait_for_space others' i nFramesRead (S sleeps)
    end
  else ret (Some sleeps).

(** The end of the loading step of [file_thread_fn]: wait, then write the
    [nFramesRead] frames of [pBufferOut]. *)
Definition file_thread_fn_write (others : list (M unit)) (i : nat)
    (nFramesRead : Z) (pBufferOut : list Q) : M (option nat) :=
  do sleeps <- wait_for_space others i nFramesRead 0%nat;
  match sleeps with
  | None => ret None
  | Some n =>
    do p <- deref i;
    run when ((file_open p =? 2) && bool_decide (file_read_status p = LOADING))
          (write_frames (Z.to_nat nFramesRead) 0 i pBufferOut);
    ret (Some n)
  end.

(** ** Notions used to state the properties *)

(** The player a handle other than [MAX_PLAYERS] denotes, if any: what the
    pointer returned by [get_player] refers to. *)
Definition player_at (h : Z) (w : world) : option AUDIO_PLAYER :=
  if (0 <=? h) && (h <? MAX_PLAYERS)
  then match g_players w !! Z.to_nat h with
       | Some (Some p) => Some p
       | _ => None
       end
  else None.

(** The steps of the render callback in the words of the spec: the
    transport state once [STARTING] has been resolved, whether the callback
    drains the ring channels, the number of frames it drains, the
    end-of-input flag, and whether it stops the transport. *)
Definition transport_after_start (p : AUDIO_PLAYER) : playState :=
  if bool_decide (play_state p = STARTING)
     && negb (bool_decide (file_read_status p = SEEKING))
  then PLAYING else play_state p.

Definition draining (p : AUDIO_PLAYER) : bool :=
  bool_decide (transport_after_start p = PLAYING)
  || bool_decide (transport_after_start p = STOPPING).

Definition frames_drained (nFrames : Z) (p : AUDIO_PLAYER) : Z :=
  if draining p
  then Z.min nFrames (Z.of_nat (length (rb_buf (ringbuffer_a p))))
  else 0.

Definition end_of_input (nFrames : Z) (p : AUDIO_PLAYER) : bool :=
  draining p && bool_decide (file_read_status p = IDLE)
  && (Z.of_nat (length (rb_buf (ringbuffer_a p))) <=? nFrames).

Definition stops (nFrames : Z) (p : AUDIO_PLAYER) : bool :=
  bool_decide (transport_after_start p = STOPPING)
  || (bool_decide (transport_after_start p = PLAYING) && end_of_input nFrames p).

(** The linear ramp of the fade over [count] frames, at frame [offset]. *)
Definition ramp (count offset : Z) : Q := (1 - inject_Z offset / inject_Z count)%Q.

(** The player after the audio part of the callback, as the spec describes
    it: the transport is [STOPPED] when the callback stops it and otherwise
    what the start step left; the drained frames are gone from both ring
    channels; the play position has advanced by the frames drained, in 32-bit
    arithmetic, and is reduced modulo the frame count; at end of input the
    position is 0 and the read status [SEEKING]. *)
Definition render_state (nFrames : Z) (p : AUDIO_PLAYER) : AUDIO_PLAYER :=
  let d := frames_drained nFrames p in
  let dB := Z.min d (Z.of_nat (length (rb_buf (ringbuffer_b p)))) in
  p <| play_state := if stops nFrames p then STOPPED else transport_after_start p |>
    <| ringbuffer_a :=
         (ringbuffer_a p) <| rb_buf := drop (Z.to_nat d) (rb_buf (ringbuffer_a p)) |> |>
    <| ringbuffer_b :=
         (ringbuffer_b p) <| rb_buf := drop (Z.to_nat dB) (rb_buf (ringbuffer_b p)) |> |>
    <| play_pos_frames := if end_of_input nFrames p then 0
                          else ((play_pos_frames p + d) mod 2 ^ 32) mod frames p |>
    <| file_read_status := if end_of_input nFrames p then SEEKING
                           else file_read_status p |>.

(** One port buffer after the audio part: the floats read from [ring] over
    the start of the buffer, the first [frames_drained] entries scaled by the
    gain and, when the transport stops, by the ramp, the rest of the period
    zeroed. *)
Definition render_output (nFrames : Z) (p : AUDIO_PLAYER) (ring : list Q)
    (pOut : list float) : list float :=
  let d := frames_drained nFrames p in
  let k := Z.min d (Z.of_nat (length ring)) in
  let scaled := for_offsets d (fun _ x => fmul x (gain p))
                  (copy_in (take (Z.to_nat k) ring) pOut) in
  memset_tail d nFrames
    (if stops nFrames p
     then for_offsets d (fun offset x => fmul x (ramp d offset)) scaled
     else scaled).

(** What the MIDI events of a period leave alone in a player. *)
Definition same_file (p p' : AUDIO_PLAYER) : Prop :=
  handle p' = handle p /\ jack_client p' = jack_client p
  /\ file_open p' = file_open p /\ frames p' = frames p
  /\ sf_info p' = sf_info p.

(** The downmix rule in the words of the spec: the samples of one frame,
    those at even and at odd channel indices, and the average of a list of
    samples. *)
Definition frame_samples (p : AUDIO_PLAYER) (pBufferOut : list Q) (frame : Z) : list Q :=
  map (at_index pBufferOut)
      (seqZ (frame * sf.channels (sf_info p)) (sf.channels (sf_info p))).

Fixpoint even_indexed {A} (l : list A) : list A :=
  match l with
  | [] => []
  | x :: l' => x :: match l' with
                    | [] => []
                    | _ :: l'' => even_indexed l''
                    end
  end.

Definition odd_indexed {A} (l : list A) : list A := even_indexed (tail l).

Definition Qsum (l : list Q) : Q := fold_right Qplus 0%Q l.

(** The indices [track], [track + 2], ... visited by [n] rounds of a loop
    over every second track. *)
Fixpoint every_second (track : Z) (n : nat) : list Z :=
  match n with
  | O => []
  | S n' => track :: every_second (track + 2) n'
  end.

Definition average (l : list Q) : Q :=
  (Qsum l / inject_Z (Z.of_nat (length l)))%Q.

(** ** Example states *)

Definition no_file : sf.info :=
  {| sf.frames := 0; sf.samplerate := 0; sf.channels := 0; sf.format := 0 |}.

Definition no_ring : jack_ringbuffer := {| rb_buf := []; rb_size := 0 |}.

(** A player as [init] sets it up; the fields [init] leaves unset are zero. *)
Definition init_player (player_handle : Z) : AUDIO_PLAYER :=
  {| handle := player_handle; jack_client := 1; file_open := 0;
     file_read_status := IDLE; play_state := STOPPED; loop := 0; gain := 1%Q;
     track_a := 0; track_b := 0; buffer_size := 48000; buffer_count := 5;
     src_quality := 2; last_play_state := 0; last_loop := 0;
     last_position := 0; last_gain := 0%Q; last_track_a := 0; last_track_b := 0;
     last_buffer_size := 0; last_buffer_count := 0; last_src_quality := 0;
     sf_info := no_file; ringbuffer_a := no_ring; ringbuffer_b := no_ring;
     play_pos_frames := 0; frames := 0; filename := ""; last_note_played := 0;
     src_ratio := 0; src_ratio_inv := 0; pitch_shift := 0; pitch_bend := 0;
     cb_object := 0; cb_fn := 0 |}.

(** The same player once the file thread has opened a file of [nframes]
    frames and [nchannels] channels at the JACK rate of 48000, with the ring
    buffers, created for 5 blocks of 48000 floats, holding [a] and [b], in
    transport state [st] and read status [rs]. *)
Definition open_player (player_handle nframes nchannels : Z) (st : playState)
    (rs : seekState) (a b : list Q) : AUDIO_PLAYER :=
  {| handle := player_handle; jack_client := 1; file_open := 2;
     file_read_status := rs; play_state := st; loop := 0; gain := 1%Q;
     track_a := 0; track_b := 0; buffer_size := 48000; buffer_count := 5;
     src_quality := 2; last_play_state := 255; last_loop := 0;
     last_position := -1; last_gain := 0%Q; last_track_a := 0; last_track_b := 0;
     last_buffer_size := 0; last_buffer_count := 0; last_src_quality := 0;
     sf_info := {| sf.frames := nframes; sf.samplerate := 48000;
                   sf.channels := nchannels; sf.format := 0 |};
     ringbuffer_a := (jack_ringbuffer_create (48000 * 5 * sizeof_float)) <| rb_buf := a |>;
     ringbuffer_b := (jack_ringbuffer_create (48000 * 5 * sizeof_float)) <| rb_buf := b |>;
     play_pos_frames := 0; frames := nframes; filename := "a.wav";
     last_note_played := 0; src_ratio := 1; src_ratio_inv := 1;
     pitch_shift := 0; pitch_bend := 8192; cb_object := 0; cb_fn := 0 |}.

(** A player with an open file of three channels, both track selectors
    at -1, as [set_track_a] and [set_track_b] leave them when asked for the
    mix. *)
Definition three_channel_player : AUDIO_PLAYER :=
  (open_player 0 48000 3 PLAYING LOADING [] []) <| track_a := -1 |> <| track_b := -1 |>.

(** A stereo file opened with [buffer_size] 4 and [buffer_count] 2, channel
    1 selected for output B: the file thread creates both ring buffers with
    [4 * 2 * sizeof(float)] bytes and reads the file in blocks of
    [buffer_size / channels], two frames. *)
Definition small_rings_player : AUDIO_PLAYER :=
  (open_player 0 48000 2 PLAYING LOADING [] [])
    <| track_b := 1 |> <| buffer_size := 4 |> <| buffer_count := 2 |>
    <| ringbuffer_a := jack_ringbuffer_create (4 * 2 * sizeof_float) |>
    <| ringbuffer_b := jack_ringbuffer_create (4 * 2 * sizeof_float) |>.

(** The same player with the ring buffers holding [a] and [b]. *)
Definition small_rings_holding (a b : list Q) : AUDIO_PLAYER :=
  small_rings_player
    <| ringbuffer_a := (jack_ringbuffer_create (4 * 2 * sizeof_float)) <| rb_buf := a |> |>
    <| ringbuffer_b := (jack_ringbuffer_create (4 * 2 * sizeof_float)) <| rb_buf := b |> |>.

(** The globals with the first slot of the registry holding [p]. *)
Definition world_with (p : AUDIO_PLAYER) : world :=
  {| g_players := Some p :: replicate 15 None; g_samplerate := 48000;
     g_debug := 0; g_last_debug := 0; cb_log := [] |}.

Definition empty_world : world :=
  {| g_players := replicate 16 None; g_samplerate := 48000;
     g_debug := 0; g_last_debug := 0; cb_log := [] |}.

(** ** Further assignments of the source *)

#[global] Instance upd_handle : Setter handle := ltac:(setter AUDIO_PLAYER Z handle).
#[global] Instance upd_jack_client : Setter jack_client := ltac:(setter AUDIO_PLAYER Z jack_client).
#[global] Instance upd_file_open : Setter file_open := ltac:(setter AUDIO_PLAYER Z file_open).
#[global] Instance upd_frames : Setter frames := ltac:(setter AUDIO_PLAYER Z frames).
#[global] Instance upd_filename : Setter filename := ltac:(setter AUDIO_PLAYER string filename).
#[global] Instance upd_cb_object : Setter cb_object := ltac:(setter AUDIO_PLAYER Z cb_object).
#[global] Instance upd_cb_fn : Setter cb_fn := ltac:(setter AUDIO_PLAYER Z cb_fn).
#[global] Arguments upd_handle _ !_ /.
#[global] Arguments upd_jack_client _ !_ /.
#[global] Arguments upd_file_open _ !_ /.
#[global] Arguments upd_frames _ !_ /.
#[global] Arguments upd_filename _ !_ /.
#[global] Arguments upd_cb_object _ !_ /.
#[global] Arguments upd_cb_fn _ !_ /.

#[global] Instance upd_g_samplerate : Setter g_samplerate := ltac:(setter world Z g_samplerate).
#[global] Instance upd_g_debug : Setter g_debug := ltac:(setter world Z g_debug).
#[global] Arguments upd_g_samplerate _ !_ /.
#[global] Arguments upd_g_debug _ !_ /.

(** ** Control surface: the file of a player *)

(** [save] is not implemented: it returns 0 on every path. *)
Definition save (player_handle : Z) (filename' : string) : M Z :=
  do pPlayer <- get_player player_handle;
  match pPlayer with
  | None => ret 0
  | Some i => do p <- deref i;
              if negb (file_open p =? 2) then ret 0 else ret 0
  end.

Definition get_filename (player_handle : Z) : M string :=
  do pPlayer <- get_player player_handle;
  match pPlayer with
  | None => ret EmptyString
  | Some i => do p <- deref i;
              if negb (file_open p =? 2) then ret EmptyString else ret (filename p)
  end.

(** The conversion of an unsigned 32-bit or a signed 64-bit value to the
    [int] that [get_samplerate] and [get_frames] return. *)
Definition to_int (x : Z) : Z := (x + 2 ^ 31) mod 2 ^ 32 - 2 ^ 31.

Definition get_samplerate (player_handle : Z) : M Z :=
  do pPlayer <- get_player player_handle;
  match pPlayer with
  | None => do w <- get_world; ret (to_int (g_samplerate w))
  | Some i => do p <- deref i;
              if negb (file_open p =? 2)
              then do w <- get_world; ret (to_int (g_samplerate w))
              else ret (sf.samplerate (sf_info p))
  end.

Definition get_channels (player_handle : Z) : M Z :=
  do pPlayer <- get_player player_handle;
  match pPlayer with
  | None => ret 0
  | Some i => do p <- deref i;
              if negb (file_open p =? 2) then ret 0 else ret (sf.channels (sf_info p))
  end.

Definition get_frames (player_handle : Z) : M Z :=
  do pPlayer <- get_player player_handle;
  match pPlayer with
  | None => ret 0
  | Some i => do p <- deref i;
              if negb (file_open p =? 2) then ret 0
              else ret (to_int (sf.frames (sf_info p)))
  end.

Definition get_format (player_handle : Z) : M Z :=
  do pPlayer <- get_player player_handle;
  match pPlayer with
  | None => ret 0
  | Some i => do p <- deref i;
              if negb (file_open p =? 2) then ret 0 else ret (sf.format (sf_info p))
  end.

(** ** Globals set by JACK and by the debug switch *)

Definition on_jack_samplerate (nFrames : Z) : M Z :=
  run (fun w => Done (tt, w <| g_samplerate := nFrames |>));
  ret 0.

(** [g_debug] is a [uint8_t]: the assignment keeps the low 8 bits of
    [enable]. *)
Definition enable_debug (enable : Z) : M unit :=
  fun w => Done (tt, w <| g_debug := enable mod 2 ^ 8 |>).

Definition is_debug : M Z :=
  do w <- get_world; ret (g_debug w).

(** ** Creating and removing player instances *)

(** [SRC_SINC_FASTEST] of libsamplerate's converter enumeration. *)
Definition SRC_SINC_FASTEST : Z := 2.

(** The answers of the JACK server to the calls [init] makes, in the order
    of the calls: the client, for the name asked for, and the three ports
    (pointers, 0 being [NULL]), the return code of [jack_activate], and the
    sample rate. *)
Record jack_server := {
  jack_client_open : string -> Z;
  jack_port_register_output_a : Z;
  jack_port_register_output_b : Z;
  jack_port_register_input : Z;
  jack_activate : Z;
  jack_get_sample_rate : Z
}.

(** The loop of [init] over the handles: the first handle whose slot is
    null. *)
Fixpoint first_free (handles : list Z) (w : world) : option Z :=
  match handles with
  | [] => None
  | player_handle :: handles' =>
      match g_players w !! Z.to_nat player_handle with
      | Some (Some _) => first_free handles' w
      | _ => Some player_handle
      end
  end.

(** The assignments of [init] to the new block. *)
Definition init_fields (player_handle : Z) (pPlayer : AUDIO_PLAYER) : AUDIO_PLAYER :=
  pPlayer <| file_open := 0 |> <| file_read_status := IDLE |>
          <| play_state := STOPPED |> <| loop := 0 |> <| play_pos_frames := 0 |>
          <| src_quality := SRC_SINC_FASTEST |> <| filename := EmptyString |>
          <| gain := Num 1 |> <| track_a := 0 |> <| last_track_a := 0 |>
          <| last_track_b := 0 |> <| track_b := 0 |> <| handle := player_handle |>
          <| buffer_size := 48000 |> <| buffer_count := 5 |> <| frames := 0 |>
          <| last_note_played := 0 |>.

(** The decimal digits of [n >= 0], in front of [digits]. *)
Fixpoint decimal (fuel : nat) (n : Z) (digits : string) : string :=
  match fuel with
  | O => digits
  | S fuel' =>
      let digits := String (ascii_of_nat (48 + Z.to_nat (n mod 10))) digits in
      if n / 10 =? 0 then digits else decimal fuel' (n / 10) digits
  end.

(** [count] zeros in front of [s]. *)
Fixpoint zeros (count : nat) (s : string) : string :=
  match count with
  | O => s
  | S count' => String "0" (zeros count' s)
  end.

(** The conversion [%03d] of an [int]: at least three characters, filled
    with zeros behind the sign. *)
Definition format_03d (n : Z) : string :=
  let digits := decimal 10 (Z.abs n) EmptyString in
  if n <? 0 then String "-" (zeros (2 - String.length digits) digits)
  else zeros (3 - String.length digits) digits.

(** [sizeof] of a [char] array initialised with the string [s]. *)
Definition sizeof_chars (s : string) : Z := Z.of_nat (String.length s) + 1.

(** The characters a format with conversions [%03d] gives for [n]. *)
Fixpoint formatted (format : string) (n : Z) : string :=
  match format with
  | String "%" (String "0" (String "3" (String "d" format'))) =>
      (format_03d n ++ formatted format' n)%string
  | String c format' => String c (formatted format' n)
  | EmptyString => EmptyString
  end.

(** [sprintf(dest, format, n)] for an array [dest] of [size] chars: the
    string written, which with its terminator has to fit into the array. *)
Definition sprintf (size : Z) (format : string) (n : Z) : M string :=
  let s := formatted format n in
  if sizeof_chars s <=? size then ret s else fault.

(** [init].  [malloc] is the block the allocator returns, with the contents
    it happens to have, or [None] for [NULL].  The result is the handle, or
    -1. *)
Definition init (jack : jack_server) (malloc : option AUDIO_PLAYER) : M Z :=
  do w <- get_world;
  match first_free (seqZ 0 MAX_PLAYERS) w with
  | None => ret (-1)
  | Some player_handle =>
    match malloc with
    | None => ret (-1)
    | Some mem =>
      let pPlayer := init_fields player_handle mem in
      let client_name := "audioplayer_xxx"%string in
      do client_name <- sprintf (sizeof_chars client_name) "audio_player_%03d"
                          player_handle;
      let pPlayer := pPlayer <| jack_client := jack_client_open jack client_name |> in
      if jack_client pPlayer =? 0 then ret (-1) else
      if jack_port_register_output_a jack =? 0 then ret (-1) else
      if jack_port_register_output_b jack =? 0 then ret (-1) else
      if jack_port_register_input jack =? 0 then ret (-1) else
      if negb (jack_activate jack =? 0) then ret (-1) else
      run (fun w => Done (tt, w <| g_players :=
                                     <[Z.to_nat player_handle := Some pPlayer]>
                                       (g_players w) |>));
      run (fun w => Done (tt, w <| g_samplerate := jack_get_sample_rate jack |>));
      ret player_handle
    end
  end.

(** The end of [file_thread_fn], after the loop: [closed] tells whether
    [sf_close] succeeded on an open file. *)
Definition file_thread_fn_exit (closed : bool) (p : AUDIO_PLAYER) : AUDIO_PLAYER :=
  let p := p <| play_state := STOPPED |> in
  let p := if closed then p <| filename := EmptyString |> else p in
  p <| play_pos_frames := 0 |> <| cb_fn := 0 |> <| cb_object := 0 |>.

(** [unload].  [pthread_join] returns when the file thread has ended;
    [joined] maps the player as [unload] has left it to the player as the
    thread leaves it. *)
Definition unload (joined : AUDIO_PLAYER -> AUDIO_PLAYER) (player_handle : Z) : M unit :=
  do pPlayer <- get_player player_handle;
  match pPlayer with
  | None => ret tt
  | Some i =>
    do p <- deref i;
    if file_open p =? 0 then ret tt else
    run stop_playback player_handle;
    run store i (fun p => p <| file_open := 0 |>);
    run store i joined;
    store i (fun p => p <| filename := EmptyString |>)
  end.

(** The loop of [remove_player] over the slots: the slots equal to
    [pPlayer] are set to [NULL], the others that hold a player are
    counted. *)
Fixpoint clear_slots (slots : list nat) (pPlayer : nat) (count : Z) : M Z :=
  match slots with
  | [] => ret count
  | i :: slots' =>
      run when (bool_decide (i = pPlayer))
            (fun w => Done (tt, w <| g_players := <[i := None]> (g_players w) |>));
      do w <- get_world;
      clear_slots slots' pPlayer
        (match g_players w !! i with
         | Some (Some _) => count + 1
         | _ => count
         end)
  end.

(** [for(int player_handle = 0; player_handle < MAX_PLAYERS; ++player_handle)] *)
Fixpoint for_handles (handles : list Z) (body : Z -> M unit) : M unit :=
  match handles with
  | [] => ret tt
  | player_handle :: handles' => run body player_handle; for_handles handles' body
  end.

(** [remove_player] and [end] call each other; [depth] bounds the nesting
    of the calls, and the model faults when the bound is used up. *)
Fixpoint remove_player_at (depth : nat) (joined : AUDIO_PLAYER -> AUDIO_PLAYER)
    (player_handle : Z) : M unit :=
  match depth with
  | O => fault
  | S depth' =>
    do pPlayer <- get_player player_handle;
    match pPlayer with
    | None => ret tt
    | Some i =>
      run unload joined player_handle;
      do count <- clear_slots (seq 0 (Z.to_nat MAX_PLAYERS)) i 0;
      when (count =? 0)
        (for_handles (seqZ 0 MAX_PLAYERS) (remove_player_at depth' joined))
    end
  end.

(** [end], called from a [remove_player] of nesting depth [depth]. *)
Definition end_at (depth : nat) (joined : AUDIO_PLAYER -> AUDIO_PLAYER) : M unit :=
  for_handles (seqZ 0 MAX_PLAYERS) (remove_player_at depth joined).

(** [remove_player] as called from outside, and [end].  After the player
    of a call is removed, a nested [end] finds the registry empty, so that
    its calls of [remove_player] return at once: two levels are all the
    source can use. *)
Definition remove_player (joined : AUDIO_PLAYER -> AUDIO_PLAYER) (player_handle : Z)
  : M unit :=
  remove_player_at 2 joined player_handle.

Definition end_ (joined : AUDIO_PLAYER -> AUDIO_PLAYER) : M unit :=
  end_at 2 joined.

(** ** Further notions used to state the properties *)

(** The notification shadows of a player: the fields [send_notifications]
    writes. *)
Definition with_shadows_of (q p : AUDIO_PLAYER) : AUDIO_PLAYER :=
  p <| last_play_state := last_play_state q |>
    <| last_position := last_position q |>
    <| last_gain := last_gain q |>
    <| last_loop := last_loop q |>
    <| last_track_a := last_track_a q |>
    <| last_track_b := last_track_b q |>
    <| last_src_quality := last_src_quality q |>.

(** Every slot of the registry holds a player. *)
Definition registry_full (w : world) : Prop :=
  forall i, (i < 16)%nat -> exists p, g_players w !! i = Some (Some p).

(** A JACK server at 48000 Hz that answers with success. *)
Definition jack_48k : jack_server :=
  {| jack_client_open := fun _ => 1; jack_port_register_output_a := 2;
     jack_port_register_output_b := 3; jack_port_register_input := 4;
     jack_activate := 0; jack_get_sample_rate := 48000 |}.

(** A step that, run on the player of slot [i], changes nothing but the
    notification shadows of that player, [g_last_debug] and the log of
    callback calls, and calls no callback when the player has none. *)
Definition updates_shadows (i : nat) (m : M unit) : Prop :=
  forall l sr dbg ldbg log p,
    (i < length l)%nat -> (i < 16)%nat -> handle p = Z.of_nat i ->
    exists p' ldbg' log',
      m (Build_world (<[i := Some p]> l) sr dbg ldbg log)
      = Done (tt, Build_world (<[i := Some p']> l) sr dbg ldbg' log')
      /\ p' = with_shadows_of p' p
      /\ (cb_fn p = 0 -> log' = log).

(** The player a handle denotes when its file is open. *)
Definition open_player_at (h : Z) (w : world) : option AUDIO_PLAYER :=
  match player_at h w with
  | Some p => if file_open p =? 2 then Some p else None
  | None => None
  end.

(** ** Reasoning about the state monad *)

#[local] Arguments bind : simpl never.
#[local] Arguments deref : simpl never.
#[local] Arguments store : simpl never.
#[local] Arguments get_player : simpl never.
#[local] Arguments notify_cb : simpl never.
#[local] Arguments send_notifications : simpl never.
#[local] Arguments get_duration : simpl never.
#[local] Arguments get_position : simpl never.
#[local] Arguments set_position : simpl never.
#[local] Arguments start_playback : simpl never.
#[local] Arguments stop_playback : simpl never.
#[local] Arguments double_to_u32 : simpl never.
#[local] Arguments on_jack_process : simpl never.
#[local] Arguments on_jack_process_audio : simpl never.
#[local] Arguments on_jack_process_midi : simpl never.
#[local] Arguments jack_ringbuffer_read : simpl never.
#[local] Arguments jack_ringbuffer_read_space : simpl never.
#[local] Arguments for_offsets : simpl never.
#[local] Arguments memset_tail : simpl never.
#[local] Arguments copy_in : simpl never.
#[local] Arguments Z.min : simpl never.
#[local] Arguments Z.to_nat : simpl never.
#[local] Arguments Z.of_nat : simpl never.
#[local] Arguments Qplus : simpl never.
#[local] Arguments Qminus : simpl never.
#[local] Arguments Qmult : simpl never.
#[local] Arguments Qdiv : simpl never.
#[local] Arguments Qabs : simpl never.
#[local] Arguments Qle_bool : simpl never.
#[local] Arguments inject_Z : simpl never.
#[local] Arguments Z.pow : simpl never.
#[local] Arguments Z.modulo : simpl never.
#[local] Arguments Z.div : simpl never.
#[local] Arguments Z.mul : simpl never.
#[local] Arguments Z.add : simpl never.
#[local] Arguments Z.sub : simpl never.
#[local] Arguments Z.land : simpl never.

Lemma bind_ret {A B} (a : A) (k : A -> M B) w : bind (ret a) k w = k a w.
Proof. reflexivity. Qed.

Lemma bind_assoc {A B C} (m : M A) (f : A -> M B) (k : B -> M C) w :
  bind (bind m f) k w = bind m (fun a => bind (f a) k) w.
Proof. unfold bind. destruct (m w) as [[a w']| |t]; reflexivity. Qed.

Lemma bind_Done {A B} (m : M A) (k : A -> M B) w a w' :
  m w = Done (a, w') -> bind m k w = k a w'.
Proof. intros H. unfold bind. by rewrite H. Qed.

Lemma bind_Torn {A B} (m : M A) (k : A -> M B) w t :
  m w = Torn t -> bind m k w = Torn t.
Proof. intros H. unfold bind. by rewrite H. Qed.

Lemma bind_ret_r {A} (m : M A) w : m w = bind m ret w.
Proof. unfold bind, ret. destruct (m w) as [[a w']| |t]; reflexivity. Qed.

(** Execution in a world whose slot [i] holds [p]. *)
Section Exec.
Context {A : Type}.
Variables (l : list (option AUDIO_PLAYER)) (sr dbg ldbg : Z).
Variables (i : nat).
Hypothesis Hi : (i < length l)%nat.

Local Abbreviation W q log := (Build_world (<[i := Some q]> l) sr dbg ldbg log).

Lemma exec_deref p log (k : AUDIO_PLAYER -> M A) :
  bind (deref i) k (W p log) = k p (W p log).
Proof. unfold bind, deref. cbn. by rewrite list_lookup_insert_eq. Qed.

Lemma exec_store p log f (k : unit -> M A) :
  bind (store i f) k (W p log) = k tt (W (f p) log).
Proof.
  unfold bind, store. cbn. rewrite list_lookup_insert_eq by done.
  by rewrite list_insert_insert_eq.
Qed.

Lemma exec_get_player p log h (k : player_ptr -> M A) :
  0 <= h < MAX_PLAYERS -> Z.to_nat h = i ->
  bind (get_player h) k (W p log) = k (Some i) (W p log).
Proof.
  intros Hh <-. unfold bind, get_player. cbn.
  replace (h >? MAX_PLAYERS) with false by lia.
  replace (h <? 0) with false by lia.
  replace (h <? MAX_PLAYERS) with true by lia. cbn.
  by rewrite list_lookup_insert_eq.
Qed.

Lemma exec_notify_cb p log q kind v (k : unit -> M A) :
  bind (notify_cb q kind v) k (W p log) =
  k tt (W p (if cb_fn q =? 0 then log else log ++ [(cb_object q, kind, v)])).
Proof. unfold bind, notify_cb. by destruct (cb_fn q =? 0). Qed.
End Exec.

(** Any world whose slot [i] holds [p] has the shape used above. *)
Lemma world_shape w i p :
  g_players w !! i = Some (Some p) ->
  w = Build_world (<[i := Some p]> (g_players w)) (g_samplerate w) (g_debug w)
        (g_last_debug w) (cb_log w)
  /\ (i < length (g_players w))%nat.
Proof.
  intros H. split; [|by eapply lookup_lt_Some].
  destruct w; cbn in *. by rewrite list_insert_id.
Qed.

Lemma bind_get_world {A} (k : world -> M A) w : bind get_world k w = k w w.
Proof. reflexivity. Qed.

Ltac eval_selects :=
  repeat match goal with
    | |- context [selects ?a ?b] =>
        let v := eval vm_compute in (selects a b) in
        change (selects a b) with v
    end.

Ltac eval_bool_decide :=
  repeat match goal with
    | |- context [bool_decide ?P] =>
        let v := eval vm_compute in (bool_decide P) in
        first [constr_eq v true | constr_eq v false];
        change (bool_decide P) with v
    end.

Ltac exec_step :=
  first [ rewrite bind_assoc
        | rewrite exec_deref by assumption
        | rewrite exec_store by assumption
        | rewrite exec_get_player by (assumption || lia)
        | rewrite exec_notify_cb by assumption
        | rewrite bind_get_world
        | rewrite bind_ret ].

Ltac exec := repeat (exec_step; cbn; eval_selects; eval_bool_decide; cbn).

(** ** The registry *)

Lemma get_player_rejects h w :
  h < 0 \/ MAX_PLAYERS < h -> get_player h w = Done (None, w).
Proof.
  intros H. unfold get_player.
  destruct (h >? MAX_PLAYERS) eqn:E1; [done|].
  destruct (h <? 0) eqn:E2; [done|]. lia.
Qed.

(** C3.  The handle 16 lies outside the slots 0..15 of the registry, but
    [get_player] does not reject it: the range test lets it pass and the
    lookup reads [g_players[16]], one element past the array.  The callers
    [set_gain], [get_gain], [get_position] and [set_position] inherit the
    fault. *)
Theorem get_player_reads_past_registry (w : world) (g : float) (t : Q) :
  get_player MAX_PLAYERS w = Fault
  /\ set_gain MAX_PLAYERS g w = Fault
  /\ get_gain MAX_PLAYERS w = Fault
  /\ get_position MAX_PLAYERS w = Fault
  /\ set_position MAX_PLAYERS t w = Fault.
Proof. repeat split; reflexivity. Qed.

(** Handles below 0 and above 16 are rejected, and the control surface
    then leaves the state alone and returns its default value. *)
Lemma rejected_handle_is_noop h w g t n :
  h < 0 \/ MAX_PLAYERS < h ->
  set_gain h g w = Done (tt, w)
  /\ get_gain h w = Done (Num 0, w)
  /\ get_position h w = Done (0%Q, w)
  /\ get_duration h w = Done (0%Q, w)
  /\ set_position h t w = Done (tt, w)
  /\ enable_loop h n w = Done (tt, w)
  /\ is_loop h w = Done (0, w)
  /\ start_playback h w = Done (tt, w)
  /\ stop_playback h w = Done (tt, w)
  /\ get_playback_state h w = Done (STOPPED, w)
  /\ set_src_quality h n w = Done (0, w)
  /\ get_src_quality h w = Done (2, w)
  /\ set_track_a h n w = Done (tt, w)
  /\ set_track_b h n w = Done (tt, w)
  /\ get_track_a h w = Done (0, w)
  /\ get_track_b h w = Done (0, w)
  /\ set_buffer_size h n w = Done (tt, w)
  /\ set_buffer_count h n w = Done (tt, w)
  /\ get_buffer_size h w = Done (0, w)
  /\ get_buffer_count h w = Done (0, w).
Proof.
  intros H. pose proof (get_player_rejects h w H) as E.
  repeat split;
    unfold set_gain, get_gain, get_position, get_duration, set_position,
      enable_loop, is_loop, start_playback, stop_playback, get_playback_state,
      set_src_quality, get_src_quality, set_track_a, set_track_b, get_track_a,
      get_track_b, set_buffer_size, set_buffer_count, get_buffer_size,
      get_buffer_count;
    rewrite ?bind_assoc; rewrite (bind_Done _ _ _ _ _ E); reflexivity.
Qed.

(** C10.  [get_player_count] returns [MAX_PLAYERS] for every state of the
    registry, whatever the number of slots that hold a player. *)
Theorem get_player_count_is_capacity :
  (forall w : world, get_player_count w = MAX_PLAYERS)
  /\ get_player_count empty_world = 16
  /\ live_players empty_world = 0
  /\ get_player_count (world_with (init_player 0)) = 16
  /\ live_players (world_with (init_player 0)) = 1.
Proof. repeat split; reflexivity. Qed.

(** ** Arithmetic of the position computation *)

Lemma Qtruncate_zero (x : Q) : (x == 0)%Q -> Qtruncate x = 0.
Proof.
  unfold Qeq, Qtruncate. cbn. intros H.
  replace (Qnum x) with 0 by lia. apply Z.quot_0_l. lia.
Qed.

Lemma Qle_bool_false_zero (n : Z) (x : Q) :
  0 < n -> (x == 0)%Q -> Qle_bool (inject_Z n) x = false.
Proof.
  intros Hn Hx. destruct (Qle_bool (inject_Z n) x) eqn:E; [|done].
  apply Qle_bool_iff in E. rewrite Hx in E.
  unfold Qle, inject_Z in E. cbn in E. lia.
Qed.

Lemma Qdiv_nonneg (a b : Z) :
  0 <= a -> 0 <= b -> (0 <= inject_Z a / inject_Z b)%Q.
Proof.
  intros Ha Hb. unfold Qdiv. apply Qmult_le_0_compat.
  - unfold Qle, inject_Z. cbn. lia.
  - apply Qinv_le_0_compat. unfold Qle, inject_Z. cbn. lia.
Qed.

Lemma Qmult_zero_mid (a t b : Q) : (t == 0)%Q -> (a * t * b == 0)%Q.
Proof. intros ->. ring. Qed.

(** ** Effects of the transport functions *)

Section Effects.
Variables (l : list (option AUDIO_PLAYER)) (sr dbg ldbg : Z) (i : nat).
Hypothesis Hi : (i < length l)%nat.

Local Abbreviation W q log := (Build_world (<[i := Some q]> l) sr dbg ldbg log).

Lemma send_notifications_transport p log :
  exists lps log',
    send_notifications (Some i) NOTIFY_TRANSPORT (W p log)
    = Done (tt, W (p <| last_play_state := lps |>) log').
Proof.
  unfold send_notifications. destruct p.
  rewrite exec_deref by assumption. cbn.
  destruct (file_open0 =? 2); cbn.
  2:{ eexists _, _. reflexivity. }
  exec.
  destruct (negb _); cbn; exec; eexists _, _; reflexivity.
Qed.

Lemma send_notifications_gain p log :
  exists lg log',
    send_notifications (Some i) NOTIFY_GAIN (W p log)
    = Done (tt, W (p <| last_gain := lg |>) log').
Proof.
  unfold send_notifications. destruct p.
  rewrite exec_deref by assumption. cbn.
  destruct (file_open0 =? 2); cbn.
  2:{ eexists _, _. reflexivity. }
  exec.
  destruct (fge _ _); cbn; exec; eexists _, _; reflexivity.
Qed.

Lemma stop_playback_exec p log h :
  0 <= h < MAX_PLAYERS -> Z.to_nat h = i ->
  exists lps log',
    stop_playback h (W p log)
    = Done (tt, W (p <| play_state := if bool_decide (play_state p = STOPPED)
                                      then STOPPED else STOPPING |>
                     <| last_play_state := lps |>) log').
Proof.
  intros Hh Hhi. unfold stop_playback.
  rewrite exec_get_player by done. rewrite bind_assoc, exec_deref by done.
  destruct (bool_decide (play_state p = STOPPED)) eqn:E; cbn.
  - apply bool_decide_eq_true in E. rewrite bind_ret.
    destruct (send_notifications_transport p log) as (lps & log' & ->).
    exists lps, log'. destruct p; cbn in *. by subst.
  - rewrite exec_store by done.
    destruct (send_notifications_transport (p <| play_state := STOPPING |>) log)
      as (lps & log' & ->).
    by exists lps, log'.
Qed.

Lemma start_playback_exec p log h :
  0 <= h < MAX_PLAYERS -> Z.to_nat h = i ->
  exists lps log',
    start_playback h (W p log)
    = Done (tt, W (p <| play_state :=
                          if negb (jack_client p =? 0) && (file_open p =? 2)
                             && negb (bool_decide (play_state p = PLAYING))
                          then STARTING else play_state p |>
                     <| last_play_state := lps |>) log').
Proof.
  intros Hh Hhi. unfold start_playback.
  rewrite exec_get_player by done. rewrite bind_assoc, exec_deref by done.
  destruct (negb (jack_client p =? 0) && (file_open p =? 2)
            && negb (bool_decide (play_state p = PLAYING))) eqn:E; cbn.
  - rewrite exec_store by done.
    destruct (send_notifications_transport (p <| play_state := STARTING |>) log)
      as (lps & log' & ->).
    by exists lps, log'.
  - rewrite bind_ret.
    destruct (send_notifications_transport p log) as (lps & log' & ->).
    exists lps, log'. by destruct p.
Qed.

Lemma get_duration_exec {A} p log h (k : Q -> M A) :
  0 <= h < MAX_PLAYERS -> Z.to_nat h = i ->
  bind (get_duration h) k (W p log)
  = k (if (file_open p =? 2) && negb (sf.samplerate (sf_info p) =? 0)
       then (inject_Z (sf.frames (sf_info p)) / inject_Z (sf.samplerate (sf_info p)))%Q
       else 0%Q) (W p log).
Proof.
  intros Hh Hhi. unfold get_duration.
  rewrite !bind_assoc, exec_get_player by done.
  rewrite !bind_assoc, exec_deref by done.
  by destruct (_ && _).
Qed.

(** [set_position (handle, 0)] on an open file with frames: the play
    position becomes 0, the read status [SEEKING], the ring buffers are
    emptied. *)
Lemma set_position_zero_exec p log h :
  0 <= h < MAX_PLAYERS -> Z.to_nat h = i ->
  file_open p = 2 -> 0 < frames p ->
  0 <= sf.frames (sf_info p) -> 0 <= sf.samplerate (sf_info p) ->
  set_position h 0%Q (W p log)
  = Done (tt, W (p <| play_pos_frames := 0 |>
                   <| file_read_status := SEEKING |>
                   <| ringbuffer_b := jack_ringbuffer_reset (ringbuffer_b p) |>
                   <| ringbuffer_a := jack_ringbuffer_reset (ringbuffer_a p) |>) log).
Proof.
  intros Hh Hhi Hopen Hframes Hsf Hsr. unfold set_position.
  rewrite exec_get_player, exec_deref by done.
  rewrite Hopen. cbn.
  rewrite get_duration_exec by done.
  set (dur := if _ && _ then _ else _).
  assert (0 <= dur)%Q as Hdur.
  { subst dur. destruct (_ && _); [by apply Qdiv_nonneg | apply Qle_refl]. }
  assert (forall time : Q, (time == 0)%Q ->
    (do p0 <- deref i;
     do pos <- double_to_u32
                 (if Qle_bool (inject_Z (frames p0))
                       (src_ratio p0 * time * inject_Z (sf.samplerate (sf_info p0)))
                  then inject_Z ((frames p0 - 1) mod 2 ^ 64)
                  else (src_ratio p0 * time * inject_Z (sf.samplerate (sf_info p0)))%Q);
     run store i (fun p => p <| play_pos_frames := pos |>);
     run store i (fun p => p <| file_read_status := SEEKING |>);
     run store i (fun p => p <| ringbuffer_b := jack_ringbuffer_reset (ringbuffer_b p) |>);
     store i (fun p => p <| ringbuffer_a := jack_ringbuffer_reset (ringbuffer_a p) |>))
      (W p log)
    = Done (tt, W (p <| play_pos_frames := 0 |>
                     <| file_read_status := SEEKING |>
                     <| ringbuffer_b := jack_ringbuffer_reset (ringbuffer_b p) |>
                     <| ringbuffer_a := jack_ringbuffer_reset (ringbuffer_a p) |>) log))
    as Hrest.
  { intros time Htime. rewrite exec_deref by done.
    pose proof (Qmult_zero_mid (src_ratio p) time
                  (inject_Z (sf.samplerate (sf_info p))) Htime) as Hz.
    rewrite (Qle_bool_false_zero _ _ Hframes Hz).
    unfold double_to_u32. rewrite (Qtruncate_zero _ Hz). cbn.
    change (0 <? 2 ^ 32) with true. cbn iota. rewrite bind_ret. rewrite !exec_store by done.
    rewrite bind_ret_r, exec_store by done. destruct p; reflexivity. }
  destruct (Qle_bool dur 0) eqn:Ele.
  - rewrite get_duration_exec by done. fold dur. apply Hrest.
    apply Qle_bool_iff in Ele. by apply Qle_antisym.
  - rewrite bind_ret. by apply Hrest.
Qed.
End Effects.

(** Bringing an arbitrary world whose slot [i] holds [p] into the shape the
    execution lemmas expect. *)
Ltac shape_world w Hl :=
  let Hlen := fresh "Hlen" in
  pose proof (lookup_lt_Some _ _ _ Hl) as Hlen;
  rewrite (proj1 (world_shape w _ _ Hl)).

(** ** Gain *)

Lemma get_gain_exec l sr dbg ldbg i p log h :
  (i < length l)%nat -> 0 <= h < MAX_PLAYERS -> Z.to_nat h = i ->
  file_open p = 2 ->
  get_gain h (Build_world (<[i := Some p]> l) sr dbg ldbg log)
  = Done (gain p, Build_world (<[i := Some p]> l) sr dbg ldbg log).
Proof.
  intros Hi Hh Hhi Hopen. unfold get_gain.
  rewrite exec_get_player, exec_deref by done.
  by rewrite Hopen.
Qed.

(** The range test of [set_gain] on a number and on an infinity. *)
Lemma gain_range_test (g : Q) :
  flt g 0%Q || flt 2%Q g = false <-> (0 <= g /\ g <= 2)%Q.
Proof.
  cbn [flt]. unfold Qltb. rewrite orb_false_iff, !negb_false_iff.
  by rewrite !Qle_bool_iff.
Qed.

Lemma gain_range_test_infinite (negative : bool) :
  flt (Inf negative) 0%Q || flt 2%Q (Inf negative) = true.
Proof. by destruct negative. Qed.

(** [set_gain] on a player with an open file: a gain for which one of the
    two comparisons of the range test holds changes nothing, and [get_gain]
    returns the gain held before; every other gain is stored, and
    [get_gain] returns it. *)
Lemma set_gain_exec (w : world) (i : nat) (p : AUDIO_PLAYER) (g : float) :
  g_players w !! i = Some (Some p) -> (i < 16)%nat -> file_open p = 2 ->
  (flt g 0%Q || flt 2%Q g = true ->
     set_gain (Z.of_nat i) g w = Done (tt, w)
     /\ get_gain (Z.of_nat i) w = Done (gain p, w))
  /\ (flt g 0%Q || flt 2%Q g = false ->
        exists w', set_gain (Z.of_nat i) g w = Done (tt, w')
                   /\ get_gain (Z.of_nat i) w' = Done (g, w')).
Proof.
  intros Hl Hi Hopen.
  assert (0 <= Z.of_nat i < MAX_PLAYERS) as Hh by (unfold MAX_PLAYERS; lia).
  assert (Z.to_nat (Z.of_nat i) = i) as Hhi by lia.
  shape_world w Hl.
  set (l := g_players w) in *. set (sr := g_samplerate w). set (dbg := g_debug w).
  set (ldbg := g_last_debug w). set (log := cb_log w).
  split.
  - intros Hout. split; [|by apply get_gain_exec].
    unfold set_gain. rewrite exec_get_player, exec_deref by done.
    rewrite Hopen. cbn [Z.eqb Pos.eqb negb]. by rewrite Hout.
  - intros Hin. unfold set_gain.
    rewrite exec_get_player, exec_deref by done.
    rewrite Hopen. cbn [Z.eqb Pos.eqb negb]. rewrite Hin.
    rewrite exec_store by done.
    destruct (send_notifications_gain l sr dbg ldbg i Hlen (p <| gain := g |>) log)
      as (lg & log' & ->).
    eexists. split; [reflexivity|].
    rewrite get_gain_exec by (done || by destruct p).
    by destruct p.
Qed.

(** With NaN as the gain the notification of the gain does nothing: the
    difference to the last gain notified is NaN, which compares false. *)
Lemma send_notifications_gain_nan l sr dbg ldbg i p log :
  (i < length l)%nat -> gain p = NaN ->
  send_notifications (Some i) NOTIFY_GAIN (Build_world (<[i := Some p]> l) sr dbg ldbg log)
  = Done (tt, Build_world (<[i := Some p]> l) sr dbg ldbg log).
Proof.
  intros Hi Hg. unfold send_notifications.
  destruct p as [? ? fo ? ? ? g ? ? ? ? ? ? ? ? ? ? ? ? ? ? ? ? ? ? ? ? ? ? ? ? ? ? ?].
  cbn in Hg. subst.
  rewrite exec_deref by assumption. cbn.
  destruct (fo =? 2); cbn; [|reflexivity].
  exec. reflexivity.
Qed.

(** C5.  [set_gain] does not reject NaN.  Both comparisons of its range
    test, [gain < 0] and [gain > 2], are false for NaN, so that on a player
    with an open file NaN is stored as the gain and [get_gain] returns it
    instead of the gain held before; nothing else changes and no
    notification is sent.  For every other gain the function is the range
    check of the claim: a number below 0 or above 2 and an infinity change
    nothing, a number from 0 to 2 is stored. *)
Theorem set_gain_stores_nan (w : world) (i : nat) (p : AUDIO_PLAYER) :
  g_players w !! i = Some (Some p) -> (i < 16)%nat -> file_open p = 2 ->
  (flt NaN 0%Q || flt 2%Q NaN = false)
  /\ set_gain (Z.of_nat i) NaN w
     = Done (tt, w <| g_players := <[i := Some (p <| gain := NaN |>)]> (g_players w) |>)
  /\ get_gain (Z.of_nat i)
       (w <| g_players := <[i := Some (p <| gain := NaN |>)]> (g_players w) |>)
     = Done (NaN, w <| g_players := <[i := Some (p <| gain := NaN |>)]> (g_players w) |>)
  /\ (forall g : Q, (g < 0 \/ 2 < g)%Q ->
        set_gain (Z.of_nat i) g w = Done (tt, w)
        /\ get_gain (Z.of_nat i) w = Done (gain p, w))
  /\ (forall negative : bool,
        set_gain (Z.of_nat i) (Inf negative) w = Done (tt, w)
        /\ get_gain (Z.of_nat i) w = Done (gain p, w))
  /\ (forall g : Q, (0 <= g /\ g <= 2)%Q ->
        exists w', set_gain (Z.of_nat i) g w = Done (tt, w')
                   /\ get_gain (Z.of_nat i) w' = Done (Num g, w')).
Proof.
  intros Hl Hi Hopen.
  split; [reflexivity|].
  split; [|split; [|split; [|split]]].
  - assert (0 <= Z.of_nat i < MAX_PLAYERS) as Hh by (unfold MAX_PLAYERS; lia).
    assert (Z.to_nat (Z.of_nat i) = i) as Hhi by lia.
    pose proof (lookup_lt_Some _ _ _ Hl) as Hlen.
    rewrite (proj1 (world_shape w _ _ Hl)) at 1.
    unfold set_gain. rewrite exec_get_player, exec_deref by done.
    rewrite Hopen. cbn.
    rewrite exec_store by done.
    rewrite send_notifications_gain_nan by (done || by destruct p).
    destruct w; cbn. rewrite ?list_insert_insert_eq. reflexivity.
  - assert (0 <= Z.of_nat i < MAX_PLAYERS) as Hh by (unfold MAX_PLAYERS; lia).
    assert (Z.to_nat (Z.of_nat i) = i) as Hhi by lia.
    pose proof (lookup_lt_Some _ _ _ Hl) as Hlen.
    destruct w as [l sr dbg ldbg log]; cbn in *.
    rewrite get_gain_exec by (done || by destruct p).
    by destruct p.
  - intros g Hout. apply (proj1 (set_gain_exec w i p g Hl Hi Hopen)).
    destruct (flt g 0%Q || flt 2%Q g) eqn:E; [done|].
    apply gain_range_test in E as [H0 H2].
    destruct Hout as [Hlt|Hlt]; exfalso; eapply Qlt_not_le; eauto.
  - intros negative. apply (proj1 (set_gain_exec w i p (Inf negative) Hl Hi Hopen)).
    apply gain_range_test_infinite.
  - intros g Hin. apply (proj2 (set_gain_exec w i p g Hl Hi Hopen)).
    by apply gain_range_test.
Qed.

Lemma set_gain_stores_nan_witness :
  set_gain 0 NaN (world_with (open_player 0 48000 2 STOPPED IDLE [] []))
  = Done (tt, world_with ((open_player 0 48000 2 STOPPED IDLE [] []) <| gain := NaN |>))
  /\ get_gain 0 (world_with ((open_player 0 48000 2 STOPPED IDLE [] []) <| gain := NaN |>))
     = Done (NaN, world_with ((open_player 0 48000 2 STOPPED IDLE [] []) <| gain := NaN |>))
  /\ set_gain 0 (Num 3) (world_with (open_player 0 48000 2 STOPPED IDLE [] []))
     = Done (tt, world_with (open_player 0 48000 2 STOPPED IDLE [] []))
  /\ exists w', set_gain 0 (Num (1 # 2)) (world_with (open_player 0 48000 2 STOPPED IDLE [] []))
                = Done (tt, w')
                /\ get_gain 0 w' = Done (Num (1 # 2), w').
Proof.
  destruct (set_gain_stores_nan
              (world_with (open_player 0 48000 2 STOPPED IDLE [] [])) 0%nat
              (open_player 0 48000 2 STOPPED IDLE [] []))
    as (_ & H1 & H2 & H3 & _ & H4); [reflexivity | lia | reflexivity |].
  split; [exact H1|]. split; [exact H2|].
  split; [apply (H3 3%Q); right; reflexivity|].
  apply (H4 (1 # 2)%Q). split; discriminate.
Defined.

(** ** Setters without an open file *)

Lemma get_player_player_at h w :
  h <> MAX_PLAYERS ->
  get_player h w
  = Done (match player_at h w with Some _ => Some (Z.to_nat h) | None => None end, w).
Proof.
  intros Hne. unfold get_player, player_at.
  destruct (h >? MAX_PLAYERS) eqn:E1; cbn.
  { replace (h <? MAX_PLAYERS) with false by lia. by rewrite andb_false_r. }
  destruct (h <? 0) eqn:E2; cbn.
  { by replace (0 <=? h) with false by lia. }
  replace (0 <=? h) with true by lia.
  replace (h <? MAX_PLAYERS) with true by lia. cbn.
  by destruct (g_players w !! Z.to_nat h) as [[q|]|].
Qed.

Lemma deref_player_at h w p :
  player_at h w = Some p -> deref (Z.to_nat h) w = Done (p, w).
Proof.
  unfold player_at, deref. destruct (_ && _); [|done].
  destruct (g_players w !! Z.to_nat h) as [[q|]|]; congruence.
Qed.

(** C6, as amended.  Called with a handle other than 16 that denotes no
    player, or a player whose file is not open, [set_gain], [set_track_a],
    [set_track_b], [set_src_quality] and [set_position] leave the whole state
    unchanged, [set_src_quality] returning 0 (the other four return no
    value).  [enable_loop], [set_buffer_size] and [set_buffer_count] leave the
    state unchanged when the handle denotes no player. *)
Theorem setters_rejected_without_open_file (w : world) (h n : Z) (g : float) (t : Q) :
  h <> MAX_PLAYERS ->
  (forall p, player_at h w = Some p -> file_open p <> 2) ->
  set_gain h g w = Done (tt, w)
  /\ set_track_a h n w = Done (tt, w)
  /\ set_track_b h n w = Done (tt, w)
  /\ set_src_quality h n w = Done (0, w)
  /\ set_position h t w = Done (tt, w)
  /\ (player_at h w = None ->
      enable_loop h n w = Done (tt, w)
      /\ set_buffer_size h n w = Done (tt, w)
      /\ set_buffer_count h n w = Done (tt, w)).
Proof.
  intros Hne Hclosed. pose proof (get_player_player_at h w Hne) as E.
  destruct (player_at h w) as [p|] eqn:Hp.
  - pose proof (deref_player_at h w p Hp) as D.
    assert (negb (file_open p =? 2) = true) as Hc.
    { apply negb_true_iff, Z.eqb_neq. by apply Hclosed. }
    repeat split; try done;
      unfold set_gain, set_track_a, set_track_b, set_src_quality, set_position;
      rewrite (bind_Done _ _ _ _ _ E); rewrite (bind_Done _ _ _ _ _ D);
      by rewrite Hc.
  - repeat split; try intros _;
      unfold set_gain, set_track_a, set_track_b, set_src_quality, set_position,
        enable_loop, set_buffer_size, set_buffer_count;
      by rewrite (bind_Done _ _ _ _ _ E).
Qed.

Lemma setters_rejected_without_open_file_witness :
  set_gain 0 (Num (1 # 2)) (world_with (init_player 0)) = Done (tt, world_with (init_player 0))
  /\ set_track_a 0 1 (world_with (init_player 0)) = Done (tt, world_with (init_player 0))
  /\ set_track_b 0 1 (world_with (init_player 0)) = Done (tt, world_with (init_player 0))
  /\ set_src_quality 0 1 (world_with (init_player 0)) = Done (0, world_with (init_player 0))
  /\ set_position 0 (1 # 2) (world_with (init_player 0)) = Done (tt, world_with (init_player 0))
  /\ (player_at 0 (world_with (init_player 0)) = None ->
      enable_loop 0 1 (world_with (init_player 0)) = Done (tt, world_with (init_player 0))
      /\ set_buffer_size 0 1 (world_with (init_player 0)) = Done (tt, world_with (init_player 0))
      /\ set_buffer_count 0 1 (world_with (init_player 0)) = Done (tt, world_with (init_player 0))).
Proof.
  apply (setters_rejected_without_open_file (world_with (init_player 0)) 0 1
           (Num (1 # 2)) (1 # 2)).
  - unfold MAX_PLAYERS. lia.
  - intros p Hp. vm_compute in Hp. injection Hp as <-. vm_compute. lia.
Defined.

(** C6 as stated fails: on a player whose file is closed, [enable_loop]
    stores the loop flag and [set_buffer_size] stores the size, and neither
    returns a value. *)
Lemma setters_change_closed_player :
  player_at 0 (world_with (init_player 0)) = Some (init_player 0)
  /\ file_open (init_player 0) <> 2
  /\ enable_loop 0 1 (world_with (init_player 0))
     = Done (tt, world_with ((init_player 0) <| loop := 1 |>
                                             <| file_read_status := LOOPING |>))
  /\ enable_loop 0 1 (world_with (init_player 0))
     <> Done (tt, world_with (init_player 0))
  /\ set_buffer_size 0 1024 (world_with (init_player 0))
     = Done (tt, world_with ((init_player 0) <| buffer_size := 1024 |>))
  /\ set_buffer_size 0 1024 (world_with (init_player 0))
     <> Done (tt, world_with (init_player 0)).
Proof.
  repeat split; try reflexivity; try (vm_compute; lia); vm_compute; discriminate.
Qed.

(** ** MIDI events *)

Section Midi.
Variables (l : list (option AUDIO_PLAYER)) (sr dbg ldbg : Z) (i : nat).
Hypothesis Hi : (i < length l)%nat.
Hypothesis Hslot : (i < 16)%nat.

Local Abbreviation W q log := (Build_world (<[i := Some q]> l) sr dbg ldbg log).

Lemma midi_note_off_exec p log ev :
  handle p = Z.of_nat i ->
  ((Z.land (buffer0 ev) 0xF0 =? 0x80)
   || (Z.land (buffer0 ev) 0xF0 =? 0x90) && (buffer2 ev =? 0))
  && (last_note_played p =? buffer1 ev) = true ->
  exists lps log',
    on_jack_process_midi i ev (W p log)
    = Done (tt, W (p <| play_state := if bool_decide (play_state p = STOPPED)
                                      then STOPPED else STOPPING |>
                     <| last_play_state := lps |>
                     <| pitch_shift := 0 |> <| last_note_played := 0 |>) log').
Proof.
  intros Hhandle Hcond.
  assert (0 <= handle p < MAX_PLAYERS) as Hh by (unfold MAX_PLAYERS; lia).
  assert (Z.to_nat (handle p) = i) as Hhi by lia.
  unfold on_jack_process_midi. rewrite exec_deref by done. cbn zeta.
  rewrite Hcond.
  destruct (stop_playback_exec l sr dbg ldbg i Hi p log (handle p) Hh Hhi)
    as (lps & log' & E).
  rewrite (bind_Done _ _ _ _ _ E).
  rewrite exec_store by done. rewrite bind_ret_r, exec_store by done.
  by exists lps, log'.
Qed.

Lemma midi_note_on_exec p log ev :
  handle p = Z.of_nat i ->
  file_open p = 2 -> jack_client p <> 0 -> 0 < frames p ->
  0 <= sf.frames (sf_info p) -> 0 <= sf.samplerate (sf_info p) ->
  ((Z.land (buffer0 ev) 0xF0 =? 0x80)
   || (Z.land (buffer0 ev) 0xF0 =? 0x90) && (buffer2 ev =? 0))
  && (last_note_played p =? buffer1 ev) = false ->
  Z.land (buffer0 ev) 0xF0 = 0x90 ->
  exists lps log',
    on_jack_process_midi i ev (W p log)
    = Done (tt, W (p <| play_state := STARTING |>
                     <| last_play_state := lps |>
                     <| pitch_shift := 60 - buffer1 ev |>
                     <| play_pos_frames := 0 |>
                     <| file_read_status := SEEKING |>
                     <| ringbuffer_b := jack_ringbuffer_reset (ringbuffer_b p) |>
                     <| ringbuffer_a := jack_ringbuffer_reset (ringbuffer_a p) |>
                     <| last_note_played := buffer1 ev |>) log').
Proof.
  intros Hhandle Hopen Hjack Hframes Hsf Hsr Hcond Hcmd.
  assert (0 <= handle p < MAX_PLAYERS) as Hh by (unfold MAX_PLAYERS; lia).
  assert (Z.to_nat (handle p) = i) as Hhi by lia.
  unfold on_jack_process_midi. rewrite exec_deref by done. cbn zeta.
  rewrite Hcond, Hcmd. cbn.
  destruct (stop_playback_exec l sr dbg ldbg i Hi p log (handle p) Hh Hhi)
    as (lps & log1 & E).
  rewrite (bind_Done _ _ _ _ _ E). clear E.
  rewrite exec_store, exec_deref by done.
  set (p1 := apply_update (mk_update pitch_shift (constant (60 - buffer1 ev))) _).
  assert (handle p1 = handle p) as Eh1 by (by destruct p).
  rewrite Eh1.
  rewrite (bind_Done _ _ _ _ _
             (set_position_zero_exec l sr dbg ldbg i Hi p1 log1 (handle p) Hh Hhi
                ltac:(by destruct p) ltac:(by destruct p)
                ltac:(by destruct p) ltac:(by destruct p))).
  rewrite exec_deref by done.
  set (p2 := apply_update (mk_update ringbuffer_a _) _).
  assert (handle p2 = handle p) as Eh2 by (by destruct p).
  rewrite Eh2.
  destruct (start_playback_exec l sr dbg ldbg i Hi p2 log1 (handle p) Hh Hhi)
    as (lps2 & log2 & E).
  rewrite (bind_Done _ _ _ _ _ E). clear E.
  rewrite bind_ret_r, exec_store by done.
  exists lps2, log2. unfold ret. do 4 f_equal.
  assert ((jack_client p =? 0) = false) as Ej by (by apply Z.eqb_neq).
  subst p2 p1. destruct p; cbn in *. subst. rewrite Ej. cbn.
  destruct (bool_decide (play_state0 = STOPPED)); reflexivity.
Qed.

(** Every event keeps the file of the player and leaves the play position
    where it is or sets it to 0. *)
Lemma midi_event_exec p log ev :
  handle p = Z.of_nat i ->
  file_open p = 2 -> jack_client p <> 0 -> 0 < frames p ->
  0 <= sf.frames (sf_info p) -> 0 <= sf.samplerate (sf_info p) ->
  exists p' log',
    on_jack_process_midi i ev (W p log) = Done (tt, W p' log')
    /\ same_file p p'
    /\ (play_pos_frames p' = play_pos_frames p \/ play_pos_frames p' = 0).
Proof.
  intros Hhandle Hopen Hjack Hframes Hsf Hsr.
  destruct (((Z.land (buffer0 ev) 0xF0 =? 0x80)
             || (Z.land (buffer0 ev) 0xF0 =? 0x90) && (buffer2 ev =? 0))
            && (last_note_played p =? buffer1 ev)) eqn:Hcond.
  { destruct (midi_note_off_exec p log ev Hhandle Hcond) as (lps & log' & E).
    eexists _, log'. split; [exact E|]. unfold same_file. destruct p; cbn; auto 10. }
  destruct (Z.eq_dec (Z.land (buffer0 ev) 0xF0) 0x90) as [Hcmd|Hcmd].
  { destruct (midi_note_on_exec p log ev Hhandle Hopen Hjack Hframes Hsf Hsr Hcond Hcmd)
      as (lps & log' & E).
    eexists _, log'. split; [exact E|]. unfold same_file. destruct p; cbn; auto 10. }
  apply Z.eqb_neq in Hcmd.
  unfold on_jack_process_midi. rewrite exec_deref by done. cbn zeta.
  rewrite Hcond, Hcmd.
  destruct (Z.land (buffer0 ev) 0xF0 =? 0xE0).
  - rewrite bind_ret_r, exec_store by done.
    eexists _, log. split; [reflexivity|]. unfold same_file. destruct p; cbn; auto 10.
  - exists p, log. unfold same_file. auto 10.
Qed.

Lemma for_midi_events_exec events : forall p log,
  handle p = Z.of_nat i ->
  file_open p = 2 -> jack_client p <> 0 -> 0 < frames p ->
  0 <= sf.frames (sf_info p) -> 0 <= sf.samplerate (sf_info p) ->
  exists p' log',
    for_midi_events i events (W p log) = Done (tt, W p' log')
    /\ same_file p p'
    /\ (play_pos_frames p' = play_pos_frames p \/ play_pos_frames p' = 0).
Proof.
  induction events as [|ev events IH]; intros p log Hhandle Hopen Hjack Hframes Hsf Hsr.
  - exists p, log. unfold same_file. auto 10.
  - cbn [for_midi_events].
    destruct (midi_event_exec p log ev Hhandle Hopen Hjack Hframes Hsf Hsr)
      as (p1 & log1 & E & (S1 & S2 & S3 & S4 & S5) & Hpos1).
    rewrite (bind_Done _ _ _ _ _ E).
    destruct (IH p1 log1) as (p2 & log2 & E2 & (T1 & T2 & T3 & T4 & T5) & Hpos2);
      try congruence.
    exists p2, log2. split; [exact E2|]. split.
    + unfold same_file. repeat split; congruence.
    + destruct Hpos2 as [->| ->]; auto.
Qed.
End Midi.





(** ** The audio part of the callback *)

Lemma jack_ringbuffer_read_frames rb n :
  0 <= n ->
  jack_ringbuffer_read rb (n * sizeof_float)
  = (sizeof_float * Z.min n (Z.of_nat (length (rb_buf rb))),
     take (Z.to_nat (Z.min n (Z.of_nat (length (rb_buf rb))))) (rb_buf rb),
     rb <| rb_buf := drop (Z.to_nat (Z.min n (Z.of_nat (length (rb_buf rb))))) (rb_buf rb) |>).
Proof.
  intros Hn. unfold jack_ringbuffer_read, jack_ringbuffer_read_space, sizeof_float.
  replace (Z.min (n * 4) (4 * Z.of_nat (length (rb_buf rb))))
    with (4 * Z.min n (Z.of_nat (length (rb_buf rb)))) by lia.
  replace (4 * Z.min n (Z.of_nat (length (rb_buf rb))) / 4)
    with (Z.min n (Z.of_nat (length (rb_buf rb)))); [done|].
  rewrite Z.mul_comm, Z.div_mul; lia.
Qed.

Lemma jack_ringbuffer_read_bytes rb k :
  0 <= k ->
  jack_ringbuffer_read rb (sizeof_float * k)
  = (sizeof_float * Z.min k (Z.of_nat (length (rb_buf rb))),
     take (Z.to_nat (Z.min k (Z.of_nat (length (rb_buf rb))))) (rb_buf rb),
     rb <| rb_buf := drop (Z.to_nat (Z.min k (Z.of_nat (length (rb_buf rb))))) (rb_buf rb) |>).
Proof. intros Hk. rewrite Z.mul_comm. by apply jack_ringbuffer_read_frames. Qed.

Lemma bytes_to_frames k : (sizeof_float * k) / sizeof_float = k.
Proof. unfold sizeof_float. rewrite Z.mul_comm, Z.div_mul; lia. Qed.

Lemma read_space_after_drain buf size n :
  0 <= n ->
  (jack_ringbuffer_read_space
     {| rb_buf := drop (Z.to_nat (Z.min n (Z.of_nat (length buf)))) buf; rb_size := size |}
   =? 0)
  = (Z.of_nat (length buf) <=? n).
Proof.
  intros Hn. unfold jack_ringbuffer_read_space, sizeof_float.
  cbn. rewrite length_drop.
  destruct (Z.of_nat (length buf) <=? n) eqn:E; [apply Z.eqb_eq | apply Z.eqb_neq]; lia.
Qed.

Lemma Zmin_min_r a b : Z.min (Z.min a b) b = Z.min a b.
Proof. lia. Qed.

(** The audio part of the callback computes [render_state] and
    [render_output]. *)
Lemma on_jack_process_audio_exec l sr dbg ldbg i p log nFrames pOutA pOutB :
  (i < length l)%nat -> 0 < frames p -> 0 <= nFrames -> 0 <= play_pos_frames p ->
  on_jack_process_audio i nFrames pOutA pOutB
    (Build_world (<[i := Some p]> l) sr dbg ldbg log)
  = Done ((render_output nFrames p (rb_buf (ringbuffer_a p)) pOutA,
           render_output nFrames p (rb_buf (ringbuffer_b p)) pOutB),
          Build_world (<[i := Some (render_state nFrames p)]> l) sr dbg ldbg log).
Proof.
  intros Hi Hf Hn Hpos. unfold on_jack_process_audio.
  destruct p. destruct ringbuffer_a0 as [bufA sizeA], ringbuffer_b0 as [bufB sizeB].
  cbn in *.
  rewrite exec_deref by done. cbn.
  destruct play_state0, file_read_status0; cbn; eval_bool_decide; cbn; exec;
    rewrite ?jack_ringbuffer_read_frames by done; cbn; exec;
    rewrite ?jack_ringbuffer_read_bytes by lia; cbn; exec;
    rewrite ?bytes_to_frames, ?read_space_after_drain by done;
    try change (0 `div` sizeof_float) with 0;
    (match goal with
     | |- context [frames0 <=? ?X] =>
         destruct (frames0 <=? X) eqn:Ewrap;
         [replace (frames0 =? 0) with false by lia|]
     end);
    cbn; exec;
    try (destruct (Z.of_nat (length bufA) <=? nFrames) eqn:Eeof);
    cbn; exec;
    unfold ret, render_output, render_state, stops, end_of_input, frames_drained,
      draining, transport_after_start, ramp;
    cbn; eval_bool_decide; cbn; rewrite ?Eeof; cbn;
    try rewrite (Z.mod_small _ frames0)
      by (apply Z.leb_gt in Ewrap; split; [apply Z.mod_pos_bound; lia | lia]);
    rewrite ?(Z.min_l 0) by lia; try change (Z.to_nat 0) with 0%nat;
    unfold copy_in; cbn; rewrite ?Zmin_min_r;
    reflexivity.
Qed.

(** The callback up to its first read leaves the player as the whole
    audio part does in the transport state it starts from and in ring
    channel A; ring channel B still holds what the second read will take. *)
Lemma on_jack_process_read_a_exec l sr dbg ldbg i p log nFrames :
  (i < length l)%nat -> file_open p = 2 -> 0 <= nFrames ->
  on_jack_process_read_a nFrames (Some i)
    (Build_world (<[i := Some p]> l) sr dbg ldbg log)
  = Done (tt, Build_world
                (<[i := Some (p <| play_state := transport_after_start p |>
                                <| ringbuffer_a := ringbuffer_a (render_state nFrames p) |>)]>
                   l) sr dbg ldbg log).
Proof.
  intros Hi Hopen Hn. unfold on_jack_process_read_a.
  rewrite exec_deref by done. rewrite Hopen. cbn [Z.eqb Pos.eqb negb].
  destruct p as [? ? fo rs st ? ? ? ? ? ? ? ? ? ? ? ? ? ? ? ? ? [bufA sizeA] [bufB sizeB]
                 ? ? ? ? ? ? ? ? ? ?].
  cbn in *.
  destruct st, rs; cbn; eval_bool_decide; cbn; exec;
    rewrite ?jack_ringbuffer_read_frames by done; cbn; exec;
    try (rewrite bind_ret_r, exec_store by done);
    unfold ret, render_state, stops, end_of_input, frames_drained,
      draining, transport_after_start;
    cbn; eval_bool_decide; cbn;
    rewrite ?(Z.min_l 0) by lia; try change (Z.to_nat 0) with 0%nat;
    cbn; reflexivity.
Qed.

(** Properties of [render_state] and [render_output]. *)

Lemma frames_drained_bounds nFrames p :
  0 <= nFrames -> 0 <= frames_drained nFrames p <= nFrames.
Proof. intros H. unfold frames_drained. destruct (draining p); lia. Qed.

Lemma end_of_input_stops nFrames p :
  end_of_input nFrames p = true -> stops nFrames p = true.
Proof.
  unfold stops, end_of_input, draining. intros H. rewrite H.
  apply andb_true_iff in H as [H _]. apply andb_true_iff in H as [H _].
  apply orb_true_iff in H as [H|H]; rewrite H; cbn; [by rewrite orb_true_r | done].
Qed.

Lemma render_state_play_state nFrames p :
  stops nFrames p = true -> play_state (render_state nFrames p) = STOPPED.
Proof. intros H. unfold render_state. destruct p; cbn. by rewrite H. Qed.

Lemma render_state_play_pos nFrames p :
  play_pos_frames (render_state nFrames p)
  = if end_of_input nFrames p then 0
    else ((play_pos_frames p + frames_drained nFrames p) mod 2 ^ 32) mod frames p.
Proof. unfold render_state. by destruct p. Qed.

Lemma render_state_file_read_status nFrames p :
  file_read_status (render_state nFrames p)
  = if end_of_input nFrames p then SEEKING else file_read_status p.
Proof. unfold render_state. by destruct p. Qed.

Lemma render_state_same_file nFrames p : same_file p (render_state nFrames p).
Proof. unfold same_file, render_state. destruct p; cbn. auto 10. Qed.

Lemma render_state_below_frames nFrames p :
  0 < frames p -> 0 <= play_pos_frames (render_state nFrames p) < frames p.
Proof.
  intros H. rewrite render_state_play_pos.
  destruct (end_of_input nFrames p); [lia|]. by apply Z.mod_pos_bound.
Qed.

Lemma lookup_copy_in (data : list Q) (dest : list float) k x :
  data !! k = Some x -> copy_in data dest !! k = Some (Num x).
Proof.
  intros H. unfold copy_in. apply lookup_app_l_Some.
  by rewrite list_lookup_fmap, H.
Qed.

Lemma length_copy_in (data : list Q) (dest : list float) :
  (length data <= length dest)%nat -> length (copy_in data dest) = length dest.
Proof. intros H. unfold copy_in. rewrite length_app, length_map, length_drop. lia. Qed.

(** The drained frames of a port buffer: sample, times gain, times ramp
    when the transport stops. *)
Lemma render_output_drained nFrames p (ring : list Q) (pOut : list float) k (x : Q) :
  0 <= nFrames ->
  Z.of_nat k < frames_drained nFrames p -> ring !! k = Some x ->
  render_output nFrames p ring pOut !! k
  = Some (if stops nFrames p
          then fmul (fmul x (gain p)) (ramp (frames_drained nFrames p) (Z.of_nat k))
          else fmul x (gain p)).
Proof.
  intros Hn Hk Hx. pose proof (frames_drained_bounds nFrames p Hn) as Hd.
  pose proof (lookup_lt_Some _ _ _ Hx) as Hlen.
  unfold render_output, memset_tail, for_offsets.
  rewrite list_lookup_imap.
  replace ((frames_drained nFrames p <=? Z.of_nat k) && (Z.of_nat k <? nFrames))
    with false by lia.
  destruct (stops nFrames p).
  - rewrite !list_lookup_imap.
    replace (Z.of_nat k <? frames_drained nFrames p) with true by lia.
    rewrite (lookup_copy_in _ _ k x); [done|].
    rewrite lookup_take_lt by lia. done.
  - rewrite !list_lookup_imap.
    replace (Z.of_nat k <? frames_drained nFrames p) with true by lia.
    rewrite (lookup_copy_in _ _ k x); [done|].
    rewrite lookup_take_lt by lia. done.
Qed.

(** The rest of the period is silence. *)
Lemma render_output_silence nFrames p ring pOut k :
  0 <= nFrames -> length pOut = Z.to_nat nFrames ->
  frames_drained nFrames p <= Z.of_nat k < nFrames ->
  render_output nFrames p ring pOut !! k = Some (Num 0).
Proof.
  intros Hn Hlen Hk. pose proof (frames_drained_bounds nFrames p Hn) as Hd.
  unfold render_output, memset_tail.
  rewrite list_lookup_imap.
  replace ((frames_drained nFrames p <=? Z.of_nat k) && (Z.of_nat k <? nFrames))
    with true by lia.
  set (inner := if stops nFrames p then _ else _).
  assert (length inner = length pOut) as Hinner.
  { subst inner. unfold for_offsets.
    destruct (stops nFrames p); rewrite ?length_imap; apply length_copy_in;
      rewrite length_take; lia. }
  destruct (inner !! k) eqn:E; [done|].
  apply lookup_ge_None in E. lia.
Qed.

Lemma on_jack_process_exec l sr dbg ldbg i p log nFrames pOutA pOutB events :
  (i < length l)%nat -> file_open p = 2 -> 0 < frames p -> 0 <= nFrames ->
  0 <= play_pos_frames p ->
  on_jack_process nFrames (Some i) pOutA pOutB events
    (Build_world (<[i := Some p]> l) sr dbg ldbg log)
  = bind (for_midi_events i events)
      (fun _ => ret (render_output nFrames p (rb_buf (ringbuffer_a p)) pOutA,
                     render_output nFrames p (rb_buf (ringbuffer_b p)) pOutB))
      (Build_world (<[i := Some (render_state nFrames p)]> l) sr dbg ldbg log).
Proof.
  intros Hi Hopen Hf Hn Hpos. unfold on_jack_process.
  rewrite exec_deref by done. rewrite Hopen. cbn.
  by rewrite (bind_Done _ _ _ _ _
                (on_jack_process_audio_exec l sr dbg ldbg i p log nFrames pOutA pOutB
                   Hi Hf Hn Hpos)).
Qed.

(** On a player whose file is not open, and on a null argument, the
    callback returns at once: the state and the port buffers stay as they
    are. *)
Lemma on_jack_process_not_open w i p nFrames pOutA pOutB events :
  g_players w !! i = Some (Some p) -> file_open p <> 2 ->
  on_jack_process nFrames (Some i) pOutA pOutB events w = Done ((pOutA, pOutB), w)
  /\ on_jack_process nFrames None pOutA pOutB events w = Done ((pOutA, pOutB), w).
Proof.
  intros Hl Hclosed. split; [|reflexivity].
  unfold on_jack_process, bind, deref. rewrite Hl.
  by replace (file_open p =? 2) with false by lia.
Qed.

(** C2.  When the callback runs with the transport [STOPPING], or
    [PLAYING] at end of input (read status [IDLE] and ring channel A empty
    once the period is drained), every drained frame of both outputs is the
    sample times the gain times the linear ramp [1 - offset / count], the
    rest of the period is zero, and the transport becomes [STOPPED]; at end
    of input the play position becomes 0 and the read status [SEEKING].  The
    MIDI events of the period are handled after that. *)
Theorem stopping_fades_to_silence (w : world) (i : nat) (p : AUDIO_PLAYER)
    (nFrames : Z) (pOutA pOutB : list float) :
  g_players w !! i = Some (Some p) -> file_open p = 2 ->
  0 < frames p -> 0 <= play_pos_frames p -> 0 <= nFrames ->
  length pOutA = Z.to_nat nFrames -> length pOutB = Z.to_nat nFrames ->
  play_state p = STOPPING
  \/ (play_state p = PLAYING /\ end_of_input nFrames p = true) ->
  exists outA outB w' p',
    on_jack_process nFrames (Some i) pOutA pOutB [] w = Done ((outA, outB), w')
    /\ (forall events,
          on_jack_process nFrames (Some i) pOutA pOutB events w
          = bind (for_midi_events i events) (fun _ => ret (outA, outB)) w')
    /\ g_players w' !! i = Some (Some p')
    /\ play_state p' = STOPPED
    /\ (forall k (a : Q),
          Z.of_nat k < frames_drained nFrames p ->
          rb_buf (ringbuffer_a p) !! k = Some a ->
          outA !! k
          = Some (fmul (fmul a (gain p)) (ramp (frames_drained nFrames p) (Z.of_nat k))))
    /\ (forall k (b : Q),
          Z.of_nat k < frames_drained nFrames p ->
          rb_buf (ringbuffer_b p) !! k = Some b ->
          outB !! k
          = Some (fmul (fmul b (gain p)) (ramp (frames_drained nFrames p) (Z.of_nat k))))
    /\ (forall k,
          frames_drained nFrames p <= Z.of_nat k < nFrames ->
          outA !! k = Some (Num 0) /\ outB !! k = Some (Num 0))
    /\ (end_of_input nFrames p = true ->
          play_pos_frames p' = 0 /\ file_read_status p' = SEEKING).
Proof.
  intros Hl Hopen Hf Hpos Hn HlenA HlenB Hstate.
  assert (stops nFrames p = true) as Hstops.
  { destruct Hstate as [Hs|[_ He]]; [|by apply end_of_input_stops].
    unfold stops, transport_after_start. rewrite Hs. reflexivity. }
  shape_world w Hl.
  exists (render_output nFrames p (rb_buf (ringbuffer_a p)) pOutA),
         (render_output nFrames p (rb_buf (ringbuffer_b p)) pOutB).
  eexists _, (render_state nFrames p).
  split; [|split].
  - rewrite (on_jack_process_exec _ _ _ _ _ _ _ _ _ _ _ Hlen Hopen Hf Hn Hpos). reflexivity.
  - intros events.
    by rewrite (on_jack_process_exec _ _ _ _ _ _ _ _ _ _ _ Hlen Hopen Hf Hn Hpos).
  - cbn. split; [by apply list_lookup_insert_eq|].
    split; [by apply render_state_play_state|].
    split; [|split; [|split]].
    + intros k a Hk Ha. rewrite (render_output_drained _ _ _ _ k a) by done.
      by rewrite Hstops.
    + intros k b Hk Hb. rewrite (render_output_drained _ _ _ _ k b) by done.
      by rewrite Hstops.
    + intros k Hk. split; by apply render_output_silence.
    + intros He. rewrite render_state_play_pos, render_state_file_read_status.
      by rewrite He.
Qed.

Lemma stopping_fades_to_silence_witness :
  exists outA outB w' p',
    on_jack_process 4 (Some 0%nat) (map Num [9; 9; 9; 9]%Q) (map Num [9; 9; 9; 9]%Q) []
      (world_with (open_player 0 48000 2 PLAYING IDLE [1; 1] [1; 1])%Q)
    = Done ((outA, outB), w')
    /\ g_players w' !! 0%nat = Some (Some p')
    /\ play_state p' = STOPPED
    /\ outA !! 1%nat = Some (fmul (fmul 1%Q (Num 1)) (ramp 2 1))
    /\ outA !! 2%nat = Some (Num 0)
    /\ play_pos_frames p' = 0 /\ file_read_status p' = SEEKING.
Proof.
  destruct (stopping_fades_to_silence
              (world_with (open_player 0 48000 2 PLAYING IDLE [1; 1] [1; 1])%Q) 0%nat
              (open_player 0 48000 2 PLAYING IDLE [1; 1] [1; 1])%Q 4
              (map Num [9; 9; 9; 9]%Q) (map Num [9; 9; 9; 9]%Q))
    as (outA & outB & w' & p' & H1 & _ & H2 & H3 & H4 & _ & H5 & H6);
    [reflexivity | reflexivity | simpl; lia | simpl; lia | lia | reflexivity
    | reflexivity | right; split; reflexivity |].
  exists outA, outB, w', p'.
  split; [exact H1|]. split; [exact H2|]. split; [exact H3|].
  split; [apply (H4 1%nat 1%Q); [vm_compute; reflexivity | reflexivity]|].
  split; [apply (H5 2%nat); vm_compute; split; [discriminate | reflexivity]|].
  apply H6. reflexivity.
Defined.

(** C9.  On an open player with a positive frame count the callback
    advances [play_pos_frames] by the number of frames drained, in the 32-bit
    arithmetic of [jack_nframes_t], and reduces it modulo the frame count (at
    end of input it then resets it to 0); the MIDI events of the period leave
    it alone or set it to 0.  So [play_pos_frames < frames] holds when the
    callback returns. *)
Theorem play_position_stays_below_frames (w : world) (i : nat) (p : AUDIO_PLAYER)
    (nFrames : Z) (pOutA pOutB : list float) (events : list jack_midi_event) :
  g_players w !! i = Some (Some p) -> (i < 16)%nat -> handle p = Z.of_nat i ->
  file_open p = 2 -> jack_client p <> 0 ->
  0 < frames p -> 0 <= play_pos_frames p -> 0 <= nFrames ->
  0 <= sf.frames (sf_info p) -> 0 <= sf.samplerate (sf_info p) ->
  exists outs w1 p1 w' p',
    on_jack_process_audio i nFrames pOutA pOutB w = Done (outs, w1)
    /\ g_players w1 !! i = Some (Some p1)
    /\ play_pos_frames p1
       = (if end_of_input nFrames p then 0
          else ((play_pos_frames p + frames_drained nFrames p) mod 2 ^ 32)
                 mod frames p)
    /\ (end_of_input nFrames p = false ->
        play_pos_frames p + frames_drained nFrames p < 2 ^ 32 ->
        play_pos_frames p1
        = (play_pos_frames p + frames_drained nFrames p) mod frames p)
    /\ on_jack_process nFrames (Some i) pOutA pOutB events w = Done (outs, w')
    /\ g_players w' !! i = Some (Some p')
    /\ frames p' = frames p
    /\ (play_pos_frames p' = play_pos_frames p1 \/ play_pos_frames p' = 0)
    /\ 0 <= play_pos_frames p' < frames p'.
Proof.
  intros Hl Hi Hhandle Hopen Hjack Hf Hpos Hn Hsf Hsr.
  shape_world w Hl.
  set (l := g_players w) in *. set (sr := g_samplerate w). set (dbg := g_debug w).
  set (ldbg := g_last_debug w). set (log := cb_log w).
  pose proof (render_state_same_file nFrames p) as (S1 & S2 & S3 & S4 & S5).
  pose proof (render_state_below_frames nFrames p Hf) as Hbelow.
  destruct (for_midi_events_exec l sr dbg ldbg i Hlen Hi events
              (render_state nFrames p) log)
    as (p' & log' & E & (T1 & T2 & T3 & T4 & T5) & Hpos'); try congruence.
  eexists _, _, (render_state nFrames p), _, p'.
  split; [by apply on_jack_process_audio_exec|].
  cbn. split; [by apply list_lookup_insert_eq|].
  split; [by apply render_state_play_pos|].
  split.
  { intros He Hsmall. rewrite render_state_play_pos, He.
    pose proof (frames_drained_bounds nFrames p Hn).
    by rewrite (Z.mod_small (_ + _) (2 ^ 32)) by lia. }
  split.
  { rewrite (on_jack_process_exec _ _ _ _ _ _ _ _ _ _ _ Hlen Hopen Hf Hn Hpos).
    rewrite (bind_Done _ _ _ _ _ E). reflexivity. }
  cbn. split; [by apply list_lookup_insert_eq|].
  split; [congruence|]. split; [exact Hpos'|].
  rewrite T4, S4. destruct Hpos' as [->| ->]; lia.
Qed.

Lemma play_position_stays_below_frames_witness :
  exists outs w1 p1 w' p',
    on_jack_process_audio 0 4 (map Num [9; 9; 9; 9]%Q) (map Num [9; 9; 9; 9]%Q)
      (world_with ((open_player 0 5 2 PLAYING LOADING [1; 1; 1; 1; 1] [1; 1; 1; 1; 1])%Q
                     <| play_pos_frames := 3 |>))
    = Done (outs, w1)
    /\ g_players w1 !! 0%nat = Some (Some p1)
    /\ play_pos_frames p1 = 2
    /\ on_jack_process 4 (Some 0%nat) (map Num [9; 9; 9; 9]%Q) (map Num [9; 9; 9; 9]%Q)
         [ {| buffer0 := 0xE0; buffer1 := 0; buffer2 := 64 |} ]
         (world_with ((open_player 0 5 2 PLAYING LOADING [1; 1; 1; 1; 1] [1; 1; 1; 1; 1])%Q
                        <| play_pos_frames := 3 |>))
       = Done (outs, w')
    /\ g_players w' !! 0%nat = Some (Some p')
    /\ frames p' = 5
    /\ (play_pos_frames p' = play_pos_frames p1 \/ play_pos_frames p' = 0)
    /\ 0 <= play_pos_frames p' < frames p'.
Proof.
  destruct (play_position_stays_below_frames
              (world_with ((open_player 0 5 2 PLAYING LOADING [1; 1; 1; 1; 1] [1; 1; 1; 1; 1])%Q
                             <| play_pos_frames := 3 |>))
              0%nat
              ((open_player 0 5 2 PLAYING LOADING [1; 1; 1; 1; 1] [1; 1; 1; 1; 1])%Q
                 <| play_pos_frames := 3 |>)
              4 (map Num [9; 9; 9; 9]%Q) (map Num [9; 9; 9; 9]%Q)
              [ {| buffer0 := 0xE0; buffer1 := 0; buffer2 := 64 |} ])
    as (outs & w1 & p1 & w' & p' & H1 & H2 & H3 & _ & H4 & H5 & H6 & H7 & H8);
    [reflexivity | lia | reflexivity | reflexivity | simpl; lia | simpl; lia
    | simpl; lia | lia | simpl; lia | simpl; lia |].
  exists outs, w1, p1, w', p'.
  split; [exact H1|]. split; [exact H2|]. split; [exact H3|].
  split; [exact H4|]. split; [exact H5|]. split; [exact H6|].
  split; [exact H7 | exact H8].
Defined.

(** ** The file reader thread *)

(** A selected track is copied as it is, and a mono file sends half the
    sample to both outputs. *)
Lemma demux_selected_track p pBufferOut frame :
  1 < sf.channels (sf_info p) ->
  (0 <= track_a p ->
   fst (demux p pBufferOut frame)
   = at_index pBufferOut (frame * sf.channels (sf_info p) + track_a p))
  /\ (0 <= track_b p ->
      snd (demux p pBufferOut frame)
      = at_index pBufferOut (frame * sf.channels (sf_info p) + track_b p)).
Proof.
  intros Hc. unfold demux.
  replace (sf.channels (sf_info p) >? 1) with true by lia. cbn.
  split; intros Ht.
  - by replace (track_a p <? 0) with false by lia.
  - by replace (track_b p <? 0) with false by lia.
Qed.

Lemma demux_mono p pBufferOut frame :
  sf.channels (sf_info p) = 1 ->
  demux p pBufferOut frame
  = ((at_index pBufferOut frame / 2)%Q, (at_index pBufferOut frame / 2)%Q).
Proof.
  intros Hc. unfold demux. rewrite Hc. cbn.
  by replace (frame * 1) with frame by lia.
Qed.

(** The mixing loops. *)

Lemma for_tracks_sum (cond : Z -> bool) (g : Z -> Q) (n : nat) :
  forall fuel track acc,
    (n <= fuel)%nat ->
    (forall t, t ∈ every_second track n -> cond t = true) ->
    cond (track + 2 * Z.of_nat n) = false ->
    (for_tracks fuel cond (fun t acc => acc + g t)%Q track acc
     == acc + Qsum (map g (every_second track n)))%Q.
Proof.
  induction n as [|n IH]; intros fuel track acc Hfuel Hin Hout.
  - replace (track + 2 * Z.of_nat 0) with track in Hout by lia.
    destruct fuel; cbn; rewrite ?Hout; ring.
  - destruct fuel as [|fuel]; [lia|]. cbn [for_tracks every_second map Qsum fold_right].
    rewrite Hin by (cbn; left).
    rewrite IH.
    + fold (Qsum (map g (every_second (track + 2) n))). ring.
    + lia.
    + intros t Ht. apply Hin. cbn. by right.
    + rewrite <- Hout. f_equal. lia.
Qed.

Lemma even_indexed_map {A B} (f : A -> B) (l : list A) :
  even_indexed (map f l) = map f (even_indexed l).
Proof.
  remember (length l) as n eqn:Hn. revert l Hn.
  induction n as [n IH] using lt_wf_ind. intros l Hn.
  destruct l as [|x [|y l]]; try reflexivity.
  cbn. f_equal. apply (IH (length l)); cbn in Hn; [lia | reflexivity].
Qed.

Lemma even_indexed_seqZ (m : nat) : forall s,
  even_indexed (seqZ s (Z.of_nat m)) = every_second s (Nat.div2 (S m)).
Proof.
  induction m as [m IH] using lt_wf_ind. intros s.
  destruct m as [|[|m]]; try reflexivity.
  rewrite seqZ_cons by lia. rewrite (seqZ_cons (Z.succ s)) by lia.
  cbn [even_indexed Nat.div2 every_second]. f_equal.
  replace (Z.pred (Z.pred (Z.of_nat (S (S m))))) with (Z.of_nat m) by lia.
  replace (Z.succ (Z.succ s)) with (s + 2) by lia.
  apply IH. lia.
Qed.

Lemma length_every_second t n : length (every_second t n) = n.
Proof. revert t. induction n; intros; cbn; auto. Qed.

Lemma elem_of_every_second t n x :
  x ∈ every_second t n -> exists j, (j < n)%nat /\ x = t + 2 * Z.of_nat j.
Proof.
  revert t. induction n as [|n IH]; intros t H; cbn in H.
  - by apply elem_of_nil in H.
  - apply elem_of_cons in H as [->|H].
    + exists 0%nat. split; lia.
    + destruct (IH _ H) as (j & Hj & ->). exists (S j). split; lia.
Qed.

Lemma Qsum_div (l : list Q) (d : Q) :
  (Qsum (map (fun x => x / d) l) == Qsum l / d)%Q.
Proof.
  induction l as [|x l IH].
  - unfold Qsum, Qdiv. cbn. ring.
  - change (x / d + Qsum (map (fun x => x / d) l) == (x + Qsum l) / d)%Q.
    rewrite IH. unfold Qdiv. ring.
Qed.

Lemma every_second_shift s t n :
  map (fun x => s + x) (every_second t n) = every_second (s + t) n.
Proof.
  revert t. induction n as [|n IH]; intros t; cbn; [done|].
  f_equal. rewrite IH. f_equal. lia.
Qed.

Lemma div2_bounds (m : nat) :
  (2 * Nat.div2 m <= m)%nat /\ (m <= 2 * Nat.div2 m + 1)%nat.
Proof.
  induction m as [m IH] using lt_wf_ind.
  destruct m as [|[|m]]; cbn; try lia.
  specialize (IH m ltac:(lia)). lia.
Qed.

(** What the mixing loops compute, for every channel count above 1: the sum
    of the even-indexed (for B: odd-indexed) samples of the frame divided by
    [channels / 2]. *)
Lemma demux_mix p pBufferOut frame :
  1 < sf.channels (sf_info p) ->
  (track_a p < 0 ->
   (fst (demux p pBufferOut frame)
    == Qsum (even_indexed (frame_samples p pBufferOut frame))
       / inject_Z (sf.channels (sf_info p) ÷ 2))%Q)
  /\ (track_b p < 0 ->
      (snd (demux p pBufferOut frame)
       == Qsum (odd_indexed (frame_samples p pBufferOut frame))
          / inject_Z (sf.channels (sf_info p) ÷ 2))%Q).
Proof.
  intros Hc. unfold demux, frame_samples, odd_indexed.
  set (c := sf.channels (sf_info p)) in *.
  set (s := frame * c).
  set (d := inject_Z (c ÷ 2)).
  replace (c >? 1) with true by lia. cbn [fst snd].
  assert (c = Z.of_nat (Z.to_nat c)) as Hm by lia.
  set (m := Z.to_nat c) in *. clearbody m.
  pose proof (div2_bounds m) as Hdm. pose proof (div2_bounds (S m)) as HdSm.
  split; intros Ht.
  - replace (track_a p <? 0) with true by lia.
    rewrite (for_tracks_sum (fun track => track <? c)
               (fun track => at_index pBufferOut (s + track) / d)%Q
               (Nat.div2 (S m))).
    + rewrite even_indexed_map.
      replace (seqZ s c) with (seqZ s (Z.of_nat m)) by (f_equal; lia).
      rewrite even_indexed_seqZ.
      replace (every_second s (Nat.div2 (S m)))
        with (map (fun x => s + x) (every_second 0 (Nat.div2 (S m))))
        by (rewrite every_second_shift; f_equal; lia).
      rewrite <- Qsum_div. rewrite !map_map. rewrite Qplus_0_l. reflexivity.
    + lia.
    + intros t Hin. apply elem_of_every_second in Hin as (j & Hj & ->).
      apply Z.ltb_lt. lia.
    + apply Z.ltb_ge. lia.
  - replace (track_b p <? 0) with true by lia.
    rewrite (for_tracks_sum (fun track => track + 1 <? c)
               (fun track => at_index pBufferOut (s + track + 1) / d)%Q
               (Nat.div2 m)).
    + rewrite seqZ_cons by lia. cbn [map tail].
      replace (Z.pred c) with (Z.of_nat (m - 1)) by lia.
      rewrite even_indexed_map, even_indexed_seqZ.
      replace (S (m - 1)) with m by lia.
      replace (every_second (Z.succ s) (Nat.div2 m))
        with (map (fun x => Z.succ s + x) (every_second 0 (Nat.div2 m)))
        by (rewrite every_second_shift; f_equal; lia).
      rewrite <- Qsum_div. rewrite !map_map. rewrite Qplus_0_l.
      erewrite map_ext; [reflexivity|]. intros t. cbn.
      by replace (s + t + 1) with (Z.succ s + t) by lia.
    + lia.
    + intros t Hin. apply elem_of_every_second in Hin as (j & Hj & ->).
      apply Z.ltb_lt. lia.
    + apply Z.ltb_ge. lia.
Qed.

Lemma length_frame_samples_indexed p pBufferOut frame :
  0 <= sf.channels (sf_info p) ->
  length (even_indexed (frame_samples p pBufferOut frame))
  = Nat.div2 (S (Z.to_nat (sf.channels (sf_info p))))
  /\ length (odd_indexed (frame_samples p pBufferOut frame))
     = Nat.div2 (Z.to_nat (sf.channels (sf_info p))).
Proof.
  intros Hc. unfold frame_samples, odd_indexed.
  set (c := sf.channels (sf_info p)) in *. set (s := frame * c).
  assert (c = Z.of_nat (Z.to_nat c)) as Hm by lia.
  set (m := Z.to_nat c) in *. clearbody m.
  replace (seqZ s c) with (seqZ s (Z.of_nat m)) by (f_equal; lia). split.
  - by rewrite even_indexed_map, even_indexed_seqZ, length_map, length_every_second.
  - destruct m as [|m]; [reflexivity|].
    rewrite seqZ_cons by lia. cbn [map tail].
    replace (Z.pred (Z.of_nat (S m))) with (Z.of_nat m) by lia.
    by rewrite even_indexed_map, even_indexed_seqZ, length_map, length_every_second.
Qed.

(** The downmix rule of the spec holds for B with every channel count
    above 1, and for A when the channel count is even. *)
Lemma demux_average p pBufferOut frame :
  1 < sf.channels (sf_info p) ->
  (track_b p < 0 ->
   (snd (demux p pBufferOut frame)
    == average (odd_indexed (frame_samples p pBufferOut frame)))%Q)
  /\ (Z.even (sf.channels (sf_info p)) = true -> track_a p < 0 ->
      (fst (demux p pBufferOut frame)
       == average (even_indexed (frame_samples p pBufferOut frame)))%Q).
Proof.
  intros Hc.
  destruct (demux_mix p pBufferOut frame Hc) as [HA HB].
  destruct (length_frame_samples_indexed p pBufferOut frame ltac:(lia)) as [LA LB].
  set (c := sf.channels (sf_info p)) in *.
  pose proof (div2_bounds (Z.to_nat c)) as Hd.
  pose proof (div2_bounds (S (Z.to_nat c))) as HdS.
  unfold average. split.
  - intros Ht. rewrite (HB Ht), LB.
    replace (Z.of_nat (Nat.div2 (Z.to_nat c))) with (c ÷ 2); [reflexivity|].
    rewrite Z.quot_div_nonneg by lia.
    symmetry. apply Z.div_unique with (r := c - 2 * Z.of_nat (Nat.div2 (Z.to_nat c))); lia.
  - intros Heven Ht. rewrite (HA Ht), LA.
    replace (Z.of_nat (Nat.div2 (S (Z.to_nat c)))) with (c ÷ 2); [reflexivity|].
    rewrite Z.quot_div_nonneg by lia.
    apply Z.even_spec in Heven as [k Hk].
    replace (c `div` 2) with k by (rewrite Hk, Z.mul_comm, Z.div_mul; lia).
    lia.
Qed.

(** C1.  On a file of three channels with [track_a = -1], the frame
    (1, 0, 1) gives A = 2: the sum of the channels 0 and 2 divided by
    [channels / 2 = 1], while their average is 1.  B is the average of the
    odd-indexed channels, here channel 1 alone. *)
Theorem demux_three_channels_A_is_not_average :
  sf.channels (sf_info three_channel_player) = 3
  /\ track_a three_channel_player = -1
  /\ frame_samples three_channel_player [1; 0; 1]%Q 0 = [1; 0; 1]%Q
  /\ (fst (demux three_channel_player [1; 0; 1]%Q 0) == 2)%Q
  /\ (average (even_indexed (frame_samples three_channel_player [1; 0; 1]%Q 0)) == 1)%Q
  /\ ~ (fst (demux three_channel_player [1; 0; 1]%Q 0)
        == average (even_indexed (frame_samples three_channel_player [1; 0; 1]%Q 0)))%Q
  /\ (snd (demux three_channel_player [1; 0; 1]%Q 0)
      == average (odd_indexed (frame_samples three_channel_player [1; 0; 1]%Q 0)))%Q.
Proof. repeat split; vm_compute; congruence. Qed.

(** When the wait for space is left, the file has been closed or at
    least one of the two ring channels has room for the block. *)
Lemma wait_for_space_left others : forall i nFramesRead sleeps w k w',
  wait_for_space others i nFramesRead sleeps w = Done (Some k, w') ->
  exists p,
    g_players w' !! i = Some (Some p)
    /\ (file_open p = 0
        \/ nFramesRead * sizeof_float <= jack_ringbuffer_write_space (ringbuffer_a p)
        \/ nFramesRead * sizeof_float <= jack_ringbuffer_write_space (ringbuffer_b p)).
Proof.
  induction others as [|other others IH]; intros i n sleeps w k w' H;
    cbn [wait_for_space] in H; unfold bind at 1, deref at 1 in H;
    destruct (g_players w !! i) as [[p|]|] eqn:E; try discriminate;
    destruct ((jack_ringbuffer_write_space (ringbuffer_a p) <? n * sizeof_float)
              && (jack_ringbuffer_write_space (ringbuffer_b p) <? n * sizeof_float))
      eqn:C; try discriminate.
  - injection H as <- <-. exists p. split; [done|]. right.
    apply andb_false_iff in C as [C|C]; apply Z.ltb_ge in C; auto.
  - unfold bind at 1 in H.
    destruct (send_notifications (Some i) NOTIFY_ALL w) as [[[] w1]| |t1];
      [|discriminate|discriminate].
    unfold bind at 1 in H.
    destruct (other w1) as [[[] w2]| |t2]; [|discriminate|discriminate].
    unfold bind at 1, deref at 1 in H.
    destruct (g_players w2 !! i) as [[p2|]|] eqn:E2; try discriminate.
    destruct (file_open p2 =? 0) eqn:Ef.
    + injection H as <- <-. exists p2. split; [done|]. left. by apply Z.eqb_eq.
    + by apply IH in H.
  - injection H as <- <-. exists p. split; [done|]. right.
    apply andb_false_iff in C as [C|C]; apply Z.ltb_ge in C; auto.
Qed.

(** C4.  The wait for space is left as soon as one of the two ring
    channels has room for the block.  The ring buffers are those the file
    thread creates for [buffer_size] 4 and [buffer_count] 2: 32 bytes, of
    which 31 can be filled.  Three blocks of two frames fill 24 bytes of
    each; for the fourth block both channels lack room and the thread
    sleeps.  While it sleeps the process callback, in a period of 64
    frames, reads the six frames of channel A and has not yet read from
    channel B: A is empty, B has 7 bytes left.  The thread wakes, leaves the
    wait and writes: frame 0 goes to both channels, and of frame 1 channel B
    takes its last 3 bytes and channel A the same 3 bytes, so that both are
    left with part of a float. *)
Theorem file_thread_writes_without_room_in_B :
  jack_ringbuffer_write_space (ringbuffer_a small_rings_player) = 31
  /\ jack_ringbuffer_write_space (ringbuffer_b small_rings_player) = 31
  /\ file_thread_fn_write [] 0 2 [1; 2; 3; 4]%Q (world_with small_rings_player)
     = Done (Some 0%nat, world_with (small_rings_holding [1; 3] [2; 4])%Q)
  /\ file_thread_fn_write [] 0 2 [5; 6; 7; 8]%Q
       (world_with (small_rings_holding [1; 3] [2; 4])%Q)
     = Done (Some 0%nat, world_with (small_rings_holding [1; 3; 5; 7] [2; 4; 6; 8])%Q)
  /\ file_thread_fn_write [] 0 2 [9; 10; 11; 12]%Q
       (world_with (small_rings_holding [1; 3; 5; 7] [2; 4; 6; 8])%Q)
     = Done (Some 0%nat,
             world_with (small_rings_holding [1; 3; 5; 7; 9; 11] [2; 4; 6; 8; 10; 12])%Q)
  /\ file_thread_fn_write [] 0 2 [13; 14; 15; 16]%Q
       (world_with (small_rings_holding [1; 3; 5; 7; 9; 11] [2; 4; 6; 8; 10; 12])%Q)
     = Done (None,
             world_with (small_rings_holding [1; 3; 5; 7; 9; 11] [2; 4; 6; 8; 10; 12])%Q)
  /\ on_jack_process_read_a 64 (Some 0%nat)
       (world_with (small_rings_holding [1; 3; 5; 7; 9; 11] [2; 4; 6; 8; 10; 12])%Q)
     = Done (tt, world_with (small_rings_holding [] [2; 4; 6; 8; 10; 12])%Q)
  /\ jack_ringbuffer_write_space
       (ringbuffer_a (small_rings_holding [] [2; 4; 6; 8; 10; 12])%Q) = 31
  /\ jack_ringbuffer_write_space
       (ringbuffer_b (small_rings_holding [] [2; 4; 6; 8; 10; 12])%Q) = 7
  /\ wait_for_space [] 0 2 0
       (world_with (small_rings_holding [] [2; 4; 6; 8; 10; 12])%Q)
     = Done (Some 0%nat, world_with (small_rings_holding [] [2; 4; 6; 8; 10; 12])%Q)
  /\ write_frames 2 0 0 [13; 14; 15; 16]%Q
       (world_with (small_rings_holding [] [2; 4; 6; 8; 10; 12])%Q)
     = Torn {| torn_world :=
                 world_with (small_rings_holding [13] [2; 4; 6; 8; 10; 12; 14])%Q;
               torn_frame := 1; torn_b := 3; torn_a := 3 |}
  /\ exists w',
       file_thread_fn_write [on_jack_process_read_a 64 (Some 0%nat)] 0 2
         [13; 14; 15; 16]%Q
         (world_with (small_rings_holding [1; 3; 5; 7; 9; 11] [2; 4; 6; 8; 10; 12])%Q)
       = Torn {| torn_world := w'; torn_frame := 1; torn_b := 3; torn_a := 3 |}
       /\ (exists p', g_players w' !! 0%nat = Some (Some p')
                      /\ rb_buf (ringbuffer_a p') = [13%Q]
                      /\ rb_buf (ringbuffer_b p') = [2; 4; 6; 8; 10; 12; 14]%Q).
Proof.
  repeat split; try (vm_compute; reflexivity).
  eexists. split; [vm_compute; reflexivity|].
  eexists. repeat split; reflexivity.
Qed.
(** ** Creating player instances *)

#[local] Arguments init : simpl never.
#[local] Arguments init_fields : simpl never.
#[local] Arguments first_free : simpl never.

Lemma first_free_None handles w :
  (forall h, h ∈ handles -> exists p, g_players w !! Z.to_nat h = Some (Some p)) ->
  first_free handles w = None.
Proof.
  induction handles as [|h handles IH]; intros H; [done|].
  unfold first_free; fold first_free.
  destruct (H h) as [p ->]; [by left|].
  apply IH. intros h' Hin. apply H. by right.
Qed.

Lemma first_free_seqZ w (k : nat) : forall (s : Z) (n : nat),
  0 <= s -> (k < n)%nat ->
  (forall j, (j < k)%nat -> exists p, g_players w !! (Z.to_nat s + j)%nat = Some (Some p)) ->
  (forall p, g_players w !! (Z.to_nat s + k)%nat <> Some (Some p)) ->
  first_free (seqZ s (Z.of_nat n)) w = Some (s + Z.of_nat k).
Proof.
  induction k as [|k IH]; intros s n Hs Hk Hocc Hfree.
  - rewrite seqZ_cons by lia. unfold first_free; fold first_free.
    rewrite Nat.add_0_r in Hfree.
    destruct (g_players w !! Z.to_nat s) as [[p|]|] eqn:E.
    + by destruct (Hfree p).
    + f_equal. lia.
    + f_equal. lia.
  - rewrite seqZ_cons by lia. unfold first_free; fold first_free.
    destruct (Hocc 0%nat) as [p Hp]; [lia|]. rewrite Nat.add_0_r in Hp. rewrite Hp.
    replace (Z.pred (Z.of_nat n)) with (Z.of_nat (n - 1)) by lia.
    rewrite (IH (Z.succ s) (n - 1)%nat).
    + f_equal. lia.
    + lia.
    + lia.
    + intros j Hj. destruct (Hocc (S j)) as [q Hq]; [lia|]. exists q.
      rewrite <- Hq. f_equal. lia.
    + intros q. replace (Z.to_nat (Z.succ s) + k)%nat with (Z.to_nat s + S k)%nat by lia.
      apply Hfree.
Qed.

Lemma first_free_Some handles w h :
  first_free handles w = Some h ->
  h ∈ handles /\ forall p, g_players w !! Z.to_nat h <> Some (Some p).
Proof.
  induction handles as [|h' handles IH]; [done|].
  unfold first_free; fold first_free.
  destruct (g_players w !! Z.to_nat h') as [[p|]|] eqn:E.
  - intros H. destruct (IH H) as [Hin Hfree]. split; [by right | done].
  - intros [= <-]. split; [by left|]. intros p. by rewrite E.
  - intros [= <-]. split; [by left|]. intros p. by rewrite E.
Qed.

Lemma init_full_registry jack malloc w :
  registry_full w -> init jack malloc w = Done (-1, w).
Proof.
  intros Hfull. unfold init. rewrite bind_get_world.
  rewrite first_free_None; [reflexivity|].
  intros h Hin. apply elem_of_seqZ in Hin. apply Hfull. unfold MAX_PLAYERS in Hin. lia.
Qed.

Lemma first_free_seqZ_lowest w (n : nat) : forall s h,
  first_free (seqZ s (Z.of_nat n)) w = Some h ->
  s <= h < s + Z.of_nat n
  /\ (forall p, g_players w !! Z.to_nat h <> Some (Some p))
  /\ forall h', s <= h' < h -> exists p, g_players w !! Z.to_nat h' = Some (Some p).
Proof.
  induction n as [|n IH]; intros s h; [done|].
  rewrite seqZ_cons by lia. unfold first_free; fold first_free.
  replace (Z.pred (Z.of_nat (S n))) with (Z.of_nat n) by lia.
  destruct (g_players w !! Z.to_nat s) as [[p|]|] eqn:E.
  - intros H. destruct (IH _ _ H) as (Hb & Hfree & Hocc).
    split; [lia|]. split; [done|].
    intros h' Hh'. destruct (decide (h' = s)) as [->|Hne]; [by exists p|].
    apply Hocc. lia.
  - intros [= <-]. split; [lia|]. split; [intros p; by rewrite E | intros h' Hh'; lia].
  - intros [= <-]. split; [lia|]. split; [intros p; by rewrite E | intros h' Hh'; lia].
Qed.

Lemma first_free_None_full w :
  first_free (seqZ 0 MAX_PLAYERS) w = None -> registry_full w.
Proof.
  assert (forall (n : nat) s, first_free (seqZ s (Z.of_nat n)) w = None ->
            forall h, s <= h < s + Z.of_nat n ->
                      exists p, g_players w !! Z.to_nat h = Some (Some p)) as Hgen.
  { induction n as [|n IH]; intros s H h Hh; [lia|].
    rewrite seqZ_cons in H by lia. unfold first_free in H; fold first_free in H.
    replace (Z.pred (Z.of_nat (S n))) with (Z.of_nat n) in H by lia.
    destruct (g_players w !! Z.to_nat s) as [[p|]|] eqn:E; try discriminate.
    destruct (decide (h = s)) as [->|Hne]; [by exists p|].
    apply (IH _ H). lia. }
  intros H i Hi. change MAX_PLAYERS with (Z.of_nat 16) in H.
  destruct (Hgen 16%nat 0 H (Z.of_nat i)) as [p Hp]; [lia|].
  exists p. by rewrite Nat2Z.id in Hp.
Qed.

(** The name [init] formats for a handle from 0 to 15 has 16 characters,
    one more than the string [client_name] is initialised with. *)
Lemma client_name_length (h : Z) :
  0 <= h < MAX_PLAYERS ->
  sizeof_chars (formatted "audio_player_%03d" h) = 17.
Proof.
  unfold MAX_PLAYERS. intros Hh.
  assert (h = 0 \/ h = 1 \/ h = 2 \/ h = 3 \/ h = 4 \/ h = 5 \/ h = 6 \/ h = 7
          \/ h = 8 \/ h = 9 \/ h = 10 \/ h = 11 \/ h = 12 \/ h = 13 \/ h = 14
          \/ h = 15) as Hcases by lia.
  repeat (destruct Hcases as [->|Hcases]; [reflexivity|]). by subst.
Qed.

(** A call of [init] that finds a free slot and gets memory ends in the
    [sprintf] that formats the client name. *)
Lemma init_free_slot_faults jack mem w h :
  first_free (seqZ 0 MAX_PLAYERS) w = Some h -> init jack (Some mem) w = Fault.
Proof.
  intros Efree. unfold init. rewrite bind_get_world, Efree. cbn zeta.
  change MAX_PLAYERS with (Z.of_nat 16) in Efree.
  apply first_free_seqZ_lowest in Efree as (Hb & _ & _).
  unfold bind at 1, sprintf.
  rewrite client_name_length by (unfold MAX_PLAYERS; lia). reflexivity.
Qed.

(** X1.  [init] fails, returning -1 and leaving every global as it is, when
    the registry has no free slot and when the allocator returns [NULL]. *)
Theorem init_failure_changes_nothing (jack : jack_server)
    (malloc : option AUDIO_PLAYER) (w : world) :
  registry_full w \/ malloc = None ->
  init jack malloc w = Done (-1, w).
Proof.
  intros H. destruct H as [Hfull| ->]; [by apply init_full_registry|].
  unfold init. rewrite bind_get_world.
  by destruct (first_free (seqZ 0 MAX_PLAYERS) w).
Qed.

Lemma init_failure_changes_nothing_witness :
  init jack_48k None empty_world = Done (-1, empty_world).
Proof. apply (init_failure_changes_nothing jack_48k None empty_world). by right. Defined.

(** X2.  Every call of [init] that finds a free slot and gets memory from
    the allocator writes past [client_name].  The array is initialised with
    a string of 15 characters and has 16 chars; the name that [sprintf]
    formats for the handle found, a handle from 0 to 15, has 16 characters
    and needs 17 with its terminator.  The call ends there, in undefined
    behaviour, before any call of JACK and whatever JACK would answer. *)
Theorem init_overflows_client_name (jack : jack_server) (mem : AUDIO_PLAYER)
    (w : world) (j : nat) :
  (j < 16)%nat -> (forall p, g_players w !! j <> Some (Some p)) ->
  exists h,
    first_free (seqZ 0 MAX_PLAYERS) w = Some h
    /\ 0 <= h <= Z.of_nat j
    /\ sizeof_chars "audioplayer_xxx" = 16
    /\ sizeof_chars (formatted "audio_player_%03d" h) = 17
    /\ sprintf (sizeof_chars "audioplayer_xxx") "audio_player_%03d" h w = Fault
    /\ init jack (Some mem) w = Fault.
Proof.
  intros Hj Hfree.
  destruct (first_free (seqZ 0 MAX_PLAYERS) w) as [h|] eqn:Efree.
  2:{ destruct (first_free_None_full w Efree j Hj) as [p Hp]. by destruct (Hfree p). }
  exists h. split; [done|].
  pose proof Efree as Efree'. change MAX_PLAYERS with (Z.of_nat 16) in Efree'.
  apply first_free_seqZ_lowest in Efree' as (Hb & _ & Hocc).
  assert (h <= Z.of_nat j) as Hle.
  { destruct (Z_le_gt_dec h (Z.of_nat j)) as [|Hgt]; [done|].
    destruct (Hocc (Z.of_nat j)) as [p Hp]; [lia|].
    rewrite Nat2Z.id in Hp. by destruct (Hfree p). }
  pose proof (client_name_length h ltac:(unfold MAX_PLAYERS; lia)) as Hlen.
  split; [lia|]. split; [reflexivity|]. split; [exact Hlen|]. split.
  - unfold sprintf. rewrite Hlen. reflexivity.
  - by apply (init_free_slot_faults jack mem w h).
Qed.

Lemma init_overflows_client_name_witness :
  exists h,
    first_free (seqZ 0 MAX_PLAYERS) (world_with (init_player 0)) = Some h
    /\ 0 <= h <= 1
    /\ init jack_48k (Some (init_player 0)) (world_with (init_player 0)) = Fault.
Proof.
  destruct (init_overflows_client_name jack_48k (init_player 0)
              (world_with (init_player 0)) 1%nat)
    as (h & H1 & H2 & _ & _ & _ & H3); [lia | intros p; discriminate |].
  exists h. split; [exact H1|]. split; [exact H2 | exact H3].
Defined.

(** X3.  The search of [init] for a slot never selects a slot that holds
    a player: it stops at the lowest handle from 0 to 15 whose slot is
    null, and it finds no handle exactly when every slot holds a player. *)
Theorem init_search_takes_lowest_free_slot (w : world) :
  (forall h, first_free (seqZ 0 MAX_PLAYERS) w = Some h ->
     0 <= h < MAX_PLAYERS
     /\ (forall p, g_players w !! Z.to_nat h <> Some (Some p))
     /\ (forall h', 0 <= h' < h -> exists p, g_players w !! Z.to_nat h' = Some (Some p)))
  /\ (first_free (seqZ 0 MAX_PLAYERS) w = None <-> registry_full w).
Proof.
  split.
  - intros h Efree. change MAX_PLAYERS with (Z.of_nat 16) in Efree.
    apply first_free_seqZ_lowest in Efree as (Hb & Hfree & Hocc).
    split; [unfold MAX_PLAYERS; lia|]. split; [exact Hfree | exact Hocc].
  - split; [apply first_free_None_full|].
    intros Hfull. apply first_free_None.
    intros h Hin. apply elem_of_seqZ in Hin. apply Hfull. unfold MAX_PLAYERS in Hin. lia.
Qed.
(** ** Removing player instances *)

#[local] Arguments unload : simpl never.
#[local] Arguments clear_slots : simpl never.
#[local] Arguments for_handles : simpl never.
#[local] Arguments remove_player_at : simpl never.

Lemma unload_exec l sr dbg ldbg i p log joined h :
  (i < length l)%nat -> 0 <= h < MAX_PLAYERS -> Z.to_nat h = i ->
  exists p' log',
    unload joined h (Build_world (<[i := Some p]> l) sr dbg ldbg log)
    = Done (tt, Build_world (<[i := Some p']> l) sr dbg ldbg log')
    /\ (file_open p = 0 -> p' = p /\ log' = log)
    /\ (file_open p <> 0 ->
        exists q, p' = (joined (q <| file_open := 0 |>)) <| filename := EmptyString |>).
Proof.
  intros Hi Hh Hhi. unfold unload.
  rewrite exec_get_player, exec_deref by done.
  destruct (file_open p =? 0) eqn:E.
  - exists p, log. split; [reflexivity|]. split; [done|]. lia.
  - destruct (stop_playback_exec l sr dbg ldbg i Hi p log h Hh Hhi) as (lps & log' & Es).
    rewrite (bind_Done _ _ _ _ _ Es).
    rewrite !exec_store by done. rewrite bind_ret_r, exec_store by done.
    eexists _, log'. split; [reflexivity|]. split; [lia|].
    intros _. eexists. reflexivity.
Qed.

Lemma insert_None_not_player (l : list (option AUDIO_PLAYER)) i p :
  <[i := None]> l !! i <> Some (Some p).
Proof.
  intros H. apply list_lookup_insert_Some in H as [(_ & H & _)|(H & _)]; done.
Qed.

Lemma exec_clear_slot {A} l sr dbg ldbg log (i : nat) (k : unit -> M A) :
  bind (fun w => Done (tt, w <| g_players := <[i := None]> (g_players w) |>)) k
    (Build_world l sr dbg ldbg log)
  = k tt (Build_world (<[i := None]> l) sr dbg ldbg log).
Proof. reflexivity. Qed.

Lemma clear_slots_exec sr dbg ldbg log i slots : forall c l,
  exists count,
    clear_slots slots i c (Build_world l sr dbg ldbg log)
    = Done (count, Build_world (if bool_decide (i ∈ slots) then <[i := None]> l else l)
                     sr dbg ldbg log)
    /\ c <= count
    /\ (count = c ->
        forall j p, j ∈ slots ->
          (if bool_decide (i ∈ slots) then <[i := None]> l else l) !! j <> Some (Some p)).
Proof.
  induction slots as [|j slots IH]; intros c l.
  - exists c. split; [reflexivity|]. split; [lia|]. intros _ j p Hj. by apply elem_of_nil in Hj.
  - unfold clear_slots; fold clear_slots.
    destruct (decide (j = i)) as [->|Hne].
    + rewrite bool_decide_eq_true_2 by done. unfold when.
      rewrite exec_clear_slot.
      rewrite bind_get_world. cbn [g_players].
      assert (match <[i := None]> l !! i with
              | Some (Some _) => c + 1
              | _ => c
              end = c) as ->.
      { pose proof (insert_None_not_player l i) as Hn.
        destruct (<[i := None]> l !! i) as [[q|]|]; [by destruct (Hn q)|done|done]. }
      destruct (IH c (<[i := None]> l)) as (count & E & Hle & Hzero).
      exists count. rewrite E.
      rewrite (bool_decide_eq_true_2 (i ∈ i :: slots)) by (by left).
      assert ((if bool_decide (i ∈ slots) then <[i := None]> (<[i := None]> l)
               else <[i := None]> l) = <[i := None]> l) as Hl.
      { destruct (bool_decide (i ∈ slots)); [by rewrite list_insert_insert_eq | done]. }
      rewrite Hl in *. split; [done|]. split; [done|].
      intros Hc j p Hj. apply elem_of_cons in Hj as [->|Hj].
      * apply insert_None_not_player.
      * by apply Hzero.
    + rewrite bool_decide_eq_false_2 by done. unfold when. rewrite bind_ret.
      rewrite bind_get_world. cbn [g_players].
      assert (bool_decide (i ∈ j :: slots) = bool_decide (i ∈ slots)) as ->.
      { apply bool_decide_ext. rewrite elem_of_cons.
        split; [intros [Heq|Hin]; [congruence | done] | by right]. }
      destruct (l !! j) as [[q|]|] eqn:Ej.
      * destruct (IH (c + 1) l) as (count & E & Hle & Hzero).
        exists count. split; [exact E|]. split; [lia|]. intros Hc. lia.
      * destruct (IH c l) as (count & E & Hle & Hzero).
        exists count. split; [exact E|]. split; [lia|].
        intros Hc j' p Hj'. apply elem_of_cons in Hj' as [->|Hj']; [|by apply Hzero].
        destruct (bool_decide (i ∈ slots));
          rewrite ?list_lookup_insert_ne by done; by rewrite Ej.
      * destruct (IH c l) as (count & E & Hle & Hzero).
        exists count. split; [exact E|]. split; [lia|].
        intros Hc j' p Hj'. apply elem_of_cons in Hj' as [->|Hj']; [|by apply Hzero].
        destruct (bool_decide (i ∈ slots));
          rewrite ?list_lookup_insert_ne by done; by rewrite Ej.
Qed.

Lemma get_player_free h w :
  0 <= h < MAX_PLAYERS ->
  (forall p, g_players w !! Z.to_nat h <> Some (Some p)) ->
  get_player h w = Done (None, w).
Proof.
  intros Hh Hfree. unfold get_player.
  replace (h >? MAX_PLAYERS) with false by lia.
  replace (h <? 0) with false by lia.
  replace (h <? MAX_PLAYERS) with true by lia. cbn.
  destruct (g_players w !! Z.to_nat h) as [[q|]|] eqn:E; [by destruct (Hfree q)|done|done].
Qed.

Lemma for_handles_nothing d joined handles w :
  (forall h, h ∈ handles ->
     0 <= h < MAX_PLAYERS /\ forall p, g_players w !! Z.to_nat h <> Some (Some p)) ->
  for_handles handles (remove_player_at (S d) joined) w = Done (tt, w).
Proof.
  induction handles as [|h handles IH]; intros H; [done|].
  unfold for_handles; fold for_handles.
  destruct (H h) as [Hh Hfree]; [by left|].
  unfold remove_player_at at 1; fold remove_player_at.
  rewrite bind_assoc. rewrite (bind_Done _ _ _ _ _ (get_player_free h w Hh Hfree)).
  rewrite bind_ret. apply IH. intros h' Hin. apply H. by right.
Qed.

Lemma remove_player_at_exec joined h w :
  0 <= h < MAX_PLAYERS ->
  exists log',
    (forall d,
       remove_player_at (S (S d)) joined h w
       = Done (tt, Build_world (<[Z.to_nat h := None]> (g_players w)) (g_samplerate w)
                     (g_debug w) (g_last_debug w) log'))
    /\ ((forall p, g_players w !! Z.to_nat h = Some (Some p) -> file_open p = 0) ->
        log' = cb_log w).
Proof.
  intros Hh.
  destruct (g_players w !! Z.to_nat h) as [[p|]|] eqn:El.
  - pose proof (lookup_lt_Some _ _ _ El) as Hlen.
    destruct (unload_exec (g_players w) (g_samplerate w) (g_debug w) (g_last_debug w)
                (Z.to_nat h) p (cb_log w) joined h Hlen Hh eq_refl)
      as (p' & log' & Eu & Hclosed & _).
    exists log'. split; [|intros Hc; by apply Hclosed, Hc].
    intros d. unfold remove_player_at; fold remove_player_at.
    rewrite (proj1 (world_shape w _ _ El)).
    set (l := g_players w) in *. set (i := Z.to_nat h) in *.
    rewrite exec_get_player by done.
    rewrite (bind_Done _ _ _ _ _ Eu).
    destruct (clear_slots_exec (g_samplerate w) (g_debug w) (g_last_debug w) log' i
                (seq 0 (Z.to_nat MAX_PLAYERS)) 0 (<[i := Some p']> l))
      as (count & Ec & Hle & Hzero).
    assert (i ∈ seq 0 (Z.to_nat MAX_PLAYERS)) as Hin.
    { apply elem_of_seq. unfold MAX_PLAYERS in *. lia. }
    rewrite bool_decide_eq_true_2 in Ec, Hzero by done.
    rewrite list_insert_insert_eq in Ec, Hzero.
    rewrite (bind_Done _ _ _ _ _ Ec).
    cbn [g_players]. rewrite list_insert_insert_eq.
    destruct (count =? 0) eqn:E0; [|reflexivity].
    unfold when. apply for_handles_nothing.
    intros h' Hin'. apply elem_of_seqZ in Hin'. split; [lia|].
    intros q. cbn [g_players]. apply Hzero; [lia|].
    apply elem_of_seq. unfold MAX_PLAYERS in *. lia.
  - exists (cb_log w). split; [|done].
    intros d. unfold remove_player_at; fold remove_player_at.
    assert (forall p, g_players w !! Z.to_nat h <> Some (Some p)) as Hfree
      by (intros p; by rewrite El).
    rewrite (bind_Done _ _ _ _ _ (get_player_free h w Hh Hfree)).
    rewrite list_insert_id by done. by destruct w.
  - exists (cb_log w). split; [|done].
    intros d. unfold remove_player_at; fold remove_player_at.
    assert (forall p, g_players w !! Z.to_nat h <> Some (Some p)) as Hfree
      by (intros p; by rewrite El).
    rewrite (bind_Done _ _ _ _ _ (get_player_free h w Hh Hfree)).
    rewrite list_insert_ge by (by apply lookup_ge_None). by destruct w.
Qed.

(** X5.  [remove_player] on a handle from 0 to 15 clears the slot of the
    handle and nothing else in the registry, whatever the state of the player
    and whatever the file thread did before it ended; the sample rate and the
    debug switch stay as they are, and the handle denotes no player
    afterwards.  When the last player goes, the nested call of [end] finds
    nothing to remove: the two functions never call each other more than
    once, so the result does not depend on the nesting bound of the model. *)
Theorem remove_player_clears_its_slot (joined : AUDIO_PLAYER -> AUDIO_PLAYER)
    (h : Z) (w : world) :
  0 <= h < MAX_PLAYERS ->
  exists w',
    remove_player joined h w = Done (tt, w')
    /\ (forall depth, remove_player_at (S (S depth)) joined h w = Done (tt, w'))
    /\ g_players w' = <[Z.to_nat h := None]> (g_players w)
    /\ g_samplerate w' = g_samplerate w
    /\ g_debug w' = g_debug w
    /\ get_player h w' = Done (None, w')
    /\ player_at h w' = None.
Proof.
  intros Hh.
  destruct (remove_player_at_exec joined h w Hh) as (log' & E & _).
  eexists. split; [exact (E 0%nat)|]. split; [exact E|].
  cbn. split; [done|]. split; [done|]. split; [done|].
  assert (forall p, <[Z.to_nat h := None]> (g_players w) !! Z.to_nat h <> Some (Some p))
    as Hfree by (intros p; apply insert_None_not_player).
  split.
  - by apply get_player_free.
  - unfold player_at. cbn [g_players].
    destruct (_ && _); [|done].
    destruct (<[Z.to_nat h := None]> (g_players w) !! Z.to_nat h) as [[q|]|] eqn:E';
      [by destruct (Hfree q)|done|done].
Qed.

Lemma remove_player_clears_its_slot_witness :
  exists w',
    remove_player (file_thread_fn_exit true) 0
      (world_with (open_player 0 48000 2 PLAYING LOADING [1%Q] [1%Q]))
    = Done (tt, w')
    /\ g_players w' = replicate 16 None
    /\ get_player 0 w' = Done (None, w').
Proof.
  destruct (remove_player_clears_its_slot (file_thread_fn_exit true) 0
              (world_with (open_player 0 48000 2 PLAYING LOADING [1%Q] [1%Q])))
    as (w' & H1 & _ & H2 & _ & _ & H3 & _); [unfold MAX_PLAYERS; lia|].
  exists w'. split; [exact H1|]. split; [exact H2 | exact H3].
Defined.

Lemma for_handles_remove joined (n : nat) : forall (k : nat) w,
  (k + n <= 16)%nat ->
  exists w',
    for_handles (seqZ (Z.of_nat k) (Z.of_nat n)) (remove_player_at 2 joined) w
    = Done (tt, w')
    /\ (forall i p, (k <= i < k + n)%nat -> g_players w' !! i <> Some (Some p))
    /\ (forall i, (i < k \/ k + n <= i)%nat -> g_players w' !! i = g_players w !! i)
    /\ length (g_players w') = length (g_players w)
    /\ g_samplerate w' = g_samplerate w /\ g_debug w' = g_debug w
    /\ g_last_debug w' = g_last_debug w.
Proof.
  induction n as [|n IH]; intros k w Hk.
  - exists w. split; [reflexivity|]. split; [intros; lia|]. auto.
  - rewrite seqZ_cons by lia. unfold for_handles; fold for_handles.
    destruct (remove_player_at_exec joined (Z.of_nat k) w) as (log1 & E1 & _);
      [unfold MAX_PLAYERS; lia|].
    rewrite (bind_Done _ _ _ _ _ (E1 0%nat)). rewrite Nat2Z.id.
    replace (Z.succ (Z.of_nat k)) with (Z.of_nat (S k)) by lia.
    replace (Z.pred (Z.of_nat (S n))) with (Z.of_nat n) by lia.
    destruct (IH (S k) (Build_world (<[k := None]> (g_players w)) (g_samplerate w)
                          (g_debug w) (g_last_debug w) log1))
      as (w' & E & Hfree & Hsame & Hlen & Hsr & Hdbg & Hldbg); [lia|].
    exists w'. split; [exact E|]. cbn [g_players g_samplerate g_debug g_last_debug] in *.
    split.
    { intros i p Hi. destruct (decide (i = k)) as [->|Hne].
      - rewrite Hsame by lia. apply insert_None_not_player.
      - apply Hfree. lia. }
    split.
    { intros i Hi. rewrite Hsame by lia. apply list_lookup_insert_ne. lia. }
    rewrite Hlen, length_insert. auto.
Qed.

(** X6.  [end] removes every player: afterwards none of the 16 slots holds
    a player and no handle denotes one, the registry has the size it had, and
    the sample rate and the debug switch are untouched. *)
Theorem end_removes_every_player (joined : AUDIO_PLAYER -> AUDIO_PLAYER) (w : world) :
  exists w',
    end_ joined w = Done (tt, w')
    /\ (forall h, h <> MAX_PLAYERS -> player_at h w' = None)
    /\ (forall h, h <> MAX_PLAYERS -> get_player h w' = Done (None, w'))
    /\ length (g_players w') = length (g_players w)
    /\ g_samplerate w' = g_samplerate w /\ g_debug w' = g_debug w.
Proof.
  destruct (for_handles_remove joined 16 0 w) as (w' & E & Hfree & _ & Hlen & Hsr & Hdbg & _);
    [lia|].
  exists w'. split; [exact E|].
  assert (forall h, h <> MAX_PLAYERS -> player_at h w' = None) as Hnone.
  { intros h Hh. unfold player_at. destruct (_ && _) eqn:Eb; [|done].
    destruct (g_players w' !! Z.to_nat h) as [[q|]|] eqn:El; [|done|done].
    exfalso. apply (Hfree (Z.to_nat h) q); [unfold MAX_PLAYERS in *; lia | done]. }
  split; [exact Hnone|]. split; [|auto].
  intros h Hh. rewrite get_player_player_at by done. by rewrite Hnone.
Qed.

Lemma least_free_slot (l : list (option AUDIO_PLAYER)) (k : nat) :
  (forall j, (j < k)%nat -> exists p, l !! j = Some (Some p))
  \/ (exists r, (r < k)%nat /\ (forall p, l !! r <> Some (Some p))
                /\ forall j, (j < r)%nat -> exists p, l !! j = Some (Some p)).
Proof.
  induction k as [|k [IH|(r & Hr & Hfree & Hocc)]].
  - left. intros j Hj. lia.
  - destruct (l !! k) as [[p|]|] eqn:E.
    + left. intros j Hj. destruct (decide (j = k)) as [->|Hne]; [by eexists|].
      apply IH. lia.
    + right. exists k. split; [lia|]. split; [intros p; by rewrite E | done].
    + right. exists k. split; [lia|]. split; [intros p; by rewrite E | done].
  - right. exists r. split; [lia|]. done.
Qed.

(** X7.  A handle freed by [remove_player] is found again by the search
    of [init] for a slot: after [remove_player] the search stops at the
    removed handle, or at a lower handle whose slot was free before.  The
    call of [init] then returns -1 when the allocator has no memory, and
    with memory it goes on to format the client name, where it ends. *)
Theorem init_after_remove_player (joined : AUDIO_PLAYER -> AUDIO_PLAYER)
    (jack : jack_server) (h : Z) (w : world) :
  0 <= h < MAX_PLAYERS ->
  exists w1 r,
    remove_player joined h w = Done (tt, w1)
    /\ first_free (seqZ 0 MAX_PLAYERS) w1 = Some r
    /\ 0 <= r <= h
    /\ (forall j, (j < Z.to_nat r)%nat -> exists p, g_players w !! j = Some (Some p))
    /\ (r < h -> forall p, g_players w !! Z.to_nat r <> Some (Some p))
    /\ init jack None w1 = Done (-1, w1)
    /\ (forall mem, init jack (Some mem) w1 = Fault).
Proof.
  intros Hh.
  destruct (remove_player_at_exec joined h w Hh) as (log' & E & _).
  eexists.
  destruct (least_free_slot (<[Z.to_nat h := None]> (g_players w)) (S (Z.to_nat h)))
    as [Hocc|(r & Hr & Hfree & Hocc)].
  { destruct (Hocc (Z.to_nat h)) as [p Hp]; [lia|].
    by destruct (insert_None_not_player (g_players w) (Z.to_nat h) p). }
  exists (Z.of_nat r).
  assert (first_free (seqZ 0 MAX_PLAYERS)
            (Build_world (<[Z.to_nat h := None]> (g_players w)) (g_samplerate w)
               (g_debug w) (g_last_debug w) log')
          = Some (Z.of_nat r)) as Efree.
  { change MAX_PLAYERS with (Z.of_nat 16).
    rewrite (first_free_seqZ _ r 0 16); [f_equal; lia | lia | unfold MAX_PLAYERS in *; lia
                                        | done | done]. }
  split; [exact (E 0%nat)|]. split; [exact Efree|].
  split; [lia|]. split; [|split; [|split]].
  - intros j Hj. rewrite Nat2Z.id in Hj. destruct (Hocc j Hj) as [p Hp]. exists p.
    rewrite list_lookup_insert_ne in Hp by lia. done.
  - intros Hlt p Hp. rewrite Nat2Z.id in Hp. apply (Hfree p).
    rewrite list_lookup_insert_ne by lia. done.
  - unfold init. rewrite bind_get_world. by rewrite Efree.
  - intros mem. by apply (init_free_slot_faults jack mem _ (Z.of_nat r)).
Qed.

Lemma init_after_remove_player_witness :
  exists w1 r,
    remove_player id 0 (world_with (init_player 0)) = Done (tt, w1)
    /\ first_free (seqZ 0 MAX_PLAYERS) w1 = Some r
    /\ 0 <= r <= 0.
Proof.
  destruct (init_after_remove_player id jack_48k 0 (world_with (init_player 0)))
    as (w1 & r & H1 & H2 & H3 & _); [unfold MAX_PLAYERS; lia|].
  exists w1, r. split; [exact H1|]. split; [exact H2 | exact H3].
Defined.

(** X8.  [unload] on a player whose file is open or opening ([file_open]
    not 0), when the file thread ends with its closing sequence after
    whatever else it did: the transport is [STOPPED], the play position 0,
    the notification callback and its object are cleared and the file name
    is empty.  On a player without a file [unload] does nothing. *)
Theorem unload_leaves_player_stopped (rest : AUDIO_PLAYER -> AUDIO_PLAYER)
    (closed : bool) (w : world) (i : nat) (p : AUDIO_PLAYER) :
  g_players w !! i = Some (Some p) -> (i < 16)%nat ->
  exists w' p',
    unload (fun q => file_thread_fn_exit closed (rest q)) (Z.of_nat i) w = Done (tt, w')
    /\ g_players w' = <[i := Some p']> (g_players w)
    /\ (file_open p = 0 -> w' = w)
    /\ (file_open p <> 0 ->
        play_state p' = STOPPED /\ play_pos_frames p' = 0
        /\ cb_fn p' = 0 /\ cb_object p' = 0 /\ filename p' = EmptyString).
Proof.
  intros Hl Hi. shape_world w Hl.
  destruct (unload_exec (g_players w) (g_samplerate w) (g_debug w) (g_last_debug w) i p
              (cb_log w) (fun q => file_thread_fn_exit closed (rest q)) (Z.of_nat i))
    as (p' & log' & E & Hclosed & Hopen); [done | unfold MAX_PLAYERS; lia | lia |].
  eexists _, p'. split; [exact E|]. cbn [g_players].
  split; [by rewrite list_insert_insert_eq|]. split.
  - intros H0. destruct (Hclosed H0) as [-> ->]. reflexivity.
  - intros Hn. destruct (Hopen Hn) as [q ->].
    unfold file_thread_fn_exit. destruct closed, (rest _); cbn; auto.
Qed.

Lemma unload_leaves_player_stopped_witness :
  exists w' p',
    unload (fun q => file_thread_fn_exit true (id q)) 0
      (world_with ((open_player 0 48000 2 PLAYING LOADING [1%Q] [1%Q]) <| cb_fn := 7 |>))
    = Done (tt, w')
    /\ g_players w' !! 0%nat = Some (Some p')
    /\ play_state p' = STOPPED /\ cb_fn p' = 0.
Proof.
  destruct (unload_leaves_player_stopped id true
              (world_with ((open_player 0 48000 2 PLAYING LOADING [1%Q] [1%Q])
                             <| cb_fn := 7 |>))
              0%nat ((open_player 0 48000 2 PLAYING LOADING [1%Q] [1%Q]) <| cb_fn := 7 |>))
    as (w' & p' & H1 & H2 & _ & H3); [reflexivity | lia |].
  destruct H3 as (H4 & _ & H5 & _); [simpl; lia|].
  exists w', p'. split; [exact H1|]. split; [by rewrite H2|]. split; [exact H4 | exact H5].
Defined.
(** ** Notifications change the shadows only *)

#[local] Arguments with_shadows_of : simpl never.

Lemma with_shadows_of_self p : p = with_shadows_of p p.
Proof. by destruct p. Qed.

Lemma with_shadows_of_trans p p1 p2 :
  p1 = with_shadows_of p1 p -> p2 = with_shadows_of p2 p1 -> p2 = with_shadows_of p2 p.
Proof.
  intros H1 H2. rewrite H2 at 1. rewrite H1. unfold with_shadows_of.
  destruct p, p1, p2; reflexivity.
Qed.

Lemma with_shadows_of_fields p p' :
  p' = with_shadows_of p' p ->
  handle p' = handle p /\ cb_fn p' = cb_fn p /\ file_open p' = file_open p.
Proof. intros ->. unfold with_shadows_of. by destruct p. Qed.

Lemma updates_shadows_ret i : updates_shadows i (ret tt).
Proof.
  intros l sr dbg ldbg log p Hlen Hi Hh. exists p, ldbg, log.
  split; [reflexivity|]. split; [apply with_shadows_of_self | done].
Qed.

Lemma updates_shadows_bind i (m : M unit) (k : unit -> M unit) :
  updates_shadows i m -> updates_shadows i (k tt) -> updates_shadows i (bind m k).
Proof.
  intros Hm Hk l sr dbg ldbg log p Hlen Hi Hh.
  destruct (Hm l sr dbg ldbg log p Hlen Hi Hh) as (p1 & ldbg1 & log1 & E1 & R1 & L1).
  destruct (with_shadows_of_fields p p1 R1) as (F1 & F2 & F3).
  destruct (Hk l sr dbg ldbg1 log1 p1 Hlen Hi ltac:(congruence))
    as (p2 & ldbg2 & log2 & E2 & R2 & L2).
  exists p2, ldbg2, log2. rewrite (bind_Done _ _ _ _ _ E1).
  split; [exact E2|]. split; [by eapply with_shadows_of_trans|].
  intros Hcb. rewrite L2, L1 by congruence. done.
Qed.

Lemma updates_shadows_field i (cond : AUDIO_PLAYER -> bool)
    (f : AUDIO_PLAYER -> AUDIO_PLAYER) (kind : notify) (val : AUDIO_PLAYER -> float) :
  (forall p, f p = with_shadows_of (f p) p) ->
  updates_shadows i
    (do p <- deref i;
     when (cond p) (run store i f; do p <- deref i; notify_cb p kind (val p))).
Proof.
  intros Hf l sr dbg ldbg log p Hlen Hi Hh.
  rewrite exec_deref by done.
  destruct (cond p); unfold when.
  - rewrite exec_store, exec_deref by done.
    rewrite bind_ret_r, exec_notify_cb by done.
    eexists (f p), ldbg, _. split; [reflexivity|]. split; [apply Hf|].
    intros Hcb. destruct (with_shadows_of_fields p (f p) (Hf p)) as (_ & -> & _).
    by rewrite Hcb.
  - exists p, ldbg, log. split; [reflexivity|]. split; [apply with_shadows_of_self | done].
Qed.

Lemma get_position_exec {A} l sr dbg ldbg i p log h (k : Q -> M A) :
  (i < length l)%nat -> 0 <= h < MAX_PLAYERS -> Z.to_nat h = i ->
  bind (get_position h) k (Build_world (<[i := Some p]> l) sr dbg ldbg log)
  = k (if (file_open p =? 2) && negb (sf.samplerate (sf_info p) =? 0)
       then (src_ratio_inv p * inject_Z (play_pos_frames p)
             / inject_Z (sf.samplerate (sf_info p)))%Q
       else 0%Q) (Build_world (<[i := Some p]> l) sr dbg ldbg log).
Proof.
  intros Hi Hh Hhi. unfold get_position.
  rewrite !bind_assoc, exec_get_player by done.
  rewrite !bind_assoc, exec_deref by done.
  by destruct (_ && _).
Qed.

Lemma updates_shadows_position i (b : bool) :
  updates_shadows i
    (when b
       (do p <- deref i;
        do pos <- get_position (handle p);
        when (Qle_bool (1 # 10) (Qabs (pos - last_position p)))
          (do p <- deref i;
           do pos <- get_position (handle p);
           run store i (fun p => p <| last_position := pos |>);
           do p <- deref i;
           notify_cb p NOTIFY_POSITION (last_position p)))).
Proof.
  intros l sr dbg ldbg log p Hlen Hi Hh.
  assert (0 <= handle p < MAX_PLAYERS) as Hr by (unfold MAX_PLAYERS; lia).
  assert (Z.to_nat (handle p) = i) as Hhi by lia.
  destruct b; unfold when.
  2:{ exists p, ldbg, log. split; [reflexivity|]. split; [apply with_shadows_of_self | done]. }
  rewrite exec_deref by done. rewrite get_position_exec by done.
  set (pos := if _ && _ then _ else _).
  destruct (Qle_bool _ _).
  2:{ exists p, ldbg, log. split; [reflexivity|]. split; [apply with_shadows_of_self | done]. }
  rewrite exec_deref by done. rewrite get_position_exec by done. fold pos.
  rewrite exec_store, exec_deref by done.
  rewrite bind_ret_r, exec_notify_cb by done.
  eexists _, ldbg, _. split; [reflexivity|].
  split; [unfold with_shadows_of; by destruct p|].
  intros Hcb. replace (cb_fn (p <| last_position := pos |>)) with (cb_fn p) by (by destruct p).
  by rewrite Hcb.
Qed.

Lemma updates_shadows_debug i (b : bool) :
  updates_shadows i
    (do w <- get_world;
     when (b && negb (g_debug w =? g_last_debug w))
       (run (fun w => Done (tt, w <| g_last_debug := g_debug w |>));
        do p <- deref i;
        do w <- get_world;
        notify_cb p NOTIFY_DEBUG (inject_Z (g_debug w)))).
Proof.
  intros l sr dbg ldbg log p Hlen Hi Hh.
  rewrite bind_get_world. cbn [g_debug g_last_debug].
  destruct (b && negb (dbg =? ldbg)); unfold when.
  2:{ exists p, ldbg, log. split; [reflexivity|]. split; [apply with_shadows_of_self | done]. }
  unfold bind at 1. cbn [upd_g_last_debug apply_update constant g_debug].
  rewrite exec_deref by done. rewrite bind_get_world.
  rewrite bind_ret_r, exec_notify_cb by done.
  eexists p, dbg, _. split; [reflexivity|]. split; [apply with_shadows_of_self|].
  intros Hcb. by rewrite Hcb.
Qed.

Lemma send_notifications_updates_shadows i param :
  updates_shadows i (send_notifications (Some i) param).
Proof.
  intros l sr dbg ldbg log p Hlen Hi Hh.
  unfold send_notifications. rewrite exec_deref by done.
  destruct (negb (file_open p =? 2)).
  { exists p, ldbg, log. split; [reflexivity|]. split; [apply with_shadows_of_self | done]. }
  revert l sr dbg ldbg log p Hlen Hi Hh.
  lazymatch goal with
  | |- forall l sr dbg ldbg log p, _ -> _ -> _ ->
         exists p' ldbg' log', bind ?m ?k _ = _ /\ _ =>
      change (updates_shadows i (bind m k))
  end.
  apply updates_shadows_bind.
  { apply (updates_shadows_field i
             (fun p => selects param NOTIFY_TRANSPORT
                       && negb (last_play_state p =? playState_code (play_state p)))
             (fun p => p <| last_play_state := playState_code (play_state p) |>)
             NOTIFY_TRANSPORT (fun p => inject_Z (playState_code (play_state p)))).
    intros p. unfold with_shadows_of. by destruct p. }
  apply updates_shadows_bind; [apply updates_shadows_position|].
  apply updates_shadows_bind.
  { apply (updates_shadows_field i
             (fun p => selects param NOTIFY_GAIN
                       && fge (fabs (fsub (gain p) (last_gain p))) (1 # 100)%Q)
             (fun p => p <| last_gain := gain p |>) NOTIFY_GAIN (fun p => gain p)).
    intros p. unfold with_shadows_of. by destruct p. }
  apply updates_shadows_bind.
  { apply (updates_shadows_field i
             (fun p => selects param NOTIFY_LOOP && negb (loop p =? last_loop p))
             (fun p => p <| last_loop := loop p |>) NOTIFY_LOOP
             (fun p => inject_Z (loop p))).
    intros p. unfold with_shadows_of. by destruct p. }
  apply updates_shadows_bind.
  { apply (updates_shadows_field i
             (fun p => selects param NOTIFY_TRACK_A && negb (track_a p =? last_track_a p))
             (fun p => p <| last_track_a := track_a p |>) NOTIFY_TRACK_A
             (fun p => inject_Z (track_a p))).
    intros p. unfold with_shadows_of. by destruct p. }
  apply updates_shadows_bind.
  { apply (updates_shadows_field i
             (fun p => selects param NOTIFY_TRACK_B && negb (track_b p =? last_track_b p))
             (fun p => p <| last_track_b := track_b p |>) NOTIFY_TRACK_B
             (fun p => inject_Z (track_b p))).
    intros p. unfold with_shadows_of. by destruct p. }
  apply updates_shadows_bind.
  { apply (updates_shadows_field i
             (fun p => selects param NOTIFY_QUALITY
                       && negb (src_quality p =? last_src_quality p))
             (fun p => p <| last_src_quality := src_quality p |>) NOTIFY_QUALITY
             (fun p => inject_Z (src_quality p))).
    intros p. unfold with_shadows_of. by destruct p. }
  apply updates_shadows_debug.
Qed.

(** X9.  [send_notifications] observes: on the player of a slot it changes
    nothing but the notification shadows ([last_play_state],
    [last_position], [last_gain], [last_loop], [last_track_a],
    [last_track_b], [last_src_quality]) and [g_last_debug]; every other
    field of the player, the other slots, the sample rate and the debug
    switch stay as they are, for every selector.  A player without a callback
    gets no call, a player whose file is not open is left untouched, and a
    null pointer is ignored. *)
Theorem send_notifications_changes_shadows_only (w : world) (i : nat)
    (p : AUDIO_PLAYER) (param : notify) :
  g_players w !! i = Some (Some p) -> (i < 16)%nat -> handle p = Z.of_nat i ->
  exists w' p',
    send_notifications (Some i) param w = Done (tt, w')
    /\ g_players w' = <[i := Some p']> (g_players w)
    /\ p' = with_shadows_of p' p
    /\ g_samplerate w' = g_samplerate w /\ g_debug w' = g_debug w
    /\ (cb_fn p = 0 -> cb_log w' = cb_log w)
    /\ (file_open p <> 2 -> w' = w)
    /\ send_notifications None param w = Done (tt, w).
Proof.
  intros Hl Hi Hh.
  pose proof (lookup_lt_Some _ _ _ Hl) as Hlen.
  destruct (send_notifications_updates_shadows i param (g_players w) (g_samplerate w)
              (g_debug w) (g_last_debug w) (cb_log w) p Hlen Hi Hh)
    as (p' & ldbg' & log' & E & R & L).
  rewrite <- (proj1 (world_shape w i p Hl)) in E.
  eexists _, p'. split; [exact E|]. cbn.
  split; [done|]. split; [done|]. split; [done|]. split; [done|]. split; [done|].
  split; [|reflexivity].
  intros Hclosed.
  assert (send_notifications (Some i) param w = Done (tt, w)) as E'.
  { unfold send_notifications, bind, deref. rewrite Hl.
    by replace (file_open p =? 2) with false by lia. }
  congruence.
Qed.

Lemma send_notifications_changes_shadows_only_witness :
  exists w' p',
    send_notifications (Some 0%nat) NOTIFY_ALL
      (world_with ((open_player 0 48000 2 PLAYING LOADING [] []) <| cb_fn := 1 |>))
    = Done (tt, w')
    /\ g_players w' !! 0%nat = Some (Some p')
    /\ p' = with_shadows_of p' ((open_player 0 48000 2 PLAYING LOADING [] []) <| cb_fn := 1 |>)
    /\ g_debug w' = 0.
Proof.
  destruct (send_notifications_changes_shadows_only
              (world_with ((open_player 0 48000 2 PLAYING LOADING [] []) <| cb_fn := 1 |>))
              0%nat ((open_player 0 48000 2 PLAYING LOADING [] []) <| cb_fn := 1 |>)
              NOTIFY_ALL)
    as (w' & p' & H1 & H2 & H3 & _ & H4 & _); [reflexivity | lia | reflexivity |].
  exists w', p'. split; [exact H1|]. split; [by rewrite H2|]. split; [exact H3 | exact H4].
Defined.
(** ** Seeking *)

Lemma Qtruncate_inject_Z z : Qtruncate (inject_Z z) = z.
Proof. unfold Qtruncate, inject_Z. cbn. apply Z.quot_1_r. Qed.

Lemma Qtruncate_bounds (x : Q) (n : Z) :
  (0 <= x)%Q -> (x < inject_Z n)%Q -> 0 <= Qtruncate x < n.
Proof.
  unfold Qle, Qlt, Qtruncate, inject_Z. cbn. intros H0 Hn.
  rewrite Z.quot_div_nonneg by lia. split.
  - apply Z.div_pos; lia.
  - apply Z.div_lt_upper_bound; lia.
Qed.

Lemma Qtruncate_negative (x : Q) : (x <= -1)%Q -> Qtruncate x < 0.
Proof.
  unfold Qle, Qtruncate. cbn. intros H.
  assert (Qnum x <= - Zpos (Qden x)) as Hn by lia.
  pose proof (Z.quot_le_mono (Qnum x) (- Zpos (Qden x)) (Zpos (Qden x)) ltac:(lia) Hn) as Hq.
  rewrite Z.quot_opp_l, Z.quot_same in Hq by lia. lia.
Qed.

Lemma double_to_u32_in_range (x : Q) :
  0 <= Qtruncate x < 2 ^ 32 -> double_to_u32 x = ret (Qtruncate x).
Proof.
  intros H. unfold double_to_u32. cbn zeta.
  replace (0 <=? Qtruncate x) with true by lia.
  by replace (Qtruncate x <? 2 ^ 32) with true by lia.
Qed.

Lemma double_to_u32_negative (x : Q) : Qtruncate x < 0 -> double_to_u32 x = fault.
Proof.
  intros H. unfold double_to_u32. cbn zeta.
  by replace (0 <=? Qtruncate x) with false by lia.
Qed.

Section Seek.
Variables (l : list (option AUDIO_PLAYER)) (sr dbg ldbg : Z) (i : nat).
Hypothesis Hi : (i < length l)%nat.

Local Abbreviation W q log := (Build_world (<[i := Some q]> l) sr dbg ldbg log).

(** The duration [get_duration] reports for an open player. *)
Local Abbreviation duration_of p :=
  (if (file_open p =? 2) && negb (sf.samplerate (sf_info p) =? 0)
   then Qdiv (inject_Z (sf.frames (sf_info p))) (inject_Z (sf.samplerate (sf_info p)))
   else inject_Z 0).

Lemma set_position_exec p log h time :
  0 <= h < MAX_PLAYERS -> Z.to_nat h = i ->
  file_open p = 2 -> 0 < frames p <= 2 ^ 32 -> (0 <= src_ratio p)%Q ->
  0 <= sf.frames (sf_info p) -> 0 <= sf.samplerate (sf_info p) -> (0 <= time)%Q ->
  exists pos,
    set_position h time (W p log)
    = Done (tt, W (p <| play_pos_frames := pos |>
                     <| file_read_status := SEEKING |>
                     <| ringbuffer_b := jack_ringbuffer_reset (ringbuffer_b p) |>
                     <| ringbuffer_a := jack_ringbuffer_reset (ringbuffer_a p) |>) log)
    /\ 0 <= pos < frames p.
Proof.
  intros Hh Hhi Hopen Hframes Hratio Hsf Hsr Htime. unfold set_position.
  rewrite exec_get_player, exec_deref by done.
  rewrite Hopen. cbn [negb Z.eqb Pos.eqb].
  rewrite get_duration_exec by done.
  set (dur := if _ && _ then _ else _).
  assert (0 <= dur)%Q as Hdur.
  { subst dur. destruct (_ && _); [by apply Qdiv_nonneg | apply Qle_refl]. }
  assert (forall time' : Q, (0 <= time')%Q ->
    exists pos,
    (do p0 <- deref i;
     do pos <- double_to_u32
                 (if Qle_bool (inject_Z (frames p0))
                       (src_ratio p0 * time' * inject_Z (sf.samplerate (sf_info p0)))
                  then inject_Z ((frames p0 - 1) mod 2 ^ 64)
                  else (src_ratio p0 * time' * inject_Z (sf.samplerate (sf_info p0)))%Q);
     run store i (fun p => p <| play_pos_frames := pos |>);
     run store i (fun p => p <| file_read_status := SEEKING |>);
     run store i (fun p => p <| ringbuffer_b := jack_ringbuffer_reset (ringbuffer_b p) |>);
     store i (fun p => p <| ringbuffer_a := jack_ringbuffer_reset (ringbuffer_a p) |>))
      (W p log)
    = Done (tt, W (p <| play_pos_frames := pos |>
                     <| file_read_status := SEEKING |>
                     <| ringbuffer_b := jack_ringbuffer_reset (ringbuffer_b p) |>
                     <| ringbuffer_a := jack_ringbuffer_reset (ringbuffer_a p) |>) log)
    /\ 0 <= pos < frames p)
    as Hrest.
  { intros time' Htime'. rewrite exec_deref by done.
    set (frames0 := (src_ratio p * time' * inject_Z (sf.samplerate (sf_info p)))%Q).
    assert (0 <= frames0)%Q as Hf0.
    { subst frames0. apply Qmult_le_0_compat; [by apply Qmult_le_0_compat|].
      unfold Qle, inject_Z. cbn. lia. }
    set (frames1 := if Qle_bool _ _ then _ else _).
    assert (0 <= Qtruncate frames1 < frames p) as Hpos.
    { subst frames1. destruct (Qle_bool (inject_Z (frames p)) frames0) eqn:E.
      - rewrite Qtruncate_inject_Z. rewrite Z.mod_small; lia.
      - apply Qtruncate_bounds; [done|].
        apply Qnot_le_lt. intros Hle. apply Qle_bool_iff in Hle. congruence. }
    exists (Qtruncate frames1). split; [|done].
    rewrite double_to_u32_in_range by lia. rewrite bind_ret.
    rewrite !exec_store by done. rewrite bind_ret_r, exec_store by done.
    destruct p; reflexivity. }
  destruct (Qle_bool dur time) eqn:Ele.
  - rewrite get_duration_exec by done. fold dur. by apply Hrest.
  - rewrite bind_ret. by apply Hrest.
Qed.

(** A time at or beyond the duration is replaced by the duration. *)
Lemma set_position_beyond_end p log h time :
  0 <= h < MAX_PLAYERS -> Z.to_nat h = i -> file_open p = 2 ->
  (duration_of p <= time)%Q ->
  set_position h time (W p log) = set_position h (duration_of p) (W p log).
Proof.
  intros Hh Hhi Hopen Hle. unfold set_position.
  rewrite !exec_get_player, !exec_deref by done.
  replace (negb (file_open p =? 2)) with false by (by rewrite Hopen).
  rewrite !get_duration_exec by done.
  set (dur := if _ && _ then _ else _) in *.
  replace (Qle_bool dur time) with true by (symmetry; by apply Qle_bool_iff).
  replace (Qle_bool dur dur) with true by (symmetry; apply Qle_bool_iff, Qle_refl).
  rewrite !get_duration_exec by done. reflexivity.
Qed.

(** A negative time is not rejected; when it amounts to one frame or more,
    the conversion of the negative frame number to [jack_nframes_t] is
    undefined. *)
Lemma set_position_negative p log h time :
  0 <= h < MAX_PLAYERS -> Z.to_nat h = i -> file_open p = 2 ->
  0 < frames p -> 0 <= sf.frames (sf_info p) -> 0 <= sf.samplerate (sf_info p) ->
  (time < 0)%Q ->
  (src_ratio p * time * inject_Z (sf.samplerate (sf_info p)) <= -1)%Q ->
  set_position h time (W p log) = Fault.
Proof.
  intros Hh Hhi Hopen Hframes Hsf Hsr Htime Hneg. unfold set_position.
  rewrite exec_get_player, exec_deref by done.
  rewrite Hopen. cbn [negb Z.eqb Pos.eqb].
  rewrite get_duration_exec by done.
  set (dur := if _ && _ then _ else _).
  assert (0 <= dur)%Q as Hdur.
  { subst dur. destruct (_ && _); [by apply Qdiv_nonneg | apply Qle_refl]. }
  replace (Qle_bool dur time) with false.
  2:{ symmetry. destruct (Qle_bool dur time) eqn:E; [|done].
      apply Qle_bool_iff in E. exfalso.
      apply (Qlt_not_le _ _ Htime). by apply Qle_trans with dur. }
  rewrite bind_ret, exec_deref by done.
  set (frames0 := (src_ratio p * time * inject_Z (sf.samplerate (sf_info p)))%Q) in *.
  replace (Qle_bool (inject_Z (frames p)) frames0) with false.
  2:{ symmetry. destruct (Qle_bool (inject_Z (frames p)) frames0) eqn:E; [|done].
      apply Qle_bool_iff in E. exfalso.
      assert (inject_Z (frames p) <= -1)%Q as Hc by (by apply Qle_trans with frames0).
      unfold Qle, inject_Z in Hc. cbn in Hc. lia. }
  rewrite double_to_u32_negative by (by apply Qtruncate_negative).
  reflexivity.
Qed.
End Seek.

(** X10.  [set_position] with a time that is not negative, on an open
    player with a frame count from 1 to 2^32: the play position lands inside
    the file, [0 <= play_pos_frames < frames], the read status becomes
    [SEEKING] and both ring buffers are emptied; no other field changes and
    no callback is called.  A time at or beyond the duration is the same
    request as the duration itself. *)
Theorem set_position_lands_in_file (w : world) (i : nat) (p : AUDIO_PLAYER) (time : Q) :
  g_players w !! i = Some (Some p) -> (i < 16)%nat ->
  file_open p = 2 -> 0 < frames p <= 2 ^ 32 -> (0 <= src_ratio p)%Q ->
  0 <= sf.frames (sf_info p) -> 0 <= sf.samplerate (sf_info p) -> (0 <= time)%Q ->
  exists w' p',
    set_position (Z.of_nat i) time w = Done (tt, w')
    /\ g_players w' = <[i := Some p']> (g_players w)
    /\ 0 <= play_pos_frames p' < frames p'
    /\ file_read_status p' = SEEKING
    /\ rb_buf (ringbuffer_a p') = [] /\ rb_buf (ringbuffer_b p') = []
    /\ p' = p <| play_pos_frames := play_pos_frames p' |>
              <| file_read_status := SEEKING |>
              <| ringbuffer_b := jack_ringbuffer_reset (ringbuffer_b p) |>
              <| ringbuffer_a := jack_ringbuffer_reset (ringbuffer_a p) |>
    /\ cb_log w' = cb_log w
    /\ (forall d, get_duration (Z.of_nat i) w = Done (d, w) -> (d <= time)%Q ->
          set_position (Z.of_nat i) d w = Done (tt, w')).
Proof.
  intros Hl Hi Hopen Hframes Hratio Hsf Hsr Htime.
  assert (0 <= Z.of_nat i < MAX_PLAYERS) as Hh by (unfold MAX_PLAYERS; lia).
  assert (Z.to_nat (Z.of_nat i) = i) as Hhi by lia.
  shape_world w Hl.
  set (l := g_players w) in *. set (sr := g_samplerate w). set (dbg := g_debug w).
  set (ldbg := g_last_debug w). set (log := cb_log w).
  destruct (set_position_exec l sr dbg ldbg i Hlen p log (Z.of_nat i) time)
    as (pos & E & Hpos); try done.
  eexists _, _. split; [exact E|]. cbn [g_players cb_log].
  split; [by rewrite list_insert_insert_eq|].
  split; [by destruct p|]. split; [by destruct p|].
  split; [by destruct p|]. split; [by destruct p|].
  split; [by destruct p|]. split; [done|].
  intros d Hd Hle.
  pose proof (get_duration_exec l sr dbg ldbg i Hlen p log (Z.of_nat i) ret Hh Hhi) as Ed.
  rewrite <- bind_ret_r in Ed. rewrite Ed in Hd. injection Hd as <-.
  rewrite <- E. symmetry. by apply set_position_beyond_end.
Qed.

Lemma set_position_lands_in_file_witness :
  exists w' p',
    set_position 0 100 (world_with (open_player 0 48000 2 PLAYING LOADING [1%Q] [1%Q]))
    = Done (tt, w')
    /\ g_players w' !! 0%nat = Some (Some p')
    /\ 0 <= play_pos_frames p' < frames p'
    /\ file_read_status p' = SEEKING.
Proof.
  destruct (set_position_lands_in_file
              (world_with (open_player 0 48000 2 PLAYING LOADING [1%Q] [1%Q])) 0%nat
              (open_player 0 48000 2 PLAYING LOADING [1%Q] [1%Q]) 100)
    as (w' & p' & H1 & H2 & H3 & H4 & _);
    [reflexivity | lia | reflexivity | simpl; lia | discriminate | simpl; lia
    | simpl; lia | discriminate |].
  exists w', p'. split; [exact H1|]. split; [by rewrite H2|]. split; [exact H3 | exact H4].
Defined.

(** X11.  [set_position] does not reject a negative time.  On an open
    player, a negative time that amounts to one frame or more makes the
    function convert a negative frame number to the unsigned
    [jack_nframes_t], which C leaves undefined. *)
Theorem set_position_negative_time_is_undefined (w : world) (i : nat)
    (p : AUDIO_PLAYER) (time : Q) :
  g_players w !! i = Some (Some p) -> (i < 16)%nat ->
  file_open p = 2 -> 0 < frames p ->
  0 <= sf.frames (sf_info p) -> 0 <= sf.samplerate (sf_info p) ->
  (time < 0)%Q ->
  (src_ratio p * time * inject_Z (sf.samplerate (sf_info p)) <= -1)%Q ->
  set_position (Z.of_nat i) time w = Fault.
Proof.
  intros Hl Hi Hopen Hframes Hsf Hsr Htime Hneg.
  shape_world w Hl.
  apply set_position_negative; try done; unfold MAX_PLAYERS; lia.
Qed.

Lemma set_position_negative_time_is_undefined_witness :
  set_position 0 (-1) (world_with (open_player 0 48000 2 PLAYING LOADING [1%Q] [1%Q]))
  = Fault.
Proof.
  apply (set_position_negative_time_is_undefined
           (world_with (open_player 0 48000 2 PLAYING LOADING [1%Q] [1%Q])) 0%nat
           (open_player 0 48000 2 PLAYING LOADING [1%Q] [1%Q]) (-1));
    [reflexivity | lia | reflexivity | simpl; lia | simpl; lia | simpl; lia
    | reflexivity | discriminate].
Defined.
(** ** Queries *)

Lemma with_shadows_of_keeps p p' :
  p' = with_shadows_of p' p ->
  handle p' = handle p /\ jack_client p' = jack_client p /\ file_open p' = file_open p
  /\ file_read_status p' = file_read_status p /\ play_state p' = play_state p
  /\ loop p' = loop p /\ gain p' = gain p /\ track_a p' = track_a p
  /\ track_b p' = track_b p /\ buffer_size p' = buffer_size p
  /\ buffer_count p' = buffer_count p /\ src_quality p' = src_quality p
  /\ sf_info p' = sf_info p /\ ringbuffer_a p' = ringbuffer_a p
  /\ ringbuffer_b p' = ringbuffer_b p /\ play_pos_frames p' = play_pos_frames p
  /\ frames p' = frames p.
Proof. intros ->. unfold with_shadows_of. destruct p; cbn. auto 20. Qed.

(** X12.  The queries of the control surface read and never write: for
    every handle other than 16 each returns with the state unchanged.  The
    value is the field of the player when the handle denotes a player with an
    open file, and otherwise the default of the query (0, [STOPPED], the
    empty name, converter 2, the JACK sample rate); the two buffer queries
    answer for every player, open or not.  [get_frames] and the default of
    [get_samplerate] are converted to [int].  [save] always fails. *)
Theorem queries_read_only (w : world) (h : Z) (name : string) :
  h <> MAX_PLAYERS ->
  get_gain h w = Done (from_option gain 0%Q (open_player_at h w), w)
  /\ is_loop h w = Done (from_option loop 0 (open_player_at h w), w)
  /\ get_playback_state h w = Done (from_option play_state STOPPED (open_player_at h w), w)
  /\ get_src_quality h w = Done (from_option src_quality 2 (open_player_at h w), w)
  /\ get_track_a h w = Done (from_option track_a 0 (open_player_at h w), w)
  /\ get_track_b h w = Done (from_option track_b 0 (open_player_at h w), w)
  /\ get_filename h w = Done (from_option filename EmptyString (open_player_at h w), w)
  /\ get_samplerate h w
     = Done (from_option (fun p => sf.samplerate (sf_info p)) (to_int (g_samplerate w))
               (open_player_at h w), w)
  /\ get_channels h w
     = Done (from_option (fun p => sf.channels (sf_info p)) 0 (open_player_at h w), w)
  /\ get_frames h w
     = Done (from_option (fun p => to_int (sf.frames (sf_info p))) 0 (open_player_at h w), w)
  /\ get_format h w
     = Done (from_option (fun p => sf.format (sf_info p)) 0 (open_player_at h w), w)
  /\ get_buffer_size h w = Done (from_option buffer_size 0 (player_at h w), w)
  /\ get_buffer_count h w = Done (from_option buffer_count 0 (player_at h w), w)
  /\ save h name w = Done (0, w).
Proof.
  intros Hne. pose proof (get_player_player_at h w Hne) as E.
  unfold open_player_at.
  destruct (player_at h w) as [p|] eqn:Hp.
  - pose proof (deref_player_at h w p Hp) as D.
    repeat split;
      unfold get_gain, is_loop, get_playback_state, get_src_quality, get_track_a,
        get_track_b, get_filename, get_samplerate, get_channels, get_frames, get_format,
        get_buffer_size, get_buffer_count, save;
      rewrite (bind_Done _ _ _ _ _ E); rewrite (bind_Done _ _ _ _ _ D);
      by destruct (file_open p =? 2).
  - repeat split;
      unfold get_gain, is_loop, get_playback_state, get_src_quality, get_track_a,
        get_track_b, get_filename, get_samplerate, get_channels, get_frames, get_format,
        get_buffer_size, get_buffer_count, save;
      by rewrite (bind_Done _ _ _ _ _ E).
Qed.

Lemma queries_read_only_witness :
  get_gain 0 (world_with ((init_player 0) <| gain := Num 2 |>))
  = Done (Num 0, world_with ((init_player 0) <| gain := Num 2 |>))
  /\ get_samplerate 0 (world_with ((init_player 0) <| gain := Num 2 |>))
     = Done (48000, world_with ((init_player 0) <| gain := Num 2 |>))
  /\ get_buffer_size 0 (world_with ((init_player 0) <| gain := Num 2 |>))
     = Done (48000, world_with ((init_player 0) <| gain := Num 2 |>)).
Proof.
  destruct (queries_read_only (world_with ((init_player 0) <| gain := Num 2 |>)) 0 EmptyString)
    as (H1 & _ & _ & _ & _ & _ & _ & H8 & _ & _ & _ & H12 & _);
    [unfold MAX_PLAYERS; lia|].
  split; [exact H1|]. split; [exact H8 | exact H12].
Defined.

(** The queries used below, on a world whose slot [i] holds [p]. *)
Lemma queries_at_slot l sr dbg ldbg log (i : nat) p :
  (i < length l)%nat -> (i < 16)%nat ->
  is_loop (Z.of_nat i) (Build_world (<[i := Some p]> l) sr dbg ldbg log)
  = Done (from_option loop 0 (if file_open p =? 2 then Some p else None),
          Build_world (<[i := Some p]> l) sr dbg ldbg log)
  /\ get_playback_state (Z.of_nat i) (Build_world (<[i := Some p]> l) sr dbg ldbg log)
     = Done (from_option play_state STOPPED (if file_open p =? 2 then Some p else None),
             Build_world (<[i := Some p]> l) sr dbg ldbg log)
  /\ get_src_quality (Z.of_nat i) (Build_world (<[i := Some p]> l) sr dbg ldbg log)
     = Done (from_option src_quality 2 (if file_open p =? 2 then Some p else None),
             Build_world (<[i := Some p]> l) sr dbg ldbg log)
  /\ get_track_a (Z.of_nat i) (Build_world (<[i := Some p]> l) sr dbg ldbg log)
     = Done (from_option track_a 0 (if file_open p =? 2 then Some p else None),
             Build_world (<[i := Some p]> l) sr dbg ldbg log)
  /\ get_track_b (Z.of_nat i) (Build_world (<[i := Some p]> l) sr dbg ldbg log)
     = Done (from_option track_b 0 (if file_open p =? 2 then Some p else None),
             Build_world (<[i := Some p]> l) sr dbg ldbg log)
  /\ get_buffer_size (Z.of_nat i) (Build_world (<[i := Some p]> l) sr dbg ldbg log)
     = Done (buffer_size p, Build_world (<[i := Some p]> l) sr dbg ldbg log)
  /\ get_buffer_count (Z.of_nat i) (Build_world (<[i := Some p]> l) sr dbg ldbg log)
     = Done (buffer_count p, Build_world (<[i := Some p]> l) sr dbg ldbg log).
Proof.
  intros Hlen Hi.
  assert (0 <= Z.of_nat i < MAX_PLAYERS) as Hh by (unfold MAX_PLAYERS; lia).
  assert (Z.to_nat (Z.of_nat i) = i) as Hhi by lia.
  repeat split;
    unfold is_loop, get_playback_state, get_src_quality, get_track_a, get_track_b,
      get_buffer_size, get_buffer_count;
    rewrite exec_get_player, exec_deref by done;
    by destruct (file_open p =? 2).
Qed.

Lemma get_samplerate_at h w :
  h <> MAX_PLAYERS ->
  get_samplerate h w
  = Done (from_option (fun p => sf.samplerate (sf_info p)) (to_int (g_samplerate w))
            (open_player_at h w), w).
Proof.
  intros Hne. pose proof (get_player_player_at h w Hne) as E.
  unfold open_player_at, get_samplerate. rewrite (bind_Done _ _ _ _ _ E).
  destruct (player_at h w) as [p|] eqn:Hp; [|done].
  rewrite (bind_Done _ _ _ _ _ (deref_player_at h w p Hp)).
  by destruct (file_open p =? 2).
Qed.

(** X13.  [on_jack_samplerate] stores the rate of JACK and touches no
    player; the rate is what [get_samplerate] then reports for every handle
    without an open file, while a player with an open file keeps reporting
    the rate of its file. *)
Theorem jack_rate_is_reported_without_file (w : world) (nFrames h : Z) :
  h <> MAX_PLAYERS ->
  exists w',
    on_jack_samplerate nFrames w = Done (0, w')
    /\ g_players w' = g_players w /\ g_debug w' = g_debug w /\ cb_log w' = cb_log w
    /\ (open_player_at h w = None -> get_samplerate h w' = Done (to_int nFrames, w'))
    /\ (0 <= nFrames < 2 ^ 31 -> to_int nFrames = nFrames)
    /\ (forall p, open_player_at h w = Some p ->
          get_samplerate h w' = Done (sf.samplerate (sf_info p), w')).
Proof.
  intros Hne. eexists. split; [reflexivity|].
  destruct w as [l sr dbg ldbg log]. cbn.
  split; [done|]. split; [done|]. split; [done|].
  set (w' := Build_world l nFrames dbg ldbg log).
  pose proof (get_samplerate_at h w' Hne) as E.
  assert (open_player_at h w' = open_player_at h (Build_world l sr dbg ldbg log)) as Ho
    by reflexivity.
  split; [|split].
  - intros Hn. rewrite E, Ho, Hn. reflexivity.
  - intros Hr. unfold to_int. rewrite Z.mod_small; lia.
  - intros p Hp. rewrite E, Ho, Hp. reflexivity.
Qed.

Lemma jack_rate_is_reported_without_file_witness :
  exists w',
    on_jack_samplerate 44100 (world_with (init_player 0)) = Done (0, w')
    /\ get_samplerate 0 w' = Done (44100, w').
Proof.
  destruct (jack_rate_is_reported_without_file (world_with (init_player 0)) 44100 0)
    as (w' & H1 & _ & _ & _ & H2 & _); [unfold MAX_PLAYERS; lia|].
  exists w'. split; [exact H1|]. apply H2. reflexivity.
Defined.

(** ** Settings *)

Section Settings.
Variables (l : list (option AUDIO_PLAYER)) (sr dbg ldbg : Z) (i : nat).
Hypothesis Hi : (i < length l)%nat.
Hypothesis Hslot : (i < 16)%nat.

Local Abbreviation W q g log := (Build_world (<[i := Some q]> l) sr dbg g log).

Lemma set_src_quality_exec p log h quality :
  0 <= h < MAX_PLAYERS -> Z.to_nat h = i -> handle p = Z.of_nat i ->
  file_open p = 2 ->
  exists p' ldbg' log',
    set_src_quality h quality (W p ldbg log)
    = Done (if quality >? SRC_LINEAR then 0 else 1, W p' ldbg' log')
    /\ (SRC_LINEAR < quality -> p' = p /\ ldbg' = ldbg /\ log' = log)
    /\ (quality <= SRC_LINEAR -> p' = with_shadows_of p' (p <| src_quality := quality |>)).
Proof.
  intros Hh Hhi Hhandle Hopen. unfold set_src_quality.
  rewrite exec_get_player, exec_deref by done. rewrite Hopen. cbn [negb Z.eqb Pos.eqb].
  destruct (quality >? SRC_LINEAR) eqn:Eq.
  - exists p, ldbg, log. split; [reflexivity|]. split; [done|]. lia.
  - rewrite exec_store by done.
    destruct (send_notifications_updates_shadows i NOTIFY_QUALITY l sr dbg ldbg log
                (p <| src_quality := quality |>) Hi Hslot ltac:(by destruct p))
      as (p' & ldbg' & log' & E & R & _).
    rewrite (bind_Done _ _ _ _ _ E).
    exists p', ldbg', log'. split; [reflexivity|]. split; [lia | done].
Qed.

Lemma enable_loop_exec p log h bLoop :
  0 <= h < MAX_PLAYERS -> Z.to_nat h = i -> handle p = Z.of_nat i ->
  exists p' ldbg' log',
    enable_loop h bLoop (W p ldbg log) = Done (tt, W p' ldbg' log')
    /\ p' = with_shadows_of p'
              (p <| loop := bLoop |>
                 <| file_read_status :=
                      if negb (file_open p =? 2) && negb (bLoop =? 0)
                         && bool_decide (file_read_status p = IDLE)
                      then LOOPING else file_read_status p |>).
Proof.
  intros Hh Hhi Hhandle. unfold enable_loop.
  rewrite exec_get_player by done. rewrite exec_store, exec_deref by done.
  replace (file_open (p <| loop := bLoop |>)) with (file_open p) by (by destruct p).
  replace (file_read_status (p <| loop := bLoop |>)) with (file_read_status p)
    by (by destruct p).
  destruct (negb (file_open p =? 2) && negb (bLoop =? 0)
            && bool_decide (file_read_status p = IDLE)) eqn:Ec; unfold when.
  - rewrite exec_store by done.
    destruct (send_notifications_updates_shadows i NOTIFY_LOOP l sr dbg ldbg log
                (p <| loop := bLoop |> <| file_read_status := LOOPING |>)
                Hi Hslot ltac:(by destruct p))
      as (p' & ldbg' & log' & E & R & _).
    exists p', ldbg', log'. split; [exact E | exact R].
  - rewrite bind_ret.
    destruct (send_notifications_updates_shadows i NOTIFY_LOOP l sr dbg ldbg log
                (p <| loop := bLoop |>) Hi Hslot ltac:(by destruct p))
      as (p' & ldbg' & log' & E & R & _).
    exists p', ldbg', log'. split; [exact E|].
    rewrite R at 1. by destruct p.
Qed.

Lemma set_track_a_exec p log h track :
  0 <= h < MAX_PLAYERS -> Z.to_nat h = i -> handle p = Z.of_nat i ->
  file_open p = 2 -> 0 < frames p <= 2 ^ 32 ->
  (0 <= src_ratio p)%Q -> (0 <= src_ratio_inv p)%Q ->
  0 <= sf.frames (sf_info p) -> 0 <= sf.samplerate (sf_info p) ->
  0 <= play_pos_frames p ->
  exists pos p' ldbg' log',
    set_track_a h track (W p ldbg log) = Done (tt, W p' ldbg' log')
    /\ 0 <= pos < frames p
    /\ p' = with_shadows_of p'
              (p <| track_a := if track <? sf.channels (sf_info p)
                               then if sf.channels (sf_info p) =? 1 then 0 else track
                               else track_a p |>
                 <| play_pos_frames := pos |>
                 <| file_read_status := SEEKING |>
                 <| ringbuffer_b := jack_ringbuffer_reset (ringbuffer_b p) |>
                 <| ringbuffer_a := jack_ringbuffer_reset (ringbuffer_a p) |>).
Proof.
  intros Hh Hhi Hhandle Hopen Hframes Hratio Hinv Hsf Hsr Hpos. unfold set_track_a.
  rewrite exec_get_player, exec_deref by done. rewrite Hopen. cbn [negb Z.eqb Pos.eqb andb].
  set (p1 := p <| track_a := if track <? sf.channels (sf_info p)
                             then if sf.channels (sf_info p) =? 1 then 0 else track
                             else track_a p |>).
  assert (forall k : unit -> M unit,
            bind (when (track <? sf.channels (sf_info p))
                    (if sf.channels (sf_info p) =? 1
                     then store i (fun p => p <| track_a := 0 |>)
                     else store i (fun p => p <| track_a := track |>))) k (W p ldbg log)
            = k tt (W p1 ldbg log)) as Hstore.
  { intros k. subst p1. destruct (track <? sf.channels (sf_info p)); unfold when.
    - destruct (sf.channels (sf_info p) =? 1); by rewrite exec_store.
    - rewrite bind_ret. by destruct p. }
  rewrite Hstore. clear Hstore.
  rewrite get_position_exec by done.
  set (time := if _ && _ then _ else _).
  assert (0 <= time)%Q as Htime.
  { subst time. destruct (_ && _); [|apply Qle_refl].
    unfold Qdiv. apply Qmult_le_0_compat.
    - apply Qmult_le_0_compat; [by destruct p|].
      unfold Qle, inject_Z. cbn. destruct p; cbn in *. lia.
    - apply Qinv_le_0_compat. unfold Qle, inject_Z. cbn. destruct p; cbn in *. lia. }
  destruct (set_position_exec l sr dbg ldbg i Hi p1 log h time)
    as (pos & E & Hbound); try done; try (by destruct p).
  rewrite (bind_Done _ _ _ _ _ E).
  match goal with
  | |- context [send_notifications _ _ (Build_world (<[i := Some ?q]> l) _ _ _ _)] =>
      destruct (send_notifications_updates_shadows i NOTIFY_TRACK_A l sr dbg ldbg log q
                  Hi Hslot ltac:(by destruct p))
        as (p' & ldbg' & log' & E' & R & _)
  end.
  exists pos, p', ldbg', log'. split; [exact E'|].
  split; [by destruct p|]. rewrite R at 1. by destruct p.
Qed.

Lemma set_track_b_exec p log h track :
  0 <= h < MAX_PLAYERS -> Z.to_nat h = i -> handle p = Z.of_nat i ->
  file_open p = 2 -> 0 < frames p <= 2 ^ 32 ->
  (0 <= src_ratio p)%Q -> (0 <= src_ratio_inv p)%Q ->
  0 <= sf.frames (sf_info p) -> 0 <= sf.samplerate (sf_info p) ->
  0 <= play_pos_frames p ->
  exists pos p' ldbg' log',
    set_track_b h track (W p ldbg log) = Done (tt, W p' ldbg' log')
    /\ 0 <= pos < frames p
    /\ p' = with_shadows_of p'
              (p <| track_b := if track <? sf.channels (sf_info p)
                               then if sf.channels (sf_info p) =? 1 then 0 else track
                               else track_b p |>
                 <| play_pos_frames := pos |>
                 <| file_read_status := SEEKING |>
                 <| ringbuffer_b := jack_ringbuffer_reset (ringbuffer_b p) |>
                 <| ringbuffer_a := jack_ringbuffer_reset (ringbuffer_a p) |>).
Proof.
  intros Hh Hhi Hhandle Hopen Hframes Hratio Hinv Hsf Hsr Hpos. unfold set_track_b.
  rewrite exec_get_player, exec_deref by done. rewrite Hopen. cbn [negb Z.eqb Pos.eqb andb].
  set (p1 := p <| track_b := if track <? sf.channels (sf_info p)
                             then if sf.channels (sf_info p) =? 1 then 0 else track
                             else track_b p |>).
  assert (forall k : unit -> M unit,
            bind (when (track <? sf.channels (sf_info p))
                    (if sf.channels (sf_info p) =? 1
                     then store i (fun p => p <| track_b := 0 |>)
                     else store i (fun p => p <| track_b := track |>))) k (W p ldbg log)
            = k tt (W p1 ldbg log)) as Hstore.
  { intros k. subst p1. destruct (track <? sf.channels (sf_info p)); unfold when.
    - destruct (sf.channels (sf_info p) =? 1); by rewrite exec_store.
    - rewrite bind_ret. by destruct p. }
  rewrite Hstore. clear Hstore.
  rewrite get_position_exec by done.
  set (time := if _ && _ then _ else _).
  assert (0 <= time)%Q as Htime.
  { subst time. destruct (_ && _); [|apply Qle_refl].
    unfold Qdiv. apply Qmult_le_0_compat.
    - apply Qmult_le_0_compat; [by destruct p|].
      unfold Qle, inject_Z. cbn. destruct p; cbn in *. lia.
    - apply Qinv_le_0_compat. unfold Qle, inject_Z. cbn. destruct p; cbn in *. lia. }
  destruct (set_position_exec l sr dbg ldbg i Hi p1 log h time)
    as (pos & E & Hbound); try done; try (by destruct p).
  rewrite (bind_Done _ _ _ _ _ E).
  match goal with
  | |- context [send_notifications _ _ (Build_world (<[i := Some ?q]> l) _ _ _ _)] =>
      destruct (send_notifications_updates_shadows i NOTIFY_TRACK_B l sr dbg ldbg log q
                  Hi Hslot ltac:(by destruct p))
        as (p' & ldbg' & log' & E' & R & _)
  end.
  exists pos, p', ldbg', log'. split; [exact E'|].
  split; [by destruct p|]. rewrite R at 1. by destruct p.
Qed.
End Settings.

Lemma player_at_slot l sr dbg ldbg log (i : nat) p :
  (i < length l)%nat -> (i < 16)%nat ->
  player_at (Z.of_nat i) (Build_world (<[i := Some p]> l) sr dbg ldbg log) = Some p.
Proof.
  intros Hlen Hi. unfold player_at.
  replace (0 <=? Z.of_nat i) with true by lia.
  replace (Z.of_nat i <? MAX_PLAYERS) with true by (unfold MAX_PLAYERS; lia).
  cbn. rewrite Nat2Z.id. by rewrite list_lookup_insert_eq.
Qed.

Lemma open_player_at_slot l sr dbg ldbg log (i : nat) p :
  (i < length l)%nat -> (i < 16)%nat ->
  open_player_at (Z.of_nat i) (Build_world (<[i := Some p]> l) sr dbg ldbg log)
  = if file_open p =? 2 then Some p else None.
Proof. intros Hlen Hi. unfold open_player_at. by rewrite player_at_slot. Qed.

Lemma handle_16 (i : nat) : (i < 16)%nat -> Z.of_nat i <> MAX_PLAYERS.
Proof. unfold MAX_PLAYERS. lia. Qed.

(** X14.  [set_src_quality] on a player with an open file accepts the
    converter types 0 to 4 ([SRC_LINEAR]): the value is stored, the function
    returns 1 and [get_src_quality] returns the value.  A larger value is
    refused: the function returns 0 and the state is unchanged. *)
Theorem set_src_quality_accepts_0_to_4 (w : world) (i : nat) (p : AUDIO_PLAYER)
    (quality : Z) :
  g_players w !! i = Some (Some p) -> (i < 16)%nat -> handle p = Z.of_nat i ->
  file_open p = 2 -> 0 <= quality ->
  (quality <= 4 ->
     exists w' p',
       set_src_quality (Z.of_nat i) quality w = Done (1, w')
       /\ g_players w' = <[i := Some p']> (g_players w)
       /\ p' = with_shadows_of p' (p <| src_quality := quality |>)
       /\ get_src_quality (Z.of_nat i) w' = Done (quality, w'))
  /\ (4 < quality ->
        set_src_quality (Z.of_nat i) quality w = Done (0, w)
        /\ get_src_quality (Z.of_nat i) w = Done (src_quality p, w)).
Proof.
  intros Hl Hi Hhandle Hopen Hq.
  assert (0 <= Z.of_nat i < MAX_PLAYERS) as Hh by (unfold MAX_PLAYERS; lia).
  assert (Z.to_nat (Z.of_nat i) = i) as Hhi by lia.
  pose proof (lookup_lt_Some _ _ _ Hl) as Hlen.
  pose proof (proj1 (world_shape w i p Hl)) as Hw.
  destruct (set_src_quality_exec (g_players w) (g_samplerate w) (g_debug w)
              (g_last_debug w) i Hlen Hi p (cb_log w) (Z.of_nat i) quality Hh Hhi
              Hhandle Hopen)
    as (p' & ldbg' & log' & E & Hrej & Hacc).
  rewrite <- Hw in E. unfold SRC_LINEAR in *.
  split.
  - intros Hle. specialize (Hacc Hle).
    replace (quality >? 4) with false in E by lia.
    eexists _, p'. split; [exact E|]. cbn [g_players].
    split; [done|]. split; [done|].
    destruct (queries_at_slot (g_players w) (g_samplerate w) (g_debug w) ldbg' log' i p'
                Hlen Hi) as (_ & _ & -> & _).
    destruct (with_shadows_of_keeps _ _ Hacc)
      as (_ & _ & Hfo & _ & _ & _ & _ & _ & _ & _ & _ & Hsq & _).
    rewrite Hfo.
    replace (file_open (p <| src_quality := quality |>)) with (file_open p) by (by destruct p).
    rewrite Hopen. cbn [Z.eqb Pos.eqb from_option]. rewrite Hsq. by destruct p.
  - intros Hgt. destruct (Hrej Hgt) as (-> & -> & ->).
    replace (quality >? 4) with true in E by lia. rewrite <- Hw in E.
    split; [exact E|].
    destruct (queries_at_slot (g_players w) (g_samplerate w) (g_debug w) (g_last_debug w)
                (cb_log w) i p Hlen Hi) as (_ & _ & Eq & _).
    rewrite <- Hw in Eq. rewrite Eq. by rewrite Hopen.
Qed.

Lemma set_src_quality_accepts_0_to_4_witness :
  (exists w' p',
     set_src_quality 0 4 (world_with (open_player 0 48000 2 STOPPED IDLE [] []))
     = Done (1, w')
     /\ g_players w' !! 0%nat = Some (Some p')
     /\ get_src_quality 0 w' = Done (4, w'))
  /\ set_src_quality 0 5 (world_with (open_player 0 48000 2 STOPPED IDLE [] []))
     = Done (0, world_with (open_player 0 48000 2 STOPPED IDLE [] [])).
Proof.
  destruct (set_src_quality_accepts_0_to_4
              (world_with (open_player 0 48000 2 STOPPED IDLE [] [])) 0%nat
              (open_player 0 48000 2 STOPPED IDLE [] []) 4)
    as [Hacc _]; [reflexivity | lia | reflexivity | reflexivity | lia |].
  destruct (set_src_quality_accepts_0_to_4
              (world_with (open_player 0 48000 2 STOPPED IDLE [] [])) 0%nat
              (open_player 0 48000 2 STOPPED IDLE [] []) 5)
    as [_ Hrej]; [reflexivity | lia | reflexivity | reflexivity | lia |].
  split.
  - destruct Hacc as (w' & p' & H1 & H2 & _ & H3); [lia|].
    exists w', p'. split; [exact H1|]. split; [by rewrite H2 | exact H3].
  - apply Hrej. lia.
Defined.

(** X15.  [enable_loop] stores the flag on every player.  On a player
    with an open file nothing else changes but the notification shadows, not
    even the read status of a reader that is [IDLE] at the end of the file,
    and [is_loop] returns the flag.  On a player without an open file
    [is_loop] keeps returning 0, and a non-zero flag turns the read status
    [IDLE] into [LOOPING]. *)
Theorem enable_loop_stores_flag (w : world) (i : nat) (p : AUDIO_PLAYER) (bLoop : Z) :
  g_players w !! i = Some (Some p) -> (i < 16)%nat -> handle p = Z.of_nat i ->
  exists w' p',
    enable_loop (Z.of_nat i) bLoop w = Done (tt, w')
    /\ g_players w' = <[i := Some p']> (g_players w)
    /\ loop p' = bLoop
    /\ (file_open p = 2 ->
        p' = with_shadows_of p' (p <| loop := bLoop |>)
        /\ file_read_status p' = file_read_status p
        /\ is_loop (Z.of_nat i) w' = Done (bLoop, w'))
    /\ (file_open p <> 2 ->
        is_loop (Z.of_nat i) w' = Done (0, w')
        /\ (bLoop <> 0 -> file_read_status p = IDLE -> file_read_status p' = LOOPING)).
Proof.
  intros Hl Hi Hhandle.
  assert (0 <= Z.of_nat i < MAX_PLAYERS) as Hh by (unfold MAX_PLAYERS; lia).
  assert (Z.to_nat (Z.of_nat i) = i) as Hhi by lia.
  pose proof (lookup_lt_Some _ _ _ Hl) as Hlen.
  pose proof (proj1 (world_shape w i p Hl)) as Hw.
  destruct (enable_loop_exec (g_players w) (g_samplerate w) (g_debug w)
              (g_last_debug w) i Hlen Hi p (cb_log w) (Z.of_nat i) bLoop Hh Hhi Hhandle)
    as (p' & ldbg' & log' & E & R).
  rewrite <- Hw in E.
  eexists _, p'. split; [exact E|]. cbn [g_players]. split; [done|].
  destruct (with_shadows_of_keeps _ _ R)
    as (_ & _ & Hfo & Hfrs & _ & Hloop & _).
  destruct (queries_at_slot (g_players w) (g_samplerate w) (g_debug w) ldbg' log' i p'
              Hlen Hi) as (Eloop & _).
  replace (file_open p') with (file_open p) in Eloop by (rewrite Hfo; by destruct p).
  split; [rewrite Hloop; by destruct p|].
  split.
  - intros Hopen. rewrite Hopen in *. cbn in Eloop.
    split; [rewrite R at 1; by destruct p|].
    split; [rewrite Hfrs; by destruct p|].
    rewrite Eloop, Hloop. by destruct p.
  - intros Hclosed.
    replace (file_open p =? 2) with false in * by lia.
    split; [exact Eloop|].
    intros Hb Hidle. rewrite Hfrs.
    replace (bLoop =? 0) with false by lia.
    rewrite bool_decide_eq_true_2 by done. by destruct p.
Qed.

Lemma enable_loop_stores_flag_witness :
  exists w' p',
    enable_loop 0 1 (world_with (open_player 0 48000 2 PLAYING IDLE [] [])) = Done (tt, w')
    /\ g_players w' !! 0%nat = Some (Some p')
    /\ loop p' = 1
    /\ file_read_status p' = IDLE
    /\ is_loop 0 w' = Done (1, w').
Proof.
  destruct (enable_loop_stores_flag
              (world_with (open_player 0 48000 2 PLAYING IDLE [] [])) 0%nat
              (open_player 0 48000 2 PLAYING IDLE [] []) 1)
    as (w' & p' & H1 & H2 & H3 & H4 & _); [reflexivity | lia | reflexivity |].
  destruct H4 as (_ & H5 & H6); [reflexivity|].
  exists w', p'. split; [exact H1|]. split; [by rewrite H2|].
  split; [exact H3|]. split; [exact H5 | exact H6].
Defined.

(** X16.  [set_track_a] and [set_track_b] on a player with an open file:
    a track below the channel count is stored (0 instead for a mono file; -1,
    the request for the mix, is below every count), a track at or beyond the
    channel count leaves the selector as it is.  In every case the function
    then seeks to the current position: the read status becomes [SEEKING],
    both ring buffers are emptied and the play position stays inside the
    file.  The other selector is not touched, and [get_track_a] /
    [get_track_b] return the selector. *)
Theorem set_track_selects_below_channel_count (w : world) (i : nat)
    (p : AUDIO_PLAYER) (track : Z) :
  g_players w !! i = Some (Some p) -> (i < 16)%nat -> handle p = Z.of_nat i ->
  file_open p = 2 -> 0 < frames p <= 2 ^ 32 ->
  (0 <= src_ratio p)%Q -> (0 <= src_ratio_inv p)%Q ->
  0 <= sf.frames (sf_info p) -> 0 <= sf.samplerate (sf_info p) ->
  0 <= play_pos_frames p ->
  (exists w' p',
     set_track_a (Z.of_nat i) track w = Done (tt, w')
     /\ g_players w' = <[i := Some p']> (g_players w)
     /\ track_a p' = (if track <? sf.channels (sf_info p)
                      then if sf.channels (sf_info p) =? 1 then 0 else track
                      else track_a p)
     /\ track_b p' = track_b p
     /\ file_read_status p' = SEEKING
     /\ rb_buf (ringbuffer_a p') = [] /\ rb_buf (ringbuffer_b p') = []
     /\ 0 <= play_pos_frames p' < frames p'
     /\ get_track_a (Z.of_nat i) w' = Done (track_a p', w'))
  /\ (exists w' p',
        set_track_b (Z.of_nat i) track w = Done (tt, w')
        /\ g_players w' = <[i := Some p']> (g_players w)
        /\ track_b p' = (if track <? sf.channels (sf_info p)
                         then if sf.channels (sf_info p) =? 1 then 0 else track
                         else track_b p)
        /\ track_a p' = track_a p
        /\ file_read_status p' = SEEKING
        /\ rb_buf (ringbuffer_a p') = [] /\ rb_buf (ringbuffer_b p') = []
        /\ 0 <= play_pos_frames p' < frames p'
        /\ get_track_b (Z.of_nat i) w' = Done (track_b p', w')).
Proof.
  intros Hl Hi Hhandle Hopen Hframes Hratio Hinv Hsf Hsr Hpos.
  assert (0 <= Z.of_nat i < MAX_PLAYERS) as Hh by (unfold MAX_PLAYERS; lia).
  assert (Z.to_nat (Z.of_nat i) = i) as Hhi by lia.
  pose proof (lookup_lt_Some _ _ _ Hl) as Hlen.
  pose proof (proj1 (world_shape w i p Hl)) as Hw.
  split.
  - destruct (set_track_a_exec (g_players w) (g_samplerate w) (g_debug w)
                (g_last_debug w) i Hlen Hi p (cb_log w) (Z.of_nat i) track Hh Hhi
                Hhandle Hopen Hframes Hratio Hinv Hsf Hsr Hpos)
      as (pos & p' & ldbg' & log' & E & Hbound & R).
    rewrite <- Hw in E.
    eexists _, p'. split; [exact E|]. cbn [g_players]. split; [done|].
    destruct (with_shadows_of_keeps _ _ R)
      as (_ & _ & Hfo & Hfrs & _ & _ & _ & Hta & Htb & _ & _ & _ & _ & Hra & Hrb & Hpp & Hfr).
    destruct (queries_at_slot (g_players w) (g_samplerate w) (g_debug w) ldbg' log' i p'
                Hlen Hi) as (_ & _ & _ & Eq & _).
    replace (file_open p') with 2 in Eq by (rewrite Hfo; by destruct p).
    split; [rewrite Hta; by destruct p|].
    split; [rewrite Htb; by destruct p|].
    split; [rewrite Hfrs; by destruct p|].
    split; [rewrite Hra; by destruct p|].
    split; [rewrite Hrb; by destruct p|].
    split; [rewrite Hpp, Hfr; by destruct p|].
    exact Eq.
  - destruct (set_track_b_exec (g_players w) (g_samplerate w) (g_debug w)
                (g_last_debug w) i Hlen Hi p (cb_log w) (Z.of_nat i) track Hh Hhi
                Hhandle Hopen Hframes Hratio Hinv Hsf Hsr Hpos)
      as (pos & p' & ldbg' & log' & E & Hbound & R).
    rewrite <- Hw in E.
    eexists _, p'. split; [exact E|]. cbn [g_players]. split; [done|].
    destruct (with_shadows_of_keeps _ _ R)
      as (_ & _ & Hfo & Hfrs & _ & _ & _ & Hta & Htb & _ & _ & _ & _ & Hra & Hrb & Hpp & Hfr).
    destruct (queries_at_slot (g_players w) (g_samplerate w) (g_debug w) ldbg' log' i p'
                Hlen Hi) as (_ & _ & _ & _ & Eq & _).
    replace (file_open p') with 2 in Eq by (rewrite Hfo; by destruct p).
    split; [rewrite Htb; by destruct p|].
    split; [rewrite Hta; by destruct p|].
    split; [rewrite Hfrs; by destruct p|].
    split; [rewrite Hra; by destruct p|].
    split; [rewrite Hrb; by destruct p|].
    split; [rewrite Hpp, Hfr; by destruct p|].
    exact Eq.
Qed.

Lemma set_track_selects_below_channel_count_witness :
  exists w' p',
    set_track_a 0 2 (world_with (open_player 0 48000 2 PLAYING LOADING [1%Q] [1%Q]))
    = Done (tt, w')
    /\ g_players w' !! 0%nat = Some (Some p')
    /\ track_a p' = 0
    /\ file_read_status p' = SEEKING
    /\ rb_buf (ringbuffer_a p') = [].
Proof.
  destruct (set_track_selects_below_channel_count
              (world_with (open_player 0 48000 2 PLAYING LOADING [1%Q] [1%Q])) 0%nat
              (open_player 0 48000 2 PLAYING LOADING [1%Q] [1%Q]) 2)
    as [(w' & p' & H1 & H2 & H3 & _ & H4 & H5 & _) _];
    [reflexivity | lia | reflexivity | reflexivity | simpl; lia | discriminate
    | discriminate | simpl; lia | simpl; lia | simpl; lia |].
  exists w', p'. split; [exact H1|]. split; [by rewrite H2|].
  split; [exact H3|]. split; [exact H4 | exact H5].
Defined.

(** X17.  The buffer settings can only be changed while the player has
    no file: with [file_open = 0], [set_buffer_size] stores the size and
    [set_buffer_count] stores a count above 1, and the queries return them;
    with a file open or opening, and for a count of 0 or 1, the state is
    unchanged. *)
Theorem buffer_settings_need_closed_file (w : world) (i : nat) (p : AUDIO_PLAYER)
    (n : Z) :
  g_players w !! i = Some (Some p) -> (i < 16)%nat ->
  (file_open p = 0 ->
     (exists w', set_buffer_size (Z.of_nat i) n w = Done (tt, w')
                 /\ g_players w' = <[i := Some (p <| buffer_size := n |>)]> (g_players w)
                 /\ get_buffer_size (Z.of_nat i) w' = Done (n, w'))
     /\ (1 < n ->
         exists w', set_buffer_count (Z.of_nat i) n w = Done (tt, w')
                    /\ g_players w' = <[i := Some (p <| buffer_count := n |>)]> (g_players w)
                    /\ get_buffer_count (Z.of_nat i) w' = Done (n, w'))
     /\ (n <= 1 -> set_buffer_count (Z.of_nat i) n w = Done (tt, w)))
  /\ (file_open p <> 0 ->
        set_buffer_size (Z.of_nat i) n w = Done (tt, w)
        /\ set_buffer_count (Z.of_nat i) n w = Done (tt, w)).
Proof.
  intros Hl Hi.
  assert (0 <= Z.of_nat i < MAX_PLAYERS) as Hh by (unfold MAX_PLAYERS; lia).
  assert (Z.to_nat (Z.of_nat i) = i) as Hhi by lia.
  pose proof (lookup_lt_Some _ _ _ Hl) as Hlen.
  pose proof (proj1 (world_shape w i p Hl)) as Hw.
  set (l := g_players w) in *. set (sr := g_samplerate w) in *.
  set (dbg := g_debug w) in *. set (ldbg := g_last_debug w) in *.
  set (log := cb_log w) in *.
  assert (forall q, get_buffer_size (Z.of_nat i) (Build_world (<[i := Some q]> l) sr dbg ldbg log)
                    = Done (buffer_size q, Build_world (<[i := Some q]> l) sr dbg ldbg log)
                    /\ get_buffer_count (Z.of_nat i)
                         (Build_world (<[i := Some q]> l) sr dbg ldbg log)
                       = Done (buffer_count q, Build_world (<[i := Some q]> l) sr dbg ldbg log))
    as Hget.
  { intros q.
    destruct (queries_at_slot l sr dbg ldbg log i q Hlen Hi)
      as (_ & _ & _ & _ & _ & E1 & E2).
    done. }
  split.
  - intros Hclosed. split; [|split].
    + exists (Build_world (<[i := Some (p <| buffer_size := n |>)]> l) sr dbg ldbg log).
      split; [|split; [reflexivity | rewrite (proj1 (Hget _)); by destruct p]].
      rewrite Hw at 1. unfold set_buffer_size.
      rewrite exec_get_player, exec_deref by done. rewrite Hclosed. unfold when.
      cbn [Z.eqb]. rewrite bind_ret_r, exec_store by done. reflexivity.
    + intros Hn.
      exists (Build_world (<[i := Some (p <| buffer_count := n |>)]> l) sr dbg ldbg log).
      split; [|split; [reflexivity | rewrite (proj2 (Hget _)); by destruct p]].
      rewrite Hw at 1. unfold set_buffer_count.
      rewrite exec_get_player, exec_deref by done. rewrite Hclosed.
      replace (n >? 1) with true by lia. unfold when.
      cbn [Z.eqb andb]. rewrite bind_ret_r, exec_store by done. reflexivity.
    + intros Hn. rewrite Hw at 1. unfold set_buffer_count.
      rewrite exec_get_player, exec_deref by done.
      replace (n >? 1) with false by lia. rewrite andb_false_r. unfold when.
      by rewrite <- Hw.
  - intros Hopen. split; rewrite Hw at 1;
      unfold set_buffer_size, set_buffer_count;
      rewrite exec_get_player, exec_deref by done;
      replace (file_open p =? 0) with false by lia; unfold when; cbn [andb];
      by rewrite <- Hw.
Qed.

Lemma buffer_settings_need_closed_file_witness :
  (exists w', set_buffer_size 0 1024 (world_with (init_player 0)) = Done (tt, w')
              /\ get_buffer_size 0 w' = Done (1024, w'))
  /\ set_buffer_size 0 1024 (world_with (open_player 0 48000 2 STOPPED IDLE [] []))
     = Done (tt, world_with (open_player 0 48000 2 STOPPED IDLE [] [])).
Proof.
  destruct (buffer_settings_need_closed_file (world_with (init_player 0)) 0%nat
              (init_player 0) 1024) as [Hc _]; [reflexivity | lia |].
  destruct (buffer_settings_need_closed_file
              (world_with (open_player 0 48000 2 STOPPED IDLE [] [])) 0%nat
              (open_player 0 48000 2 STOPPED IDLE [] []) 1024) as [_ Ho];
    [reflexivity | lia |].
  split.
  - destruct Hc as [(w' & H1 & _ & H2) _]; [reflexivity|].
    exists w'. split; [exact H1 | exact H2].
  - apply Ho. simpl. lia.
Defined.
(** ** Transport requests and the callback *)

Lemma render_state_idle nFrames p :
  draining p = false -> 0 <= play_pos_frames p < frames p -> play_pos_frames p < 2 ^ 32 ->
  render_state nFrames p = p.
Proof.
  intros Hd Hpos H32. unfold render_state, stops, end_of_input, frames_drained.
  rewrite Hd. cbn [andb].
  assert (transport_after_start p = play_state p) as Ht.
  { unfold draining in Hd. apply orb_false_iff in Hd as [Hd _].
    unfold transport_after_start in *.
    destruct (bool_decide (play_state p = STARTING)
              && negb (bool_decide (file_read_status p = SEEKING))); [|done].
    by rewrite bool_decide_eq_true_2 in Hd. }
  assert (bool_decide (transport_after_start p = STOPPING) = false) as ->.
  { unfold draining in Hd. by apply orb_false_iff in Hd as [_ Hd]. }
  assert (bool_decide (transport_after_start p = PLAYING) = false) as ->.
  { unfold draining in Hd. by apply orb_false_iff in Hd as [Hd _]. }
  cbn [orb andb]. rewrite Ht.
  rewrite Z.add_0_r, (Z.mod_small _ (2 ^ 32)), Z.mod_small by lia.
  rewrite (Z.min_l 0) by lia. change (Z.to_nat 0) with 0%nat.
  destruct p as [? ? ? ? ? ? ? ? ? ? ? ? ? ? ? ? ? ? ? ? ? ? [bufA sizeA] [bufB sizeB]
                 ? ? ? ? ? ? ? ? ? ?].
  reflexivity.
Qed.

Lemma render_output_idle nFrames p ring pOut :
  0 <= nFrames -> draining p = false -> length pOut = Z.to_nat nFrames ->
  render_output nFrames p ring pOut = replicate (Z.to_nat nFrames) (Num 0).
Proof.
  intros Hn Hd Hlen. apply list_eq. intros k.
  destruct (decide (k < Z.to_nat nFrames)%nat) as [Hk|Hk].
  - rewrite lookup_replicate_2 by done.
    apply render_output_silence; [done | done |].
    unfold frames_drained. rewrite Hd. lia.
  - rewrite (proj1 (lookup_replicate_None _ _ _)) by lia.
    apply lookup_ge_None.
    unfold render_output, memset_tail, for_offsets, frames_drained. rewrite Hd.
    destruct (stops nFrames p); rewrite ?length_imap; rewrite length_copy_in;
      rewrite ?length_take; lia.
Qed.

(** X18.  While the transport is [STOPPED], or [STARTING] with the reader
    still [SEEKING], the callback plays nothing: both ports get a period of
    zeros, nothing is read from the ring buffers, and the whole state is as
    it was, so that a start request takes effect only after the seek is
    complete. *)
Theorem idle_callback_is_silent (w : world) (i : nat) (p : AUDIO_PLAYER)
    (nFrames : Z) (pOutA pOutB : list float) :
  g_players w !! i = Some (Some p) -> file_open p = 2 ->
  0 <= play_pos_frames p < frames p -> play_pos_frames p < 2 ^ 32 -> 0 <= nFrames ->
  length pOutA = Z.to_nat nFrames -> length pOutB = Z.to_nat nFrames ->
  play_state p = STOPPED
  \/ (play_state p = STARTING /\ file_read_status p = SEEKING) ->
  on_jack_process nFrames (Some i) pOutA pOutB [] w
  = Done ((replicate (Z.to_nat nFrames) (Num 0), replicate (Z.to_nat nFrames) (Num 0)), w).
Proof.
  intros Hl Hopen Hpos H32 Hn HlenA HlenB Hstate.
  assert (draining p = false) as Hd.
  { unfold draining, transport_after_start.
    destruct Hstate as [->|[-> ->]]; reflexivity. }
  pose proof (proj1 (world_shape w i p Hl)) as Hw.
  pose proof (lookup_lt_Some _ _ _ Hl) as Hlen.
  rewrite Hw at 1.
  rewrite (on_jack_process_exec _ _ _ _ _ _ _ _ _ _ _ Hlen Hopen ltac:(lia) Hn ltac:(lia)).
  cbn [for_midi_events]. rewrite bind_ret.
  rewrite render_state_idle by done. rewrite !render_output_idle by done.
  by rewrite <- Hw.
Qed.

Lemma idle_callback_is_silent_witness :
  on_jack_process 2 (Some 0%nat) (map Num [9; 9]%Q) (map Num [9; 9]%Q) []
    (world_with (open_player 0 48000 2 STARTING SEEKING [1; 1] [1; 1])%Q)
  = Done (([Num 0; Num 0], [Num 0; Num 0]),
          world_with (open_player 0 48000 2 STARTING SEEKING [1; 1] [1; 1])%Q).
Proof.
  apply (idle_callback_is_silent
           (world_with (open_player 0 48000 2 STARTING SEEKING [1; 1] [1; 1])%Q) 0%nat
           (open_player 0 48000 2 STARTING SEEKING [1; 1] [1; 1])%Q 2
           (map Num [9; 9]%Q) (map Num [9; 9]%Q));
    [reflexivity | reflexivity | simpl; lia | simpl; lia | lia | reflexivity | reflexivity
    | right; split; reflexivity].
Defined.

Lemma draining_playing p :
  play_state p = PLAYING
  \/ (play_state p = STARTING /\ file_read_status p <> SEEKING) ->
  transport_after_start p = PLAYING /\ draining p = true.
Proof.
  intros H. assert (transport_after_start p = PLAYING) as Ht.
  { unfold transport_after_start. destruct H as [->|[-> Hs]]; [done|].
    rewrite bool_decide_eq_true_2 by done.
    by rewrite bool_decide_eq_false_2 by done. }
  split; [done|]. unfold draining. by rewrite Ht.
Qed.

(** X19.  While the transport is [PLAYING], or [STARTING] once the reader
    is no longer [SEEKING], and the input has not ended, a callback of
    [nFrames] frames takes [d = min nFrames (frames in ring A)] frames: output
    frame [k < d] is the [k]-th sample of the ring channel times the gain, the
    frames from [d] to the end of the period are zero, the [d] frames are gone
    from ring A (and as many as it holds, up to [d], from ring B), the play
    position advances by [d] modulo the frame count, and the transport is
    [PLAYING].  Ring channels of equal length stay of equal length. *)
Theorem playing_callback_scales_by_gain (w : world) (i : nat) (p : AUDIO_PLAYER)
    (nFrames : Z) (pOutA pOutB : list float) :
  g_players w !! i = Some (Some p) -> file_open p = 2 ->
  0 < frames p -> 0 <= play_pos_frames p -> 0 <= nFrames ->
  length pOutA = Z.to_nat nFrames -> length pOutB = Z.to_nat nFrames ->
  play_state p = PLAYING
  \/ (play_state p = STARTING /\ file_read_status p <> SEEKING) ->
  end_of_input nFrames p = false ->
  exists outA outB w' p',
    on_jack_process nFrames (Some i) pOutA pOutB [] w = Done ((outA, outB), w')
    /\ g_players w' = <[i := Some p']> (g_players w)
    /\ length outA = Z.to_nat nFrames /\ length outB = Z.to_nat nFrames
    /\ (forall k (a : Q), Z.of_nat k < nFrames -> rb_buf (ringbuffer_a p) !! k = Some a ->
          outA !! k = Some (fmul a (gain p)))
    /\ (forall k (b : Q), Z.of_nat k < nFrames -> (k < length (rb_buf (ringbuffer_a p)))%nat ->
          rb_buf (ringbuffer_b p) !! k = Some b -> outB !! k = Some (fmul b (gain p)))
    /\ (forall k, (length (rb_buf (ringbuffer_a p)) <= k)%nat -> Z.of_nat k < nFrames ->
          outA !! k = Some (Num 0) /\ outB !! k = Some (Num 0))
    /\ play_state p' = PLAYING
    /\ rb_buf (ringbuffer_a p')
       = drop (Z.to_nat nFrames) (rb_buf (ringbuffer_a p))
    /\ (length (rb_buf (ringbuffer_b p)) = length (rb_buf (ringbuffer_a p)) ->
        rb_buf (ringbuffer_b p') = drop (Z.to_nat nFrames) (rb_buf (ringbuffer_b p))
        /\ length (rb_buf (ringbuffer_b p')) = length (rb_buf (ringbuffer_a p')))
    /\ play_pos_frames p'
       = ((play_pos_frames p + frames_drained nFrames p) mod 2 ^ 32) mod frames p
    /\ frames_drained nFrames p
       = Z.min nFrames (Z.of_nat (length (rb_buf (ringbuffer_a p)))).
Proof.
  intros Hl Hopen Hf Hpos Hn HlenA HlenB Hstate Heof.
  destruct (draining_playing p Hstate) as [Ht Hd].
  assert (frames_drained nFrames p
          = Z.min nFrames (Z.of_nat (length (rb_buf (ringbuffer_a p))))) as Hfd.
  { unfold frames_drained. by rewrite Hd. }
  assert (stops nFrames p = false) as Hstops.
  { unfold stops. rewrite Ht, Heof. reflexivity. }
  pose proof (proj1 (world_shape w i p Hl)) as Hw.
  pose proof (lookup_lt_Some _ _ _ Hl) as Hlen.
  exists (render_output nFrames p (rb_buf (ringbuffer_a p)) pOutA),
         (render_output nFrames p (rb_buf (ringbuffer_b p)) pOutB).
  eexists _, (render_state nFrames p).
  split.
  { rewrite Hw at 1.
    rewrite (on_jack_process_exec _ _ _ _ _ _ _ _ _ _ _ Hlen Hopen Hf Hn Hpos).
    reflexivity. }
  cbn [g_players]. split; [done|].
  assert (forall ring pOut, length pOut = Z.to_nat nFrames ->
            length (render_output nFrames p ring pOut) = Z.to_nat nFrames) as Hout.
  { intros ring pOut Hp. unfold render_output, memset_tail, for_offsets.
    rewrite Hstops, !length_imap, length_copy_in; [done|]. rewrite length_take. lia. }
  split; [by apply Hout|]. split; [by apply Hout|].
  split.
  { intros k a Hk Ha. pose proof (lookup_lt_Some _ _ _ Ha).
    rewrite (render_output_drained _ _ _ _ k a) by (done || lia). by rewrite Hstops. }
  split.
  { intros k b Hk Hka Hb.
    rewrite (render_output_drained _ _ _ _ k b) by (done || lia). by rewrite Hstops. }
  split.
  { intros k Hk1 Hk2. split; apply render_output_silence; done || lia. }
  split.
  { unfold render_state. rewrite Hstops, Ht. by destruct p. }
  split.
  { unfold render_state. rewrite Hfd.
    destruct p as [? ? ? ? ? ? ? ? ? ? ? ? ? ? ? ? ? ? ? ? ? ? [bufA sizeA] [bufB sizeB]
                   ? ? ? ? ? ? ? ? ? ?]. cbn.
    destruct (decide (nFrames <= Z.of_nat (length bufA))).
    - by rewrite Z.min_l by lia.
    - rewrite Z.min_r by lia. rewrite Nat2Z.id.
      rewrite !drop_ge by lia. done. }
  split.
  { intros Heq. unfold render_state. rewrite Hfd.
    destruct p as [? ? ? ? ? ? ? ? ? ? ? ? ? ? ? ? ? ? ? ? ? ? [bufA sizeA] [bufB sizeB]
                   ? ? ? ? ? ? ? ? ? ?]. cbn in *.
    rewrite Heq. rewrite Zmin_min_r.
    destruct (decide (nFrames <= Z.of_nat (length bufA))).
    - rewrite Z.min_l by lia. split; [done|]. rewrite !length_drop. lia.
    - rewrite Z.min_r by lia. rewrite Nat2Z.id.
      rewrite !drop_ge by lia. done. }
  split; [|done].
  rewrite render_state_play_pos. by rewrite Heof.
Qed.

Lemma playing_callback_scales_by_gain_witness :
  exists outA outB w' p',
    on_jack_process 2 (Some 0%nat) (map Num [9; 9]%Q) (map Num [9; 9]%Q) []
      (world_with ((open_player 0 48000 2 PLAYING LOADING [1; 3; 5] [2; 4; 6])%Q
                     <| gain := Num (1 # 2) |>))
    = Done ((outA, outB), w')
    /\ g_players w' !! 0%nat = Some (Some p')
    /\ outA !! 1%nat = Some (fmul 3%Q (Num (1 # 2)))
    /\ play_state p' = PLAYING
    /\ rb_buf (ringbuffer_a p') = [5%Q].
Proof.
  destruct (playing_callback_scales_by_gain
              (world_with ((open_player 0 48000 2 PLAYING LOADING [1; 3; 5] [2; 4; 6])%Q
                             <| gain := Num (1 # 2) |>)) 0%nat
              ((open_player 0 48000 2 PLAYING LOADING [1; 3; 5] [2; 4; 6])%Q
                 <| gain := Num (1 # 2) |>) 2 (map Num [9; 9]%Q) (map Num [9; 9]%Q))
    as (outA & outB & w' & p' & H1 & H2 & _ & _ & H3 & _ & _ & H4 & H5 & _);
    [reflexivity | reflexivity | simpl; lia | simpl; lia | lia | reflexivity | reflexivity
    | left; reflexivity | reflexivity |].
  exists outA, outB, w', p'. split; [exact H1|]. split; [by rewrite H2|].
  split; [apply (H3 1%nat 3%Q); [lia | reflexivity]|].
  split; [exact H4 | exact H5].
Defined.

(** A gain of NaN, as [set_gain] stores it when it is handed NaN, reaches
    the ports: every frame that the callback drains is NaN on both. *)
Lemma nan_gain_is_played (w : world) (i : nat) (p : AUDIO_PLAYER)
    (nFrames : Z) (pOutA pOutB : list float) :
  g_players w !! i = Some (Some p) -> file_open p = 2 ->
  0 < frames p -> 0 <= play_pos_frames p -> 0 <= nFrames ->
  gain p = NaN ->
  exists outA outB w',
    on_jack_process nFrames (Some i) pOutA pOutB [] w = Done ((outA, outB), w')
    /\ (forall k (a : Q), Z.of_nat k < frames_drained nFrames p ->
          rb_buf (ringbuffer_a p) !! k = Some a -> outA !! k = Some NaN)
    /\ (forall k (b : Q), Z.of_nat k < frames_drained nFrames p ->
          rb_buf (ringbuffer_b p) !! k = Some b -> outB !! k = Some NaN).
Proof.
  intros Hl Hopen Hf Hpos Hn Hg.
  pose proof (proj1 (world_shape w i p Hl)) as Hw.
  pose proof (lookup_lt_Some _ _ _ Hl) as Hlen.
  exists (render_output nFrames p (rb_buf (ringbuffer_a p)) pOutA),
         (render_output nFrames p (rb_buf (ringbuffer_b p)) pOutB).
  eexists. split.
  { rewrite Hw at 1.
    rewrite (on_jack_process_exec _ _ _ _ _ _ _ _ _ _ _ Hlen Hopen Hf Hn Hpos).
    reflexivity. }
  split; intros k x Hk Hx; rewrite (render_output_drained _ _ _ _ k x) by done;
    rewrite Hg; by destruct (stops nFrames p).
Qed.

(** X20.  A stop request is complete after one period: [stop_playback]
    followed by one callback leaves the transport [STOPPED], whatever it was
    before, and [get_playback_state] reports it. *)
Theorem stop_completes_within_one_period (w : world) (i : nat) (p : AUDIO_PLAYER)
    (nFrames : Z) (pOutA pOutB : list float) :
  g_players w !! i = Some (Some p) -> (i < 16)%nat -> file_open p = 2 ->
  0 < frames p -> 0 <= play_pos_frames p -> 0 <= nFrames ->
  exists w1 outs w2 p2,
    stop_playback (Z.of_nat i) w = Done (tt, w1)
    /\ on_jack_process nFrames (Some i) pOutA pOutB [] w1 = Done (outs, w2)
    /\ g_players w2 = <[i := Some p2]> (g_players w)
    /\ play_state p2 = STOPPED
    /\ get_playback_state (Z.of_nat i) w2 = Done (STOPPED, w2).
Proof.
  intros Hl Hi Hopen Hf Hpos Hn.
  assert (0 <= Z.of_nat i < MAX_PLAYERS) as Hh by (unfold MAX_PLAYERS; lia).
  assert (Z.to_nat (Z.of_nat i) = i) as Hhi by lia.
  pose proof (proj1 (world_shape w i p Hl)) as Hw.
  pose proof (lookup_lt_Some _ _ _ Hl) as Hlen.
  destruct (stop_playback_exec (g_players w) (g_samplerate w) (g_debug w) (g_last_debug w)
              i Hlen p (cb_log w) (Z.of_nat i) Hh Hhi) as (lps & log' & E).
  rewrite <- Hw in E.
  set (p1 := p <| play_state := if bool_decide (play_state p = STOPPED)
                                then STOPPED else STOPPING |>
               <| last_play_state := lps |>) in *.
  assert (file_open p1 = 2) as Hopen1 by (by destruct p).
  assert (play_state (render_state nFrames p1) = STOPPED) as Hst.
  { unfold render_state, stops, transport_after_start.
    subst p1. destruct p. cbn.
    destruct (bool_decide _); cbn; reflexivity. }
  eexists _, _, _, (render_state nFrames p1).
  split; [exact E|]. split.
  { rewrite (on_jack_process_exec _ _ _ _ _ _ _ _ _ _ _ Hlen Hopen1
               ltac:(by destruct p) Hn ltac:(by destruct p)).
    reflexivity. }
  cbn [g_players]. split; [done|]. split; [exact Hst|].
  destruct (queries_at_slot (g_players w) (g_samplerate w) (g_debug w) (g_last_debug w)
              log' i (render_state nFrames p1) Hlen Hi) as (_ & Eq & _).
  destruct (render_state_same_file nFrames p1) as (_ & _ & Hfo & _).
  rewrite Hfo, Hopen1 in Eq. cbn in Eq. by rewrite Hst in Eq.
Qed.

Lemma stop_completes_within_one_period_witness :
  exists w1 outs w2 p2,
    stop_playback 0 (world_with (open_player 0 48000 2 PLAYING LOADING [1; 1] [1; 1])%Q)
    = Done (tt, w1)
    /\ on_jack_process 2 (Some 0%nat) (map Num [9; 9]%Q) (map Num [9; 9]%Q) [] w1
       = Done (outs, w2)
    /\ g_players w2 !! 0%nat = Some (Some p2)
    /\ play_state p2 = STOPPED.
Proof.
  destruct (stop_completes_within_one_period
              (world_with (open_player 0 48000 2 PLAYING LOADING [1; 1] [1; 1])%Q) 0%nat
              (open_player 0 48000 2 PLAYING LOADING [1; 1] [1; 1])%Q 2
              (map Num [9; 9]%Q) (map Num [9; 9]%Q))
    as (w1 & outs & w2 & p2 & H1 & H2 & H3 & H4 & _);
    [reflexivity | lia | reflexivity | simpl; lia | simpl; lia | lia |].
  exists w1, outs, w2, p2. split; [exact H1|]. split; [exact H2|].
  split; [by rewrite H3 | exact H4].
Defined.

(** X21.  [start_playback] on a player with an open file and a JACK
    client asks for [STARTING] unless the transport is [PLAYING]; on a player
    without an open file it leaves the transport alone.  [stop_playback] asks
    for [STOPPING] unless the transport is [STOPPED], with or without a file.
    Neither changes anything else but the shadow of the transport
    notification. *)
Theorem transport_requests (w : world) (i : nat) (p : AUDIO_PLAYER) :
  g_players w !! i = Some (Some p) -> (i < 16)%nat ->
  (exists w' lps,
     start_playback (Z.of_nat i) w = Done (tt, w')
     /\ g_players w'
        = <[i := Some (p <| play_state :=
                              if negb (jack_client p =? 0) && (file_open p =? 2)
                                 && negb (bool_decide (play_state p = PLAYING))
                              then STARTING else play_state p |>
                         <| last_play_state := lps |>)]> (g_players w)
     /\ (file_open p <> 2 -> w' = w))
  /\ (exists w' lps,
        stop_playback (Z.of_nat i) w = Done (tt, w')
        /\ g_players w'
           = <[i := Some (p <| play_state :=
                                 if bool_decide (play_state p = STOPPED)
                                 then STOPPED else STOPPING |>
                            <| last_play_state := lps |>)]> (g_players w)).
Proof.
  intros Hl Hi.
  assert (0 <= Z.of_nat i < MAX_PLAYERS) as Hh by (unfold MAX_PLAYERS; lia).
  assert (Z.to_nat (Z.of_nat i) = i) as Hhi by lia.
  pose proof (proj1 (world_shape w i p Hl)) as Hw.
  pose proof (lookup_lt_Some _ _ _ Hl) as Hlen.
  split.
  - destruct (start_playback_exec (g_players w) (g_samplerate w) (g_debug w)
                (g_last_debug w) i Hlen p (cb_log w) (Z.of_nat i) Hh Hhi)
      as (lps & log' & E).
    rewrite <- Hw in E.
    eexists _, lps. split; [exact E|]. cbn [g_players]. split; [done|].
    intros Hclosed.
    assert (start_playback (Z.of_nat i) w = Done (tt, w)) as E'.
    { rewrite Hw at 1. unfold start_playback.
      rewrite exec_get_player by done. rewrite bind_assoc, exec_deref by done.
      replace (file_open p =? 2) with false by lia.
      rewrite andb_false_r. cbn [andb]. unfold when. rewrite bind_ret.
      unfold send_notifications. rewrite exec_deref by done.
      replace (file_open p =? 2) with false by lia. cbn [negb]. by rewrite <- Hw. }
    congruence.
  - destruct (stop_playback_exec (g_players w) (g_samplerate w) (g_debug w)
                (g_last_debug w) i Hlen p (cb_log w) (Z.of_nat i) Hh Hhi)
      as (lps & log' & E).
    rewrite <- Hw in E.
    eexists _, lps. split; [exact E|]. done.
Qed.

Lemma transport_requests_witness :
  exists w' lps,
    start_playback 0 (world_with (open_player 0 48000 2 STOPPED IDLE [] [])) = Done (tt, w')
    /\ g_players w' !! 0%nat
       = Some (Some ((open_player 0 48000 2 STARTING IDLE [] []) <| last_play_state := lps |>)).
Proof.
  destruct (transport_requests (world_with (open_player 0 48000 2 STOPPED IDLE [] [])) 0%nat
              (open_player 0 48000 2 STOPPED IDLE [] []))
    as [(w' & lps & H1 & H2 & _) _]; [reflexivity | lia |].
  exists w', lps. split; [exact H1|]. by rewrite H2.
Defined.
(** ** The writing loop of the file thread *)

#[local] Arguments write_frames : simpl never.
#[local] Arguments wait_for_space : simpl never.
#[local] Arguments jack_ringbuffer_write : simpl never.
#[local] Arguments jack_ringbuffer_write_space : simpl never.
#[local] Arguments demux : simpl never.

Lemma demux_ext p q pBufferOut frame :
  sf_info p = sf_info q -> track_a p = track_a q -> track_b p = track_b q ->
  demux p pBufferOut frame = demux q pBufferOut frame.
Proof. intros H1 H2 H3. unfold demux. by rewrite H1, H2, H3. Qed.

Lemma jack_ringbuffer_write_room rb x :
  sizeof_float * (Z.of_nat (length (rb_buf rb)) + 1) <= rb_size rb ->
  jack_ringbuffer_write rb x sizeof_float
  = (sizeof_float, Some (rb <| rb_buf := rb_buf rb ++ [x] |>)).
Proof.
  intros H. unfold jack_ringbuffer_write, jack_ringbuffer_write_space,
    jack_ringbuffer_read_space, sizeof_float in *.
  assert (4 <= Z.max 0 (rb_size rb - 4 * Z.of_nat (length (rb_buf rb)))) as Hroom by lia.
  rewrite Z.min_l by done. reflexivity.
Qed.

(** One write of a float never reports more than the bytes asked for. *)
Lemma jack_ringbuffer_write_count rb x cnt :
  fst (jack_ringbuffer_write rb x cnt) <= cnt.
Proof.
  unfold jack_ringbuffer_write. cbn zeta.
  destruct (_ =? sizeof_float); [cbn [fst]; lia|].
  destruct (_ =? 0); cbn [fst]; lia.
Qed.

Section Writing.
Variables (l : list (option AUDIO_PLAYER)) (sr dbg ldbg : Z) (i : nat).
Hypothesis Hi : (i < length l)%nat.

Local Abbreviation W q log := (Build_world (<[i := Some q]> l) sr dbg ldbg log).

(** With room for the whole block in both channels, the loop appends the
    block, frame by frame, to both. *)
Lemma write_frames_exec pBufferOut log (todo : nat) : forall frame p,
  sizeof_float * (Z.of_nat (length (rb_buf (ringbuffer_a p))) + Z.of_nat todo)
  <= rb_size (ringbuffer_a p) ->
  sizeof_float * (Z.of_nat (length (rb_buf (ringbuffer_b p))) + Z.of_nat todo)
  <= rb_size (ringbuffer_b p) ->
  write_frames todo frame i pBufferOut (W p log)
  = Done (tt,
          W (p <| ringbuffer_b :=
                    (ringbuffer_b p)
                      <| rb_buf := rb_buf (ringbuffer_b p)
                                   ++ map (fun k => snd (demux p pBufferOut k))
                                        (seqZ frame (Z.of_nat todo)) |> |>
               <| ringbuffer_a :=
                    (ringbuffer_a p)
                      <| rb_buf := rb_buf (ringbuffer_a p)
                                   ++ map (fun k => fst (demux p pBufferOut k))
                                        (seqZ frame (Z.of_nat todo)) |> |>) log).
Proof.
  induction todo as [|todo IH]; intros frame p HA HB.
  - unfold write_frames, ret. do 3 f_equal. cbn [seqZ map].
    destruct p as [? ? ? ? ? ? ? ? ? ? ? ? ? ? ? ? ? ? ? ? ? ? [bufA sizeA] [bufB sizeB]
                   ? ? ? ? ? ? ? ? ? ?]. cbn. by rewrite !app_nil_r.
  - unfold write_frames; fold write_frames.
    rewrite bind_get_world, exec_deref by done.
    destruct (demux p pBufferOut frame) as [fA fB] eqn:Ed.
    rewrite !jack_ringbuffer_write_room by (unfold sizeof_float in *; lia).
    rewrite !exec_store by done.
    change (sizeof_float <? sizeof_float) with false. cbn iota.
    set (p1 := apply_update _ (apply_update _ p)).
    rewrite (IH (frame + 1) p1).
    2:{ subst p1. destruct p as [? ? ? ? ? ? ? ? ? ? ? ? ? ? ? ? ? ? ? ? ? ? [bufA sizeA] [bufB sizeB]
                                 ? ? ? ? ? ? ? ? ? ?]. cbn in *. rewrite length_app. cbn. unfold sizeof_float in *. lia. }
    2:{ subst p1. destruct p as [? ? ? ? ? ? ? ? ? ? ? ? ? ? ? ? ? ? ? ? ? ? [bufA sizeA] [bufB sizeB]
                                 ? ? ? ? ? ? ? ? ? ?]. cbn in *. rewrite length_app. cbn. unfold sizeof_float in *. lia. }
    assert (forall k, demux p1 pBufferOut k = demux p pBufferOut k) as Hdemux.
    { intros k. apply demux_ext; subst p1; by destruct p. }
    rewrite (seqZ_cons frame) by lia.
    replace (Z.pred (Z.of_nat (S todo))) with (Z.of_nat todo) by lia.
    replace (Z.succ frame) with (frame + 1) by lia.
    cbn [map]. rewrite Ed. cbn [fst snd].
    erewrite (map_ext (fun k => snd (demux p1 pBufferOut k))) by (intros; by rewrite Hdemux).
    erewrite (map_ext (fun k => fst (demux p1 pBufferOut k))) by (intros; by rewrite Hdemux).
    subst p1.
    destruct p as [? ? ? ? ? ? ? ? ? ? ? ? ? ? ? ? ? ? ? ? ? ? [bufA sizeA] [bufB sizeB]
                   ? ? ? ? ? ? ? ? ? ?]. cbn.
    by rewrite <- !app_assoc.
Qed.

(** Ring channels of equal size and equal length get every frame in both
    or in neither, whatever the room: they stay of equal length and within
    their size.  The loop ends torn when the room runs out within a float;
    the frame at which it does leaves the same bytes in both channels. *)
Lemma write_frames_lockstep pBufferOut log (todo : nat) : forall frame p,
  rb_size (ringbuffer_a p) = rb_size (ringbuffer_b p) ->
  length (rb_buf (ringbuffer_a p)) = length (rb_buf (ringbuffer_b p)) ->
  exists bufA bufB,
    length bufA = length bufB
    /\ (length (rb_buf (ringbuffer_a p)) <= length bufA)%nat
    /\ (sizeof_float * Z.of_nat (length (rb_buf (ringbuffer_a p))) <= rb_size (ringbuffer_a p) ->
        sizeof_float * Z.of_nat (length bufA) <= rb_size (ringbuffer_a p))
    /\ (write_frames todo frame i pBufferOut (W p log)
        = Done (tt, W (p <| ringbuffer_b := (ringbuffer_b p) <| rb_buf := bufB |> |>
                         <| ringbuffer_a := (ringbuffer_a p) <| rb_buf := bufA |> |>) log)
        \/ exists k n,
             write_frames todo frame i pBufferOut (W p log)
             = Torn {| torn_world :=
                         W (p <| ringbuffer_b := (ringbuffer_b p) <| rb_buf := bufB |> |>
                              <| ringbuffer_a := (ringbuffer_a p) <| rb_buf := bufA |> |>) log;
                       torn_frame := k; torn_b := n; torn_a := n |}
             /\ frame <= k < frame + Z.of_nat todo
             /\ 0 < n < sizeof_float
             /\ n = rb_size (ringbuffer_a p) - sizeof_float * Z.of_nat (length bufA))
    /\ (rb_size (ringbuffer_a p) mod sizeof_float = 0 ->
        write_frames todo frame i pBufferOut (W p log)
        = Done (tt, W (p <| ringbuffer_b := (ringbuffer_b p) <| rb_buf := bufB |> |>
                         <| ringbuffer_a := (ringbuffer_a p) <| rb_buf := bufA |> |>) log)).
Proof.
  induction todo as [|todo IH]; intros frame p Hsize Hlen.
  - exists (rb_buf (ringbuffer_a p)), (rb_buf (ringbuffer_b p)).
    assert (write_frames 0 frame i pBufferOut (W p log)
            = Done (tt, W (p <| ringbuffer_b :=
                                  (ringbuffer_b p) <| rb_buf := rb_buf (ringbuffer_b p) |> |>
                             <| ringbuffer_a :=
                                  (ringbuffer_a p) <| rb_buf := rb_buf (ringbuffer_a p) |> |>)
                          log)) as E.
    { unfold write_frames, ret. do 3 f_equal.
      destruct p as [? ? ? ? ? ? ? ? ? ? ? ? ? ? ? ? ? ? ? ? ? ? [bufA sizeA] [bufB sizeB]
                     ? ? ? ? ? ? ? ? ? ?]. reflexivity. }
    split; [done|]. split; [done|]. split; [done|]. split; [by left | done].
  - unfold write_frames; fold write_frames.
    rewrite bind_get_world, exec_deref by done.
    destruct (demux p pBufferOut frame) as [fA fB] eqn:Ed.
    destruct p as [? ? ? ? ? ? ? ? ? ? ? ? ? ? ? ? ? ? ? ? ? ? [bufA sizeA] [bufB sizeB]
                   ? ? ? ? ? ? ? ? ? ?]. cbn in Hsize, Hlen. subst sizeB.
    cbn [ringbuffer_a ringbuffer_b rb_buf rb_size].
    unfold jack_ringbuffer_write, jack_ringbuffer_write_space,
      jack_ringbuffer_read_space. cbn [rb_buf rb_size].
    rewrite <- Hlen.
    set (space := Z.max 0 (sizeA - sizeof_float * Z.of_nat (length bufA))).
    destruct (Z.min sizeof_float space =? sizeof_float) eqn:Eroom.
    + replace (Z.min (Z.min sizeof_float space) space) with (Z.min sizeof_float space) by lia.
      rewrite Eroom. rewrite !exec_store by done. cbn.
      replace (sizeof_float <? Z.min sizeof_float space) with false by lia.
      match goal with
      | |- context [write_frames _ _ _ _ (Build_world (<[i := Some ?q]> l) _ _ _ _)] =>
          destruct (IH (frame + 1) q)
            as (bufA' & bufB' & Hl' & Hge & Hcap & Hres & Hmod);
            [reflexivity | cbn; rewrite !length_app; cbn; lia |]
      end.
      cbn in Hge, Hcap, Hres, Hmod. rewrite length_app in Hge, Hcap. cbn in Hge, Hcap.
      exists bufA', bufB'. split; [done|]. split; [lia|]. split.
      { intros Hc. apply Hcap. unfold sizeof_float in *. subst space. lia. }
      split; [|exact Hmod].
      destruct Hres as [E|(k & n & E & Hk & Hn & Hsp)]; [by left|].
      right. exists k, n. split; [exact E|]. split; [lia|]. done.
    + destruct (Z.min sizeof_float space =? 0) eqn:Ezero.
      * replace (Z.min (Z.min sizeof_float space) space) with (Z.min sizeof_float space)
          by lia.
        rewrite Eroom, Ezero. rewrite !exec_store by done. cbn.
        replace (sizeof_float <? Z.min sizeof_float space) with false by lia.
        match goal with
        | |- context [write_frames _ _ _ _ (Build_world (<[i := Some ?q]> l) _ _ _ _)] =>
            destruct (IH (frame + 1) q)
              as (bufA' & bufB' & Hl' & Hge & Hcap & Hres & Hmod); [reflexivity | done |]
        end.
        cbn in Hge, Hcap, Hres, Hmod.
        exists bufA', bufB'. split; [done|]. split; [done|]. split; [done|].
        split; [|exact Hmod].
        destruct Hres as [E|(k & n & E & Hk & Hn & Hsp)]; [by left|].
        right. exists k, n. split; [exact E|]. split; [lia|]. done.
      * replace (Z.min (Z.min sizeof_float space) space) with (Z.min sizeof_float space)
          by lia.
        rewrite Eroom, Ezero.
        exists bufA, bufB. split; [done|]. split; [done|]. split; [done|].
        assert (0 < space < sizeof_float) as Hspace
          by (unfold sizeof_float in *; lia).
        split.
        { right. exists frame, space. split.
          - unfold torn. rewrite Z.min_r by lia. reflexivity.
          - split; [lia|]. split; [done|]. subst space. unfold sizeof_float in *. lia. }
        intros Hmod. exfalso. cbn in Hmod. subst space. unfold sizeof_float in *.
        assert ((sizeA - 4 * Z.of_nat (length bufA)) mod 4 = 0) as Hm.
        { rewrite Zminus_mod, Hmod, Z.mul_comm, Z_mod_mult. reflexivity. }
        pose proof (Z.mod_small (sizeA - 4 * Z.of_nat (length bufA)) 4). lia.
Qed.

(** Without room for the block in channel B, and with at least as much room
    in channel A, the loop stores the frames that fit and tears at the next
    one, once the room of B is not a whole number of floats: what is left
    of B takes the first bytes of its float, and channel A takes as many of
    its own. *)
Lemma write_frames_tears pBufferOut log (todo : nat) : forall frame p,
  0 <= rb_size (ringbuffer_b p)
       - sizeof_float * Z.of_nat (length (rb_buf (ringbuffer_b p))) ->
  (rb_size (ringbuffer_b p) - sizeof_float * Z.of_nat (length (rb_buf (ringbuffer_b p))))
    mod sizeof_float <> 0 ->
  rb_size (ringbuffer_b p) - sizeof_float * Z.of_nat (length (rb_buf (ringbuffer_b p)))
  <= rb_size (ringbuffer_a p) - sizeof_float * Z.of_nat (length (rb_buf (ringbuffer_a p))) ->
  rb_size (ringbuffer_b p) - sizeof_float * Z.of_nat (length (rb_buf (ringbuffer_b p)))
  < sizeof_float * Z.of_nat todo ->
  let space := rb_size (ringbuffer_b p)
               - sizeof_float * Z.of_nat (length (rb_buf (ringbuffer_b p))) in
  write_frames todo frame i pBufferOut (W p log)
  = Torn {| torn_world :=
              W (p <| ringbuffer_b :=
                        (ringbuffer_b p)
                          <| rb_buf := rb_buf (ringbuffer_b p)
                                       ++ map (fun k => snd (demux p pBufferOut k))
                                            (seqZ frame (space / sizeof_float)) |> |>
                   <| ringbuffer_a :=
                        (ringbuffer_a p)
                          <| rb_buf := rb_buf (ringbuffer_a p)
                                       ++ map (fun k => fst (demux p pBufferOut k))
                                            (seqZ frame (space / sizeof_float)) |> |>) log;
            torn_frame := frame + space / sizeof_float;
            torn_b := space mod sizeof_float;
            torn_a := space mod sizeof_float |}.
Proof.
  induction todo as [|todo IH]; intros frame p H0 Hmod HAB Htodo space.
  { exfalso. subst space. unfold sizeof_float in *. lia. }
  unfold write_frames; fold write_frames.
  rewrite bind_get_world, exec_deref by done.
  destruct (demux p pBufferOut frame) as [fA fB] eqn:Ed.
  destruct (Z_lt_ge_dec space sizeof_float) as [Hsmall|Hroom].
  - (* the room of B is within a float *)
    assert (space / sizeof_float = 0) as Hk by (apply Z.div_small; subst space; lia).
    assert (space mod sizeof_float = space) as Hr by (apply Z.mod_small; subst space; lia).
    assert (0 < space) as Hpos by (subst space; lia).
    unfold jack_ringbuffer_write, jack_ringbuffer_write_space, jack_ringbuffer_read_space.
    fold space.
    set (spaceA := rb_size (ringbuffer_a p)
                   - sizeof_float * Z.of_nat (length (rb_buf (ringbuffer_a p)))) in *.
    rewrite (Z.max_r 0 space) by lia. rewrite (Z.min_r sizeof_float space) by lia.
    replace (space =? sizeof_float) with false by lia.
    replace (space =? 0) with false by lia.
    rewrite (Z.max_r 0 spaceA) by lia. rewrite (Z.min_l space spaceA) by lia.
    replace (space =? sizeof_float) with false by lia.
    replace (space =? 0) with false by lia.
    rewrite Hk, Hr, Z.add_0_r. cbn [seqZ map]. unfold torn. do 2 f_equal.
    rewrite !app_nil_r.
    destruct p as [? ? ? ? ? ? ? ? ? ? ? ? ? ? ? ? ? ? ? ? ? ? [bufA sizeA] [bufB sizeB]
                   ? ? ? ? ? ? ? ? ? ?]. reflexivity.
  - (* a whole frame fits *)
    rewrite !jack_ringbuffer_write_room by (subst space; unfold sizeof_float in *; lia).
    rewrite !exec_store by done.
    change (sizeof_float <? sizeof_float) with false. cbn iota.
    set (p1 := apply_update _ (apply_update _ p)).
    assert (rb_size (ringbuffer_b p1) = rb_size (ringbuffer_b p)
            /\ rb_size (ringbuffer_a p1) = rb_size (ringbuffer_a p)
            /\ rb_buf (ringbuffer_b p1) = rb_buf (ringbuffer_b p) ++ [fB]
            /\ rb_buf (ringbuffer_a p1) = rb_buf (ringbuffer_a p) ++ [fA])
      as (SB & SA & BB & BA).
    { subst p1.
      destruct p as [? ? ? ? ? ? ? ? ? ? ? ? ? ? ? ? ? ? ? ? ? ? [bufA sizeA] [bufB sizeB]
                     ? ? ? ? ? ? ? ? ? ?]. cbn. auto. }
    assert (rb_size (ringbuffer_b p1)
            - sizeof_float * Z.of_nat (length (rb_buf (ringbuffer_b p1)))
            = space - sizeof_float) as Hspace1.
    { rewrite SB, BB, length_app. cbn [length]. subst space. unfold sizeof_float. lia. }
    assert (rb_size (ringbuffer_a p1)
            - sizeof_float * Z.of_nat (length (rb_buf (ringbuffer_a p1)))
            = rb_size (ringbuffer_a p)
              - sizeof_float * Z.of_nat (length (rb_buf (ringbuffer_a p))) - sizeof_float)
      as HspaceA1.
    { rewrite SA, BA, length_app. cbn [length]. unfold sizeof_float. lia. }
    assert ((space - sizeof_float) mod sizeof_float = space mod sizeof_float) as Hmod1.
    { replace (space - sizeof_float) with (space + (-1) * sizeof_float) by lia.
      apply Z_mod_plus_full. }
    assert ((space - sizeof_float) / sizeof_float = space / sizeof_float - 1) as Hdiv1.
    { replace (space - sizeof_float) with (space + (-1) * sizeof_float) by lia.
      rewrite Z_div_plus_full by (unfold sizeof_float; lia). lia. }
    assert (1 <= space / sizeof_float) as Hk1.
    { apply Z.div_le_lower_bound; unfold sizeof_float in *; lia. }
    rewrite (IH (frame + 1) p1).
    2:{ rewrite Hspace1. lia. }
    2:{ rewrite Hspace1, Hmod1. exact Hmod. }
    2:{ rewrite Hspace1, HspaceA1. subst space. lia. }
    2:{ rewrite Hspace1. subst space. unfold sizeof_float in *. lia. }
    rewrite Hspace1, Hmod1, Hdiv1.
    assert (forall k, demux p1 pBufferOut k = demux p pBufferOut k) as Hdemux.
    { intros k. apply demux_ext; subst p1; by destruct p. }
    rewrite (seqZ_cons frame (space / sizeof_float)) by lia.
    replace (Z.pred (space / sizeof_float)) with (space / sizeof_float - 1) by lia.
    replace (Z.succ frame) with (frame + 1) by lia.
    cbn [map]. rewrite Ed. cbn [fst snd].
    erewrite (map_ext (fun k => snd (demux p1 pBufferOut k))) by (intros; by rewrite Hdemux).
    erewrite (map_ext (fun k => fst (demux p1 pBufferOut k))) by (intros; by rewrite Hdemux).
    replace (frame + 1 + (space / sizeof_float - 1)) with (frame + space / sizeof_float)
      by lia.
    do 2 f_equal. subst p1.
    destruct p as [? ? ? ? ? ? ? ? ? ? ? ? ? ? ? ? ? ? ? ? ? ? [bufA sizeA] [bufB sizeB]
                   ? ? ? ? ? ? ? ? ? ?]. cbn.
    by rewrite <- !app_assoc.
Qed.
End Writing.

(** A ring buffer created for more than two bytes can take a number of
    bytes that is 3 more than a multiple of 4: with whole floats in it, the
    room that is left is never a whole number of floats. *)
Lemma for_power_of_two_ge fuel : forall power_of_two sz,
  power_of_two <= for_power_of_two fuel power_of_two sz.
Proof.
  induction fuel as [|fuel IH]; intros p sz; cbn [for_power_of_two]; [lia|].
  destruct (2 ^ p <? sz); [|lia]. specialize (IH (p + 1) sz). lia.
Qed.

Lemma jack_ringbuffer_create_size sz :
  2 < sz -> rb_size (jack_ringbuffer_create sz) mod sizeof_float = 3.
Proof.
  intros Hsz. unfold jack_ringbuffer_create, sizeof_float. cbn [rb_size].
  set (k := for_power_of_two 64 1 sz).
  assert (2 <= k) as Hk.
  { subst k.
    change (for_power_of_two 64 1 sz)
      with (if 2 ^ 1 <? sz then for_power_of_two 63 (1 + 1) sz else 1).
    change (2 ^ 1) with 2. replace (2 <? sz) with true by lia.
    pose proof (for_power_of_two_ge 63 (1 + 1) sz). lia. }
  replace k with (2 + (k - 2)) by lia.
  rewrite Z.pow_add_r by lia. change (2 ^ 2) with 4.
  replace (4 * 2 ^ (k - 2) - 1) with (3 + (2 ^ (k - 2) - 1) * 4) by lia.
  rewrite Z_mod_plus_full. reflexivity.
Qed.

Lemma write_space_of_floats rb :
  rb_size rb mod sizeof_float = 3 ->
  sizeof_float * Z.of_nat (length (rb_buf rb)) <= rb_size rb ->
  jack_ringbuffer_write_space rb
  = rb_size rb - sizeof_float * Z.of_nat (length (rb_buf rb))
  /\ jack_ringbuffer_write_space rb mod sizeof_float = 3.
Proof.
  intros Hmod Hfit. unfold jack_ringbuffer_write_space, jack_ringbuffer_read_space.
  rewrite Z.max_r by lia. split; [done|].
  replace (rb_size rb - sizeof_float * Z.of_nat (length (rb_buf rb)))
    with (rb_size rb + (- Z.of_nat (length (rb_buf rb))) * sizeof_float) by lia.
  by rewrite Z_mod_plus_full.
Qed.

Lemma wait_for_space_room others i nFramesRead sleeps w p :
  g_players w !! i = Some (Some p) ->
  nFramesRead * sizeof_float <= jack_ringbuffer_write_space (ringbuffer_a p)
  \/ nFramesRead * sizeof_float <= jack_ringbuffer_write_space (ringbuffer_b p) ->
  wait_for_space others i nFramesRead sleeps w = Done (Some sleeps, w).
Proof.
  intros Hl Hroom.
  assert ((jack_ringbuffer_write_space (ringbuffer_a p) <? nFramesRead * sizeof_float)
          && (jack_ringbuffer_write_space (ringbuffer_b p) <? nFramesRead * sizeof_float)
          = false) as Hc.
  { apply andb_false_iff. destruct Hroom; [left | right]; by apply Z.ltb_ge. }
  destruct others; unfold wait_for_space; fold wait_for_space;
    unfold bind, deref; rewrite Hl, Hc; reflexivity.
Qed.

(** With room for the block in both channels the loading step does not
    sleep and runs the writing loop. *)
Lemma file_thread_fn_write_room (others : list (M unit)) (w : world) (i : nat)
    (p : AUDIO_PLAYER) (nFramesRead : Z) (pBufferOut : list Q) :
  g_players w !! i = Some (Some p) ->
  file_open p = 2 -> file_read_status p = LOADING -> 0 <= nFramesRead ->
  sizeof_float * (Z.of_nat (length (rb_buf (ringbuffer_a p))) + nFramesRead)
  <= rb_size (ringbuffer_a p) ->
  sizeof_float * (Z.of_nat (length (rb_buf (ringbuffer_b p))) + nFramesRead)
  <= rb_size (ringbuffer_b p) ->
  file_thread_fn_write others i nFramesRead pBufferOut w
  = Done (Some 0%nat,
          Build_world
            (<[i := Some (p <| ringbuffer_b :=
                               (ringbuffer_b p)
                                 <| rb_buf := rb_buf (ringbuffer_b p)
                                              ++ map (fun k => snd (demux p pBufferOut k))
                                                   (seqZ 0 nFramesRead) |> |>
                            <| ringbuffer_a :=
                                 (ringbuffer_a p)
                                   <| rb_buf := rb_buf (ringbuffer_a p)
                                                ++ map (fun k => fst (demux p pBufferOut k))
                                                     (seqZ 0 nFramesRead) |> |>)]>
               (g_players w))
            (g_samplerate w) (g_debug w) (g_last_debug w) (cb_log w)).
Proof.
  intros Hl Hopen Hstatus Hn HA HB.
  pose proof (proj1 (world_shape w i p Hl)) as Hw.
  pose proof (lookup_lt_Some _ _ _ Hl) as Hlen.
  assert (nFramesRead * sizeof_float <= jack_ringbuffer_write_space (ringbuffer_a p)
          \/ nFramesRead * sizeof_float <= jack_ringbuffer_write_space (ringbuffer_b p))
    as Hroom.
  { left. unfold jack_ringbuffer_write_space, jack_ringbuffer_read_space,
      sizeof_float in *. lia. }
  pose proof (write_frames_exec (g_players w) (g_samplerate w) (g_debug w) (g_last_debug w)
                i Hlen pBufferOut (cb_log w) (Z.to_nat nFramesRead) 0 p) as Ewrite.
  rewrite Z2Nat.id in Ewrite by lia. specialize (Ewrite HA HB).
  unfold file_thread_fn_write.
  rewrite (bind_Done _ _ _ _ _ (wait_for_space_room others i nFramesRead 0 w p Hl Hroom)).
  rewrite Hw at 1. rewrite exec_deref by done.
  rewrite Hopen, Hstatus. cbn [Z.eqb Pos.eqb andb]. rewrite bool_decide_eq_true_2 by done.
  unfold when. rewrite (bind_Done _ _ _ _ _ Ewrite). reflexivity.
Qed.

(** With room for the block in channel A and not in channel B, on a ring
    channel B as [jack_ringbuffer_create] makes it, the loading step does
    not sleep: it writes the frames for which B has room to both channels,
    and of the next frame each channel takes 3 bytes. *)
Lemma file_thread_fn_write_tears (others : list (M unit)) (w : world) (i : nat)
    (p : AUDIO_PLAYER) (nFramesRead : Z) (pBufferOut : list Q) :
  g_players w !! i = Some (Some p) ->
  file_open p = 2 -> file_read_status p = LOADING -> 0 <= nFramesRead ->
  rb_size (ringbuffer_b p) mod sizeof_float = 3 ->
  sizeof_float * Z.of_nat (length (rb_buf (ringbuffer_b p))) <= rb_size (ringbuffer_b p) ->
  nFramesRead * sizeof_float <= jack_ringbuffer_write_space (ringbuffer_a p) ->
  jack_ringbuffer_write_space (ringbuffer_b p) < nFramesRead * sizeof_float ->
  exists w' p',
    file_thread_fn_write others i nFramesRead pBufferOut w
    = Torn {| torn_world := w';
              torn_frame := jack_ringbuffer_write_space (ringbuffer_b p) / sizeof_float;
              torn_b := 3; torn_a := 3 |}
    /\ g_players w' = <[i := Some p']> (g_players w)
    /\ rb_buf (ringbuffer_b p')
       = rb_buf (ringbuffer_b p)
         ++ map (fun frame => snd (demux p pBufferOut frame))
              (seqZ 0 (jack_ringbuffer_write_space (ringbuffer_b p) / sizeof_float))
    /\ rb_buf (ringbuffer_a p')
       = rb_buf (ringbuffer_a p)
         ++ map (fun frame => fst (demux p pBufferOut frame))
              (seqZ 0 (jack_ringbuffer_write_space (ringbuffer_b p) / sizeof_float)).
Proof.
  intros Hl Hopen Hstatus Hn Hmod Hfit HroomA HroomB.
  pose proof (proj1 (world_shape w i p Hl)) as Hw.
  pose proof (lookup_lt_Some _ _ _ Hl) as Hlen.
  destruct (write_space_of_floats (ringbuffer_b p) Hmod Hfit) as [Hspace Hspace3].
  pose proof (write_frames_tears (g_players w) (g_samplerate w) (g_debug w) (g_last_debug w)
                i Hlen pBufferOut (cb_log w) (Z.to_nat nFramesRead) 0 p) as Etear.
  cbn zeta in Etear. rewrite <- Hspace in Etear. rewrite Hspace3, Z.add_0_l in Etear.
  specialize (Etear ltac:(lia) ltac:(lia)).
  assert (jack_ringbuffer_write_space (ringbuffer_b p)
          <= rb_size (ringbuffer_a p)
             - sizeof_float * Z.of_nat (length (rb_buf (ringbuffer_a p)))) as HAB.
  { pose proof HroomA as HA'.
    unfold jack_ringbuffer_write_space, jack_ringbuffer_read_space in HA'.
    unfold sizeof_float in *. lia. }
  specialize (Etear HAB ltac:(unfold sizeof_float in *; lia)).
  rewrite <- Hw in Etear.
  eexists _, _. split.
  { unfold file_thread_fn_write.
    rewrite (bind_Done _ _ _ _ _
               (wait_for_space_room others i nFramesRead 0 w p Hl (or_introl HroomA))).
    rewrite Hw at 1. rewrite exec_deref by done.
    rewrite Hopen, Hstatus. cbn [Z.eqb Pos.eqb andb].
    rewrite bool_decide_eq_true_2 by done.
    unfold when. rewrite <- Hw. apply bind_Torn. exact Etear. }
  cbn [g_players]. split; [reflexivity|].
  destruct p as [? ? ? ? ? ? ? ? ? ? ? ? ? ? ? ? ? ? ? ? ? ? [bufA sizeA] [bufB sizeB]
                 ? ? ? ? ? ? ? ? ? ?]. cbn. done.
Qed.

(** X22.  With room for the whole block in both ring channels, the
    loading step does not sleep and appends the block to both channels in
    frame order: channel A receives the A values of the frames 0, 1, ...,
    [nFramesRead - 1] behind what it held, channel B the B values, and
    nothing else changes. *)
Theorem block_is_appended_in_order (others : list (M unit)) (w : world) (i : nat)
    (p : AUDIO_PLAYER) (nFramesRead : Z) (pBufferOut : list Q) :
  g_players w !! i = Some (Some p) ->
  file_open p = 2 -> file_read_status p = LOADING -> 0 <= nFramesRead ->
  sizeof_float * (Z.of_nat (length (rb_buf (ringbuffer_a p))) + nFramesRead)
  <= rb_size (ringbuffer_a p) ->
  sizeof_float * (Z.of_nat (length (rb_buf (ringbuffer_b p))) + nFramesRead)
  <= rb_size (ringbuffer_b p) ->
  exists w' p',
    file_thread_fn_write others i nFramesRead pBufferOut w = Done (Some 0%nat, w')
    /\ g_players w' = <[i := Some p']> (g_players w)
    /\ g_samplerate w' = g_samplerate w /\ cb_log w' = cb_log w
    /\ rb_buf (ringbuffer_a p')
       = rb_buf (ringbuffer_a p)
         ++ map (fun frame => fst (demux p pBufferOut frame)) (seqZ 0 nFramesRead)
    /\ rb_buf (ringbuffer_b p')
       = rb_buf (ringbuffer_b p)
         ++ map (fun frame => snd (demux p pBufferOut frame)) (seqZ 0 nFramesRead)
    /\ p' = p <| ringbuffer_b := ringbuffer_b p' |> <| ringbuffer_a := ringbuffer_a p' |>.
Proof.
  intros Hl Hopen Hstatus Hn HA HB.
  eexists _, _. split; [by apply file_thread_fn_write_room|].
  cbn [g_players g_samplerate cb_log].
  split; [done|]. split; [done|]. split; [done|].
  destruct p as [? ? ? ? ? ? ? ? ? ? ? ? ? ? ? ? ? ? ? ? ? ? [bufA sizeA] [bufB sizeB]
                 ? ? ? ? ? ? ? ? ? ?]. cbn. done.
Qed.

Lemma block_is_appended_in_order_witness :
  exists w' p',
    file_thread_fn_write [] 0 2 [1; 2; 3; 4]%Q
      (world_with (open_player 0 48000 2 PLAYING LOADING [9%Q] [8%Q]))
    = Done (Some 0%nat, w')
    /\ g_players w' !! 0%nat = Some (Some p')
    /\ rb_buf (ringbuffer_a p') = [9; 1; 3]%Q
    /\ rb_buf (ringbuffer_b p') = [8; 1; 3]%Q.
Proof.
  destruct (block_is_appended_in_order []
              (world_with (open_player 0 48000 2 PLAYING LOADING [9%Q] [8%Q])) 0%nat
              (open_player 0 48000 2 PLAYING LOADING [9%Q] [8%Q]) 2 [1; 2; 3; 4]%Q)
    as (w' & p' & H1 & H2 & _ & _ & H3 & H4 & _);
    [reflexivity | reflexivity | reflexivity | lia | vm_compute; discriminate
    | vm_compute; discriminate |].
  exists w', p'. split; [exact H1|]. split; [by rewrite H2|]. split; [exact H3 | exact H4].
Defined.

(** X23.  The writing loop keeps two ring channels of equal size in step:
    when they hold equally many floats before the loop, every frame goes to
    both or to neither, whether or not there is room for the block, so that
    they hold equally many floats afterwards; no channel loses a float, and
    a channel filled within its size stays within its size.  Nothing but
    the two ring buffers changes.  The loop runs to its end when the size of
    the channels is a multiple of the size of a float.  Otherwise the room
    can run out within a float: the frame at which it does leaves the same
    1 to 3 bytes, all that was free, in both channels, and the run ends
    torn at that frame. *)
Theorem writing_keeps_channels_in_step (w : world) (i : nat) (p : AUDIO_PLAYER)
    (todo : nat) (frame : Z) (pBufferOut : list Q) :
  g_players w !! i = Some (Some p) ->
  rb_size (ringbuffer_a p) = rb_size (ringbuffer_b p) ->
  length (rb_buf (ringbuffer_a p)) = length (rb_buf (ringbuffer_b p)) ->
  exists w' p',
    (write_frames todo frame i pBufferOut w = Done (tt, w')
     \/ exists k n,
          write_frames todo frame i pBufferOut w
          = Torn {| torn_world := w'; torn_frame := k; torn_b := n; torn_a := n |}
          /\ frame <= k < frame + Z.of_nat todo
          /\ 0 < n < sizeof_float
          /\ jack_ringbuffer_write_space (ringbuffer_a p') = n
          /\ jack_ringbuffer_write_space (ringbuffer_b p') = n)
    /\ (rb_size (ringbuffer_a p) mod sizeof_float = 0 ->
        write_frames todo frame i pBufferOut w = Done (tt, w'))
    /\ g_players w' = <[i := Some p']> (g_players w)
    /\ length (rb_buf (ringbuffer_a p')) = length (rb_buf (ringbuffer_b p'))
    /\ (length (rb_buf (ringbuffer_a p)) <= length (rb_buf (ringbuffer_a p')))%nat
    /\ rb_size (ringbuffer_a p') = rb_size (ringbuffer_a p)
    /\ rb_size (ringbuffer_b p') = rb_size (ringbuffer_b p)
    /\ (sizeof_float * Z.of_nat (length (rb_buf (ringbuffer_a p))) <= rb_size (ringbuffer_a p) ->
        sizeof_float * Z.of_nat (length (rb_buf (ringbuffer_a p'))) <= rb_size (ringbuffer_a p'))
    /\ p' = p <| ringbuffer_b := ringbuffer_b p' |> <| ringbuffer_a := ringbuffer_a p' |>.
Proof.
  intros Hl Hsize Hlen.
  pose proof (proj1 (world_shape w i p Hl)) as Hw.
  pose proof (lookup_lt_Some _ _ _ Hl) as Hlt.
  destruct (write_frames_lockstep (g_players w) (g_samplerate w) (g_debug w)
              (g_last_debug w) i Hlt pBufferOut (cb_log w) todo frame p Hsize Hlen)
    as (bufA & bufB & Heq & Hge & Hcap & Hres & Hmod).
  rewrite <- Hw in Hres, Hmod.
  eexists _, (p <| ringbuffer_b := (ringbuffer_b p) <| rb_buf := bufB |> |>
                <| ringbuffer_a := (ringbuffer_a p) <| rb_buf := bufA |> |>).
  split.
  { destruct Hres as [E|(k & n & E & Hk & Hn & Hsp)]; [left; exact E|].
    right. exists k, n. split; [exact E|]. split; [done|]. split; [done|].
    unfold jack_ringbuffer_write_space, jack_ringbuffer_read_space.
    destruct p as [? ? ? ? ? ? ? ? ? ? ? ? ? ? ? ? ? ? ? ? ? ? [bufA0 sizeA] [bufB0 sizeB]
                   ? ? ? ? ? ? ? ? ? ?]. cbn in *. subst sizeB. rewrite <- Heq. lia. }
  split; [exact Hmod|].
  cbn [g_players]. split; [done|].
  destruct p as [? ? ? ? ? ? ? ? ? ? ? ? ? ? ? ? ? ? ? ? ? ? [bufA0 sizeA] [bufB0 sizeB]
                 ? ? ? ? ? ? ? ? ? ?]. cbn in *. auto 10.
Qed.

Lemma writing_keeps_channels_in_step_witness :
  exists w' p',
    (write_frames 3 0 0 [1; 2; 3; 4; 5; 6]%Q
       (world_with ((open_player 0 48000 2 PLAYING LOADING [9%Q] [8%Q])
                      <| ringbuffer_a := (jack_ringbuffer_create 16) <| rb_buf := [9%Q] |> |>
                      <| ringbuffer_b := (jack_ringbuffer_create 16) <| rb_buf := [8%Q] |> |>))
     = Done (tt, w')
     \/ exists k n,
          write_frames 3 0 0 [1; 2; 3; 4; 5; 6]%Q
            (world_with ((open_player 0 48000 2 PLAYING LOADING [9%Q] [8%Q])
                           <| ringbuffer_a :=
                                (jack_ringbuffer_create 16) <| rb_buf := [9%Q] |> |>
                           <| ringbuffer_b :=
                                (jack_ringbuffer_create 16) <| rb_buf := [8%Q] |> |>))
          = Torn {| torn_world := w'; torn_frame := k; torn_b := n; torn_a := n |}
          /\ 0 <= k < 0 + Z.of_nat 3
          /\ 0 < n < sizeof_float
          /\ jack_ringbuffer_write_space (ringbuffer_a p') = n
          /\ jack_ringbuffer_write_space (ringbuffer_b p') = n)
    /\ g_players w' !! 0%nat = Some (Some p')
    /\ length (rb_buf (ringbuffer_a p')) = length (rb_buf (ringbuffer_b p')).
Proof.
  destruct (writing_keeps_channels_in_step
              (world_with ((open_player 0 48000 2 PLAYING LOADING [9%Q] [8%Q])
                             <| ringbuffer_a :=
                                  (jack_ringbuffer_create 16) <| rb_buf := [9%Q] |> |>
                             <| ringbuffer_b :=
                                  (jack_ringbuffer_create 16) <| rb_buf := [8%Q] |> |>))
              0%nat
              ((open_player 0 48000 2 PLAYING LOADING [9%Q] [8%Q])
                 <| ringbuffer_a := (jack_ringbuffer_create 16) <| rb_buf := [9%Q] |> |>
                 <| ringbuffer_b := (jack_ringbuffer_create 16) <| rb_buf := [8%Q] |> |>)
              3%nat 0 [1; 2; 3; 4; 5; 6]%Q)
    as (w' & p' & H1 & _ & H2 & H3 & _); [reflexivity | reflexivity | reflexivity |].
  exists w', p'. split; [exact H1|]. split; [by rewrite H2 | exact H3].
Defined.

(** The loop of X23 on ring buffers created with 16 bytes that hold one
    float each: two of the three frames fit, and of the third both channels
    take the 3 bytes that are left. *)
Lemma writing_loop_torn_example :
  write_frames 3 0 0 [1; 2; 3; 4; 5; 6]%Q
    (world_with ((open_player 0 48000 2 PLAYING LOADING [9%Q] [8%Q])
                   <| ringbuffer_a := (jack_ringbuffer_create 16) <| rb_buf := [9%Q] |> |>
                   <| ringbuffer_b := (jack_ringbuffer_create 16) <| rb_buf := [8%Q] |> |>))
  = Torn {| torn_world :=
              world_with
                ((open_player 0 48000 2 PLAYING LOADING [9%Q] [8%Q])
                   <| ringbuffer_a :=
                        (jack_ringbuffer_create 16) <| rb_buf := [9; 1; 3]%Q |> |>
                   <| ringbuffer_b :=
                        (jack_ringbuffer_create 16) <| rb_buf := [8; 1; 3]%Q |> |>);
            torn_frame := 2; torn_b := 3; torn_a := 3 |}.
Proof. vm_compute. reflexivity. Qed.

(** X24.  From the file thread to the ports: when the loading step
    writes a block into empty ring channels with room for it and the
    callback then runs with the transport [PLAYING], output frame [k] of port
    A is the A value of frame [k] of the block times the gain, and likewise
    for B, for every [k] below both the block length and the period. *)
Theorem written_block_is_played (others : list (M unit)) (w : world) (i : nat)
    (p : AUDIO_PLAYER) (nFramesRead nFrames : Z) (pBufferOut : list Q)
    (pOutA pOutB : list float) :
  g_players w !! i = Some (Some p) ->
  file_open p = 2 -> file_read_status p = LOADING -> play_state p = PLAYING ->
  rb_buf (ringbuffer_a p) = [] -> rb_buf (ringbuffer_b p) = [] ->
  0 <= nFramesRead ->
  sizeof_float * nFramesRead <= rb_size (ringbuffer_a p) ->
  sizeof_float * nFramesRead <= rb_size (ringbuffer_b p) ->
  0 < frames p -> 0 <= play_pos_frames p -> 0 <= nFrames ->
  exists w1 outA outB w2,
    file_thread_fn_write others i nFramesRead pBufferOut w = Done (Some 0%nat, w1)
    /\ on_jack_process nFrames (Some i) pOutA pOutB [] w1 = Done ((outA, outB), w2)
    /\ forall k, 0 <= k < nFramesRead -> k < nFrames ->
         outA !! Z.to_nat k = Some (fmul (fst (demux p pBufferOut k)) (gain p))
         /\ outB !! Z.to_nat k = Some (fmul (snd (demux p pBufferOut k)) (gain p)).
Proof.
  intros Hl Hopen Hstatus Hplay HA HB Hn HroomA HroomB Hf Hpos HnF.
  pose proof (file_thread_fn_write_room others w i p nFramesRead pBufferOut Hl Hopen
                Hstatus Hn) as E1.
  rewrite HA, HB in E1. cbn [length app] in E1.
  specialize (E1 ltac:(unfold sizeof_float in *; lia) ltac:(unfold sizeof_float in *; lia)).
  set (p1 := apply_update _ (apply_update _ p)) in E1.
  pose proof (lookup_lt_Some _ _ _ Hl) as Hlen.
  assert (file_open p1 = 2 /\ file_read_status p1 = LOADING /\ play_state p1 = PLAYING
          /\ frames p1 = frames p /\ play_pos_frames p1 = play_pos_frames p
          /\ gain p1 = gain p
          /\ rb_buf (ringbuffer_a p1)
             = map (fun k => fst (demux p pBufferOut k)) (seqZ 0 nFramesRead)
          /\ rb_buf (ringbuffer_b p1)
             = map (fun k => snd (demux p pBufferOut k)) (seqZ 0 nFramesRead))
    as (Ho1 & Hs1 & Hp1' & Hf1 & Hpos1 & Hg1 & HA1 & HB1).
  { subst p1.
    destruct p as [? ? ? ? ? ? ? ? ? ? ? ? ? ? ? ? ? ? ? ? ? ? [bufA sizeA] [bufB sizeB]
                   ? ? ? ? ? ? ? ? ? ?]. cbn in *. auto 10. }
  assert (draining p1 = true) as Hd1.
  { unfold draining, transport_after_start. rewrite Hp1'. reflexivity. }
  assert (stops nFrames p1 = false) as Hstops.
  { unfold stops, end_of_input. rewrite Hd1. unfold transport_after_start.
    rewrite Hp1', Hs1. reflexivity. }
  eexists _, (render_output nFrames p1 (rb_buf (ringbuffer_a p1)) pOutA),
         (render_output nFrames p1 (rb_buf (ringbuffer_b p1)) pOutB).
  eexists. split; [exact E1|]. split.
  { rewrite (on_jack_process_exec _ _ _ _ _ _ _ _ _ _ _ Hlen Ho1
               ltac:(lia) HnF ltac:(lia)).
    reflexivity. }
  intros k Hk HkF.
  assert (frames_drained nFrames p1 = Z.min nFrames nFramesRead) as Hfd.
  { unfold frames_drained. rewrite Hd1, HA1, length_map, length_seqZ. lia. }
  pose proof (lookup_seqZ_lt 0 nFramesRead (Z.to_nat k) ltac:(lia)) as Hseq.
  rewrite Z.add_0_l, Z2Nat.id in Hseq by lia.
  split.
  - rewrite (render_output_drained _ _ _ _ _ (fst (demux p pBufferOut k))); try lia.
    + by rewrite Hstops, Hg1.
    + rewrite HA1, list_lookup_fmap, Hseq. reflexivity.
  - rewrite (render_output_drained _ _ _ _ _ (snd (demux p pBufferOut k))); try lia.
    + by rewrite Hstops, Hg1.
    + rewrite HB1, list_lookup_fmap, Hseq. reflexivity.
Qed.

Lemma written_block_is_played_witness :
  exists w1 outA outB w2,
    file_thread_fn_write [] 0 2 [1; 2; 3; 4]%Q
      (world_with (open_player 0 48000 2 PLAYING LOADING [] []))
    = Done (Some 0%nat, w1)
    /\ on_jack_process 4 (Some 0%nat) (map Num [9; 9; 9; 9]%Q) (map Num [9; 9; 9; 9]%Q) []
         w1
       = Done ((outA, outB), w2)
    /\ outA !! 1%nat
       = Some (fmul (fst (demux (open_player 0 48000 2 PLAYING LOADING [] []) [1; 2; 3; 4]%Q 1))
                    (Num 1)).
Proof.
  destruct (written_block_is_played []
              (world_with (open_player 0 48000 2 PLAYING LOADING [] [])) 0%nat
              (open_player 0 48000 2 PLAYING LOADING [] []) 2 4 [1; 2; 3; 4]%Q
              (map Num [9; 9; 9; 9]%Q) (map Num [9; 9; 9; 9]%Q))
    as (w1 & outA & outB & w2 & H1 & H2 & H3);
    [reflexivity | reflexivity | reflexivity | reflexivity | reflexivity | reflexivity
    | lia | vm_compute; discriminate | vm_compute; discriminate | simpl; lia | simpl; lia
    | lia |].
  exists w1, outA, outB, w2. split; [exact H1|]. split; [exact H2|].
  apply (H3 1); lia.
Defined.

Lemma wait_for_space_full sr dbg i nFramesRead others : forall l ldbg log p sleeps,
  (i < length l)%nat -> (i < 16)%nat -> handle p = Z.of_nat i -> file_open p <> 0 ->
  jack_ringbuffer_write_space (ringbuffer_a p) < nFramesRead * sizeof_float ->
  jack_ringbuffer_write_space (ringbuffer_b p) < nFramesRead * sizeof_float ->
  Forall (updates_shadows i) others ->
  exists p' ldbg' log',
    wait_for_space others i nFramesRead sleeps
      (Build_world (<[i := Some p]> l) sr dbg ldbg log)
    = Done (None, Build_world (<[i := Some p']> l) sr dbg ldbg' log')
    /\ p' = with_shadows_of p' p.
Proof.
  induction others as [|other others IH];
    intros l ldbg log p sleeps Hlen Hi Hh Hopen HA HB Hothers;
    unfold wait_for_space; fold wait_for_space; rewrite exec_deref by done;
    replace (jack_ringbuffer_write_space (ringbuffer_a p) <? nFramesRead * sizeof_float)
      with true by lia;
    replace (jack_ringbuffer_write_space (ringbuffer_b p) <? nFramesRead * sizeof_float)
      with true by lia; cbn [andb].
  - exists p, ldbg, log. split; [reflexivity | apply with_shadows_of_self].
  - apply Forall_cons in Hothers as [Hother Hothers].
    destruct (send_notifications_updates_shadows i NOTIFY_ALL l sr dbg ldbg log p Hlen Hi Hh)
      as (p1 & ldbg1 & log1 & E1 & R1 & _).
    rewrite (bind_Done _ _ _ _ _ E1).
    destruct (with_shadows_of_keeps _ _ R1)
      as (Hh1 & _ & Hfo1 & _ & _ & _ & _ & _ & _ & _ & _ & _ & _ & Hra1 & Hrb1 & _).
    destruct (Hother l sr dbg ldbg1 log1 p1 Hlen Hi ltac:(congruence))
      as (p2 & ldbg2 & log2 & E2 & R2 & _).
    rewrite (bind_Done _ _ _ _ _ E2).
    destruct (with_shadows_of_keeps _ _ R2)
      as (Hh2 & _ & Hfo2 & _ & _ & _ & _ & _ & _ & _ & _ & _ & _ & Hra2 & Hrb2 & _).
    rewrite exec_deref by done.
    replace (file_open p2 =? 0) with false by lia.
    destruct (IH l ldbg2 log2 p2 (S sleeps) Hlen Hi) as (p3 & ldbg3 & log3 & E3 & R3);
      try congruence.
    exists p3, ldbg3, log3. split; [exact E3|].
    eapply with_shadows_of_trans; [|exact R3].
    eapply with_shadows_of_trans; [exact R1 | exact R2].
Qed.

(** X25.  While neither ring channel has room for the block and the
    other threads change at most notification shadows, the file thread
    keeps waiting, whatever the number of sleeps, and writes nothing: the
    ring buffers and every other field but the notification shadows are as
    they were. *)
Theorem writer_waits_without_room (others : list (M unit)) (w : world) (i : nat)
    (p : AUDIO_PLAYER) (nFramesRead : Z) (pBufferOut : list Q) :
  g_players w !! i = Some (Some p) -> (i < 16)%nat -> handle p = Z.of_nat i ->
  file_open p <> 0 ->
  jack_ringbuffer_write_space (ringbuffer_a p) < nFramesRead * sizeof_float ->
  jack_ringbuffer_write_space (ringbuffer_b p) < nFramesRead * sizeof_float ->
  Forall (updates_shadows i) others ->
  exists w' p',
    file_thread_fn_write others i nFramesRead pBufferOut w = Done (None, w')
    /\ g_players w' = <[i := Some p']> (g_players w)
    /\ p' = with_shadows_of p' p
    /\ ringbuffer_a p' = ringbuffer_a p /\ ringbuffer_b p' = ringbuffer_b p.
Proof.
  intros Hl Hi Hh Hopen HA HB Hothers.
  pose proof (proj1 (world_shape w i p Hl)) as Hw.
  pose proof (lookup_lt_Some _ _ _ Hl) as Hlen.
  destruct (wait_for_space_full (g_samplerate w) (g_debug w) i nFramesRead others
              (g_players w) (g_last_debug w) (cb_log w) p 0%nat Hlen Hi Hh Hopen HA HB
              Hothers)
    as (p' & ldbg' & log' & E & R).
  rewrite <- Hw in E.
  eexists _, p'. split.
  { unfold file_thread_fn_write. rewrite (bind_Done _ _ _ _ _ E). reflexivity. }
  cbn [g_players]. split; [done|]. split; [done|].
  destruct (with_shadows_of_keeps _ _ R)
    as (_ & _ & _ & _ & _ & _ & _ & _ & _ & _ & _ & _ & _ & Hra & Hrb & _).
  done.
Qed.

Lemma writer_waits_without_room_witness :
  exists w' p',
    file_thread_fn_write [ret tt; ret tt] 0 2 [1; 2; 3; 4]%Q
      (world_with ((open_player 0 48000 2 PLAYING LOADING [] [])
                     <| ringbuffer_a := {| rb_buf := [5; 6]%Q; rb_size := 8 |} |>
                     <| ringbuffer_b := {| rb_buf := [7; 8]%Q; rb_size := 8 |} |>))
    = Done (None, w')
    /\ g_players w' !! 0%nat = Some (Some p')
    /\ ringbuffer_a p' = {| rb_buf := [5; 6]%Q; rb_size := 8 |}.
Proof.
  destruct (writer_waits_without_room [ret tt; ret tt]
              (world_with ((open_player 0 48000 2 PLAYING LOADING [] [])
                             <| ringbuffer_a := {| rb_buf := [5; 6]%Q; rb_size := 8 |} |>
                             <| ringbuffer_b := {| rb_buf := [7; 8]%Q; rb_size := 8 |} |>))
              0%nat
              ((open_player 0 48000 2 PLAYING LOADING [] [])
                 <| ringbuffer_a := {| rb_buf := [5; 6]%Q; rb_size := 8 |} |>
                 <| ringbuffer_b := {| rb_buf := [7; 8]%Q; rb_size := 8 |} |>)
              2 [1; 2; 3; 4]%Q)
    as (w' & p' & H1 & H2 & _ & H3 & _);
    [reflexivity | lia | reflexivity | simpl; lia | vm_compute; reflexivity
    | vm_compute; reflexivity
    | repeat constructor; apply updates_shadows_ret |].
  exists w', p'. split; [exact H1|]. split; [by rewrite H2 | exact H3].
Defined.

(** X26.  A waiting file thread is released by the closing of the file:
    when [file_open] is set to 0 during the first sleep, as [unload] does,
    the thread leaves the wait after that sleep and writes nothing of the
    block it holds. *)
Theorem closing_releases_waiting_writer (others : list (M unit)) (w : world) (i : nat)
    (p : AUDIO_PLAYER) (nFramesRead : Z) (pBufferOut : list Q) :
  g_players w !! i = Some (Some p) -> (i < 16)%nat -> handle p = Z.of_nat i ->
  jack_ringbuffer_write_space (ringbuffer_a p) < nFramesRead * sizeof_float ->
  jack_ringbuffer_write_space (ringbuffer_b p) < nFramesRead * sizeof_float ->
  exists w' p',
    file_thread_fn_write (store i (fun p => p <| file_open := 0 |>) :: others) i
      nFramesRead pBufferOut w
    = Done (Some 1%nat, w')
    /\ g_players w' = <[i := Some p']> (g_players w)
    /\ file_open p' = 0
    /\ ringbuffer_a p' = ringbuffer_a p /\ ringbuffer_b p' = ringbuffer_b p.
Proof.
  intros Hl Hi Hh HA HB.
  pose proof (proj1 (world_shape w i p Hl)) as Hw.
  pose proof (lookup_lt_Some _ _ _ Hl) as Hlen.
  destruct (send_notifications_updates_shadows i NOTIFY_ALL (g_players w) (g_samplerate w)
              (g_debug w) (g_last_debug w) (cb_log w) p Hlen Hi Hh)
    as (p1 & ldbg1 & log1 & E1 & R1 & _).
  destruct (with_shadows_of_keeps _ _ R1)
    as (_ & _ & _ & _ & _ & _ & _ & _ & _ & _ & _ & _ & _ & Hra & Hrb & _).
  eexists _, (p1 <| file_open := 0 |>). split.
  { unfold file_thread_fn_write, wait_for_space; fold wait_for_space.
    rewrite Hw at 1. rewrite bind_assoc, exec_deref by done.
    replace (jack_ringbuffer_write_space (ringbuffer_a p) <? nFramesRead * sizeof_float)
      with true by lia.
    replace (jack_ringbuffer_write_space (ringbuffer_b p) <? nFramesRead * sizeof_float)
      with true by lia. cbn [andb].
    rewrite !bind_assoc. rewrite (bind_Done _ _ _ _ _ E1).
    rewrite !bind_assoc, exec_store by done. rewrite bind_assoc, exec_deref by done.
    replace (file_open (p1 <| file_open := 0 |>)) with 0 by (by destruct p1).
    cbn [Z.eqb]. rewrite bind_ret. rewrite exec_deref by done.
    replace (file_open (p1 <| file_open := 0 |>)) with 0 by (by destruct p1).
    cbn [Z.eqb andb]. unfold when. rewrite bind_ret. reflexivity. }
  cbn [g_players]. split; [done|].
  split; [by destruct p1|]. rewrite <- Hra, <- Hrb. by destruct p1.
Qed.

Lemma closing_releases_waiting_writer_witness :
  exists w' p',
    file_thread_fn_write [store 0 (fun p => p <| file_open := 0 |>)] 0 2 [1; 2; 3; 4]%Q
      (world_with ((open_player 0 48000 2 PLAYING LOADING [] [])
                     <| ringbuffer_a := {| rb_buf := [5; 6]%Q; rb_size := 8 |} |>
                     <| ringbuffer_b := {| rb_buf := [7; 8]%Q; rb_size := 8 |} |>))
    = Done (Some 1%nat, w')
    /\ g_players w' !! 0%nat = Some (Some p')
    /\ file_open p' = 0
    /\ ringbuffer_a p' = {| rb_buf := [5; 6]%Q; rb_size := 8 |}.
Proof.
  destruct (closing_releases_waiting_writer []
              (world_with ((open_player 0 48000 2 PLAYING LOADING [] [])
                             <| ringbuffer_a := {| rb_buf := [5; 6]%Q; rb_size := 8 |} |>
                             <| ringbuffer_b := {| rb_buf := [7; 8]%Q; rb_size := 8 |} |>))
              0%nat
              ((open_player 0 48000 2 PLAYING LOADING [] [])
                 <| ringbuffer_a := {| rb_buf := [5; 6]%Q; rb_size := 8 |} |>
                 <| ringbuffer_b := {| rb_buf := [7; 8]%Q; rb_size := 8 |} |>)
              2 [1; 2; 3; 4]%Q)
    as (w' & p' & H1 & H2 & H3 & H4 & _);
    [reflexivity | lia | reflexivity | vm_compute; reflexivity | vm_compute; reflexivity |].
  exists w', p'. split; [exact H1|]. split; [by rewrite H2|]. split; [exact H3 | exact H4].
Defined.

(** X27.  The downmix of one frame, for every file with at least one
    channel.  A mono file sends half its sample to both outputs.  With more
    channels a selected track (selector 0 or more) is copied as it is; the
    mix for B (selector below 0) is the average of the odd-indexed channels;
    the mix for A is the sum of the even-indexed channels divided by
    [channels / 2], which is their average when the channel count is even. *)
Theorem downmix_rule (p : AUDIO_PLAYER) (pBufferOut : list Q) (frame : Z) :
  0 < sf.channels (sf_info p) ->
  (sf.channels (sf_info p) = 1 ->
     demux p pBufferOut frame
     = ((at_index pBufferOut frame / 2)%Q, (at_index pBufferOut frame / 2)%Q))
  /\ (1 < sf.channels (sf_info p) ->
      (0 <= track_a p ->
         fst (demux p pBufferOut frame)
         = at_index pBufferOut (frame * sf.channels (sf_info p) + track_a p))
      /\ (0 <= track_b p ->
          snd (demux p pBufferOut frame)
          = at_index pBufferOut (frame * sf.channels (sf_info p) + track_b p))
      /\ (track_b p < 0 ->
          (snd (demux p pBufferOut frame)
           == average (odd_indexed (frame_samples p pBufferOut frame)))%Q)
      /\ (track_a p < 0 ->
          (fst (demux p pBufferOut frame)
           == Qsum (even_indexed (frame_samples p pBufferOut frame))
              / inject_Z (sf.channels (sf_info p) ÷ 2))%Q)
      /\ (track_a p < 0 -> Z.even (sf.channels (sf_info p)) = true ->
          (fst (demux p pBufferOut frame)
           == average (even_indexed (frame_samples p pBufferOut frame)))%Q)).
Proof.
  intros Hc. split; [by apply demux_mono|]. intros Hmany.
  destruct (demux_selected_track p pBufferOut frame Hmany) as [SA SB].
  destruct (demux_mix p pBufferOut frame Hmany) as [MA _].
  destruct (demux_average p pBufferOut frame Hmany) as [AB AA].
  repeat split; auto.
Qed.

Lemma downmix_rule_witness :
  (fst (demux ((open_player 0%Z 48000%Z 4%Z PLAYING LOADING [] []) <| track_a := (-1)%Z |>)
          [1; 2; 3; 4]%Q 0%Z)
   == average (even_indexed
                 (frame_samples ((open_player 0%Z 48000%Z 4%Z PLAYING LOADING [] [])
                                   <| track_a := (-1)%Z |>) [1; 2; 3; 4]%Q 0%Z)))%Q.
Proof.
  destruct (downmix_rule ((open_player 0%Z 48000%Z 4%Z PLAYING LOADING [] []) <| track_a := (-1)%Z |>)
              [1; 2; 3; 4]%Q 0%Z) as [_ H]; [simpl; lia|].
  destruct H as (_ & _ & _ & _ & H); [simpl; lia|].
  apply H; [simpl; lia | reflexivity].
Defined.
(** ** Other MIDI events, rejected handles, the debug switch *)

(** X28.  MIDI events other than note-on, the note-off of the note that
    was last played, and pitch bend leave the state untouched.  A pitch bend
    event (status [0xE0]) stores the 14-bit value [data1 + 128 * data2], from
    0 to 16383 for data bytes below 128, and changes nothing else. *)
Theorem other_midi_events (w : world) (i : nat) (p : AUDIO_PLAYER)
    (ev : jack_midi_event) :
  g_players w !! i = Some (Some p) ->
  (Z.land (buffer0 ev) 0xF0 <> 0x90 -> Z.land (buffer0 ev) 0xF0 <> 0xE0 ->
   (Z.land (buffer0 ev) 0xF0 = 0x80 -> last_note_played p <> buffer1 ev) ->
   on_jack_process_midi i ev w = Done (tt, w))
  /\ (Z.land (buffer0 ev) 0xF0 = 0xE0 ->
      on_jack_process_midi i ev w
      = Done (tt, w <| g_players :=
                         <[i := Some (p <| pitch_bend := buffer1 ev + 128 * buffer2 ev |>)]>
                           (g_players w) |>)
      /\ (0 <= buffer1 ev < 128 -> 0 <= buffer2 ev < 128 ->
          0 <= buffer1 ev + 128 * buffer2 ev < 16384)).
Proof.
  intros Hl.
  pose proof (proj1 (world_shape w i p Hl)) as Hw.
  pose proof (lookup_lt_Some _ _ _ Hl) as Hlen.
  split.
  - intros H90 HE0 H80. rewrite Hw at 1. unfold on_jack_process_midi.
    rewrite exec_deref by done. cbn zeta.
    replace (Z.land (buffer0 ev) 240 =? 144) with false by lia.
    replace (Z.land (buffer0 ev) 240 =? 224) with false by lia.
    cbn [andb orb].
    destruct (Z.land (buffer0 ev) 240 =? 128) eqn:E80; cbn [andb orb].
    + replace (last_note_played p =? buffer1 ev) with false by lia. by rewrite <- Hw.
    + by rewrite <- Hw.
  - intros HE0. split; [|lia]. rewrite Hw at 1. unfold on_jack_process_midi.
    rewrite exec_deref by done. cbn zeta. rewrite HE0. cbn [Z.eqb Pos.eqb andb orb].
    rewrite bind_ret_r, exec_store by done.
    by destruct w.
Qed.

Lemma other_midi_events_witness :
  on_jack_process_midi 0 {| buffer0 := 0xE3; buffer1 := 0; buffer2 := 64 |}
    (world_with (open_player 0 48000 2 PLAYING LOADING [] []))
  = Done (tt, world_with ((open_player 0 48000 2 PLAYING LOADING [] [])
                            <| pitch_bend := 8192 |>)).
Proof.
  destruct (other_midi_events (world_with (open_player 0 48000 2 PLAYING LOADING [] []))
              0%nat (open_player 0 48000 2 PLAYING LOADING [] [])
              {| buffer0 := 0xE3; buffer1 := 0; buffer2 := 64 |})
    as [_ H]; [reflexivity|].
  destruct H as [H _]; [reflexivity|]. exact H.
Defined.

(** X29.  A handle below 0 or above 16 is rejected by every function that
    takes one: the state is unchanged and the function returns its default
    value.  This holds as well for [unload], [remove_player] and the file
    queries. *)
Theorem out_of_range_handles_are_ignored (joined : AUDIO_PLAYER -> AUDIO_PLAYER)
    (h : Z) (w : world) (g : float) (t : Q) (n : Z) (name : string) :
  h < 0 \/ MAX_PLAYERS < h ->
  (set_gain h g w = Done (tt, w) /\ set_position h t w = Done (tt, w)
   /\ enable_loop h n w = Done (tt, w) /\ start_playback h w = Done (tt, w)
   /\ stop_playback h w = Done (tt, w) /\ set_src_quality h n w = Done (0, w)
   /\ set_track_a h n w = Done (tt, w) /\ set_track_b h n w = Done (tt, w)
   /\ set_buffer_size h n w = Done (tt, w) /\ set_buffer_count h n w = Done (tt, w))
  /\ (get_gain h w = Done (Num 0, w) /\ get_position h w = Done (0%Q, w)
      /\ get_duration h w = Done (0%Q, w) /\ is_loop h w = Done (0, w)
      /\ get_playback_state h w = Done (STOPPED, w) /\ get_src_quality h w = Done (2, w)
      /\ get_track_a h w = Done (0, w) /\ get_track_b h w = Done (0, w)
      /\ get_buffer_size h w = Done (0, w) /\ get_buffer_count h w = Done (0, w)
      /\ get_filename h w = Done (EmptyString, w)
      /\ get_samplerate h w = Done (to_int (g_samplerate w), w)
      /\ get_channels h w = Done (0, w) /\ get_frames h w = Done (0, w)
      /\ get_format h w = Done (0, w) /\ save h name w = Done (0, w))
  /\ unload joined h w = Done (tt, w)
  /\ remove_player joined h w = Done (tt, w).
Proof.
  intros H. pose proof (get_player_rejects h w H) as E.
  destruct (rejected_handle_is_noop h w g t n H)
    as (A1 & A2 & A3 & A4 & A5 & A6 & A7 & A8 & A9 & A10 & A11 & A12 & A13 & A14 & A15
        & A16 & A17 & A18 & A19 & A20).
  split; [auto 20|]. split.
  { repeat split; try assumption;
      unfold get_filename, get_samplerate, get_channels, get_frames, get_format, save;
      by rewrite (bind_Done _ _ _ _ _ E). }
  split.
  - unfold unload. by rewrite (bind_Done _ _ _ _ _ E).
  - unfold remove_player, remove_player_at. by rewrite (bind_Done _ _ _ _ _ E).
Qed.

Lemma out_of_range_handles_are_ignored_witness :
  remove_player id (-1) (world_with (init_player 0)) = Done (tt, world_with (init_player 0))
  /\ get_samplerate 17 (world_with (init_player 0)) = Done (48000, world_with (init_player 0)).
Proof.
  split.
  - destruct (out_of_range_handles_are_ignored id (-1) (world_with (init_player 0)) (Num 0) 0 0
                EmptyString) as (_ & _ & _ & H); [left; lia | exact H].
  - destruct (out_of_range_handles_are_ignored id 17 (world_with (init_player 0)) (Num 0) 0 0
                EmptyString) as (_ & H & _); [right; unfold MAX_PLAYERS; lia|].
    destruct H as (_ & _ & _ & _ & _ & _ & _ & _ & _ & _ & _ & H & _). exact H.
Defined.

(** X30.  The debug switch is a byte: [enable_debug] keeps the low 8 bits
    of its argument and [is_debug] returns them.  A change of the switch is
    notified once: the next notification pass for [NOTIFY_DEBUG] on a player
    with an open file and a callback calls the callback with the new value
    and records it in [g_last_debug], and a further pass does nothing.  No
    player is touched. *)
Theorem debug_change_is_notified_once (w : world) (i : nat) (p : AUDIO_PLAYER)
    (enable : Z) :
  g_players w !! i = Some (Some p) -> file_open p = 2 -> cb_fn p <> 0 ->
  enable mod 2 ^ 8 <> g_last_debug w ->
  exists w1 w2,
    enable_debug enable w = Done (tt, w1)
    /\ is_debug w1 = Done (enable mod 2 ^ 8, w1)
    /\ send_notifications (Some i) NOTIFY_DEBUG w1 = Done (tt, w2)
    /\ cb_log w2
       = cb_log w ++ [(cb_object p, NOTIFY_DEBUG, Num (inject_Z (enable mod 2 ^ 8)))]
    /\ g_players w2 = g_players w
    /\ g_last_debug w2 = enable mod 2 ^ 8
    /\ send_notifications (Some i) NOTIFY_DEBUG w2 = Done (tt, w2).
Proof.
  intros Hl Hopen Hcb Hnew.
  pose proof (lookup_lt_Some _ _ _ Hl) as Hlen.
  pose proof (list_insert_id _ _ _ Hl) as Hid.
  destruct w as [l sr dbg ldbg log]. cbn in *.
  set (e := enable mod 2 ^ 8) in *.
  assert (forall ldbg0 log0,
            send_notifications (Some i) NOTIFY_DEBUG (Build_world l sr e ldbg0 log0)
            = Done (tt, Build_world l sr e e
                          (if e =? ldbg0 then log0
                           else log0 ++ [(cb_object p, NOTIFY_DEBUG, Num (inject_Z e))])))
    as Hpass.
  { intros ldbg0 log0. rewrite <- Hid. unfold send_notifications.
    rewrite exec_deref by done. rewrite Hopen. cbn [negb Z.eqb Pos.eqb].
    assert ((cb_fn p =? 0) = false) as Hcb0 by lia.
    destruct p; cbn in *.
    exec. unfold when. cbn. exec.
    destruct (e =? ldbg0) eqn:Ee; cbn.
    - apply Z.eqb_eq in Ee. subst ldbg0. reflexivity.
    - unfold bind at 1. cbn. exec.
      rewrite bind_ret_r, exec_notify_cb by done. cbn. rewrite Hcb0. reflexivity. }
  eexists _, _. split; [reflexivity|]. split; [reflexivity|].
  cbn. fold e. split; [apply Hpass|].
  replace (e =? ldbg) with false by lia.
  split; [reflexivity|]. split; [reflexivity|]. split; [reflexivity|].
  rewrite Hpass. by rewrite Z.eqb_refl.
Qed.

Lemma debug_change_is_notified_once_witness :
  exists w1 w2,
    enable_debug 257 (world_with ((open_player 0 48000 2 PLAYING LOADING [] [])
                                    <| cb_fn := 1 |>))
    = Done (tt, w1)
    /\ is_debug w1 = Done (1, w1)
    /\ send_notifications (Some 0%nat) NOTIFY_DEBUG w1 = Done (tt, w2)
    /\ cb_log w2 = [(0, NOTIFY_DEBUG, Num (inject_Z 1))].
Proof.
  destruct (debug_change_is_notified_once
              (world_with ((open_player 0 48000 2 PLAYING LOADING [] []) <| cb_fn := 1 |>))
              0%nat ((open_player 0 48000 2 PLAYING LOADING [] []) <| cb_fn := 1 |>) 257)
    as (w1 & w2 & H1 & H2 & H3 & H4 & _);
    [reflexivity | reflexivity | simpl; lia | vm_compute; discriminate |].
  exists w1, w2. split; [exact H1|]. split; [exact H2|]. split; [exact H3 | exact H4].
Defined.
